(** * Arq.MFT: market analyzer and MT5 order executor

    A shallow embedding of the signal pipeline of
    [market_analyzer_robust.py] (the three analysis modules and
    [generate_trading_signal]) and of the order side of
    [mt5_order_executor_v3.py] (signal intake, trading gate, order
    processing, position closing), followed by the properties of the
    design specification that were checked against them.

    Numbers: the Python code computes on IEEE doubles.  Here every float
    is a rational ([Q]), so arithmetic is exact; the only non-finite
    values the code can produce on finite data come from
    [Series.pct_change] (a division by a previous value of zero), and
    those are modelled by [xfloat].  Equality of numbers is [Qeq]
    ([==]). *)

From Stdlib Require Import QArith Qabs Qminmax Lqa Lia ZArith Bool Sorted Permutation.
From stdpp Require Import base gmap sets list strings.

Local Open Scope Q_scope.

(** ** Numbers *)

Definition Qltb (x y : Q) : bool := negb (Qle_bool y x).
Definition Qleb (x y : Q) : bool := Qle_bool x y.

(** Python's [sum]: a left fold starting at 0. *)
Definition Qsum (l : list Q) : Q := fold_left Qplus l 0.

Definition Qlen (l : list Q) : Q := inject_Z (Z.of_nat (length l)).

(** [Series.mean()] / [sum(l) / len(l)]. *)
Definition Qmean (l : list Q) : Q := Qsum l / Qlen l.

(** Truthiness of an optional number: [None] and [0] are falsy. *)
Definition truthy (o : option Q) : bool :=
  match o with
  | Some q => negb (Qeq_bool q 0)
  | None => false
  end.

(** [x if x else d]. *)
Definition or_else (o : option Q) (d : Q) : Q :=
  match o with
  | Some q => if Qeq_bool q 0 then d else q
  | None => d
  end.

(** Values of a float column that may be non-finite. *)
Inductive xfloat : Type :=
| Fin (q : Q)
| PInf
| NInf
| NaN.

(** One cell of [Series.pct_change]: [cur / prev - 1] in IEEE arithmetic. *)
Definition pct (prev cur : Q) : xfloat :=
  if Qeq_bool prev 0 then
    if Qltb 0 cur then PInf else if Qltb cur 0 then NInf else NaN
  else Fin (cur / prev - 1).

Definition fillna0 (x : xfloat) : xfloat :=
  match x with
  | NaN => Fin 0
  | _ => x
  end.

Definition xgt0 (x : xfloat) : bool :=
  match x with
  | Fin q => Qltb 0 q
  | PInf => true
  | _ => false
  end.

Definition xlt0 (x : xfloat) : bool :=
  match x with
  | Fin q => Qltb q 0
  | NInf => true
  | _ => false
  end.

(** ** Sequences *)

(** [s.iloc[-k]] for [1 <= k]; every use below is guarded by a length
    test, the default is never read. *)
Definition iloc_back (l : list Q) (k : nat) : Q :=
  nth (length l - k) l 0.

(** [s.iloc[-k:]] and [s.tail(k)]: the last [k] entries, all of them when
    there are fewer. *)
Definition last_n {A : Type} (k : nat) (l : list A) : list A :=
  skipn (length l - k) l.

(** [s.iloc[-a:-b]] for [b <= a <= len(s)]. *)
Definition slice_back (a b : nat) (l : list Q) : list Q :=
  firstn (a - b) (skipn (length l - a) l).

(** [s.pct_change(periods=p)]; the first [p] cells are NaN. *)
Definition pct_change (p : nat) (l : list Q) : list xfloat :=
  map (fun i => if (i <? p)%nat then NaN
                else pct (nth (i - p) l 0) (nth i l 0))
      (seq 0 (length l)).

(** The cells of [s.pct_change()] after the first, one per pair of
    neighbours. *)
Fixpoint pct_steps (l : list Q) : list xfloat :=
  match l with
  | x :: ((y :: _) as t) => pct x y :: pct_steps t
  | _ => []
  end.

(** [s.rolling(window=w).mean()] at index [i]: NaN ([None]) until [w]
    entries are available. *)
Definition rolling_mean_at (w : nat) (l : list Q) (i : nat) : option Q :=
  if (w =? 0)%nat || (i + 1 <? w)%nat then None
  else Some (Qmean (firstn w (skipn (i + 1 - w) l))).

Definition rolling_mean (w : nat) (l : list Q) : list (option Q) :=
  map (rolling_mean_at w l) (seq 0 (length l)).

(** Insertion sort, ascending; [nsmallest] and [nlargest] read its ends. *)
Fixpoint insert_sorted (x : Q) (l : list Q) : list Q :=
  match l with
  | [] => [x]
  | y :: t => if Qle_bool x y then x :: l else y :: insert_sorted x t
  end.

Definition sort_asc (l : list Q) : list Q := fold_right insert_sorted [] l.

Definition nsmallest (k : nat) (l : list Q) : list Q := firstn k (sort_asc l).
Definition nlargest (k : nat) (l : list Q) : list Q :=
  firstn k (rev (sort_asc l)).

(** ** Market data frames *)

Inductive column : Type :=
| Ultimo | Maximo | Minimo | Volume
| AgressaoCompra | AgressaoVenda | AgressaoSaldo.

Global Instance column_eq_dec : EqDecision column.
Proof. solve_decision. Defined.

Record row : Type := {
  ultimo : Q;
  maximo : Q;
  minimo : Q;
  volume : Q;
  agressao_compra : Q;
  agressao_venda : Q;
  agressao_saldo : Q
}.

(** A [DataFrame]: its rows, oldest first, and [df.columns].  The cells
    of a column that is not listed are not part of the frame. *)
Record frame : Type := {
  rows : list row;
  columns : list column
}.

Definition cell (c : column) (r : row) : Q :=
  match c with
  | Ultimo => ultimo r
  | Maximo => maximo r
  | Minimo => minimo r
  | Volume => volume r
  | AgressaoCompra => agressao_compra r
  | AgressaoVenda => agressao_venda r
  | AgressaoSaldo => agressao_saldo r
  end.

Definition set_cell (c : column) (v : Q) (r : row) : row :=
  match c with
  | Ultimo => {| ultimo := v; maximo := maximo r; minimo := minimo r; volume := volume r; agressao_compra := agressao_compra r; agressao_venda := agressao_venda r; agressao_saldo := agressao_saldo r |}
  | Maximo => {| ultimo := ultimo r; maximo := v; minimo := minimo r; volume := volume r; agressao_compra := agressao_compra r; agressao_venda := agressao_venda r; agressao_saldo := agressao_saldo r |}
  | Minimo => {| ultimo := ultimo r; maximo := maximo r; minimo := v; volume := volume r; agressao_compra := agressao_compra r; agressao_venda := agressao_venda r; agressao_saldo := agressao_saldo r |}
  | Volume => {| ultimo := ultimo r; maximo := maximo r; minimo := minimo r; volume := v; agressao_compra := agressao_compra r; agressao_venda := agressao_venda r; agressao_saldo := agressao_saldo r |}
  | AgressaoCompra => {| ultimo := ultimo r; maximo := maximo r; minimo := minimo r; volume := volume r; agressao_compra := v; agressao_venda := agressao_venda r; agressao_saldo := agressao_saldo r |}
  | AgressaoVenda => {| ultimo := ultimo r; maximo := maximo r; minimo := minimo r; volume := volume r; agressao_compra := agressao_compra r; agressao_venda := v; agressao_saldo := agressao_saldo r |}
  | AgressaoSaldo => {| ultimo := ultimo r; maximo := maximo r; minimo := minimo r; volume := volume r; agressao_compra := agressao_compra r; agressao_venda := agressao_venda r; agressao_saldo := v |}
  end.

(** [len(df)] *)
Definition len (df : frame) : nat := length (rows df).

(** [c in df.columns] *)
Definition has_column (df : frame) (c : column) : bool :=
  bool_decide (c ∈ columns df).

(** [df[c]]: the cells of the column, oldest first.  A column that is
    not in [df.columns] raises [KeyError]: [None]. *)
Definition series (df : frame) (c : column) : option (list Q) :=
  if has_column df c then Some (map (cell c) (rows df)) else None.

(** ** Configuration *)

(** The resolved configuration of one strategy profile
    ([_get_profile_config]), restricted to the entries the analysis and
    the decision read. *)

Inductive analysis_kind : Type := KWyckoff | KOrderFlow | KMomentum.

Record wyckoff_config : Type := {
  wyckoff_enabled : bool
}.

Record order_flow_config : Type := {
  order_flow_enabled : bool;
  aggression_threshold : Q;
  absorption_threshold : Q
}.

Record momentum_config : Type := {
  momentum_enabled : bool;
  fast_period : nat;
  slow_period : nat;
  signal_threshold : Q
}.

Record signals_config : Type := {
  min_confidence : Q;
  confirmation_required : bool;
  risk_reward_min : Q
}.

Record profile_config : Type := {
  cfg_wyckoff : wyckoff_config;
  cfg_order_flow : order_flow_config;
  cfg_momentum : momentum_config;
  cfg_signals : signals_config;
  (** [analysis.signal_interval], seconds *)
  signal_interval : Q;
  (** [assets.get(asset, {}).get("enabled", False)] *)
  asset_enabled : string -> bool;
  (** [strategy_profiles.get(name, {}).get("enabled", False)] *)
  profile_enabled : string -> bool;
  (** [data_validation.required_columns.get(kind, [])] *)
  required_columns : analysis_kind -> list column;
  (** [data_validation.fallback_values.get(col, 0)] *)
  fallback_value : column -> Q;
  (** [data_validation.min_data_points] *)
  min_data_points : nat
}.

(** ** Data quality guard *)

(** [validate_data_columns] on a non-empty frame: the missing columns;
    the frame is valid when there are none.  (The occurrence counter it
    keeps in [data_quality_issues] is diagnostic only.) *)
Definition missing_columns (cfg : profile_config) (df : frame) (k : analysis_kind)
  : list column :=
  List.filter (fun c => negb (has_column df c)) (required_columns cfg k).

Definition add_column (c : column) (v : Q) (df : frame) : frame :=
  {| rows := map (set_cell c v) (rows df); columns := columns df ++ [c] |}.

(** [prepare_dataframe]: every required column that is absent is added,
    filled with its fallback value. *)
Definition prepare_dataframe (cfg : profile_config) (df : frame) (k : analysis_kind)
  : frame :=
  fold_left (fun d c => if has_column d c then d
                        else add_column c (fallback_value cfg c) d)
            (required_columns cfg k) df.

(** The common prologue of the three analyses:
    [valid, missing = validate(...); if not valid: df = prepare(...)]. *)
Definition guarded (cfg : profile_config) (df : frame) (k : analysis_kind) : frame :=
  match missing_columns cfg df k with
  | [] => df
  | _ => prepare_dataframe cfg df k
  end.

(** ** Analysis results *)

Inductive direction : Type := Compra | Venda.

Global Instance direction_eq_dec : EqDecision direction.
Proof. solve_decision. Defined.

Inductive phase_kind : Type := Acumulacao | Distribuicao.

(** A microsignal is a dictionary; [None] is an absent key.  The three
    analyses write [type], [reason] and (but for Wyckoff) [strength];
    none of them writes [confidence], which [generate_trading_signal]
    reads with default 0. *)
Record microsignal : Type := {
  sig_type : option direction;
  sig_reason : option string;
  sig_strength : option xfloat;
  sig_confidence : option Q
}.

Definition mk_signal (d : direction) (why : string) (s : option xfloat) : microsignal :=
  {| sig_type := Some d; sig_reason := Some why; sig_strength := s;
     sig_confidence := None |}.

(** The result dictionary of one analysis.  An invalid result
    ([{"valid": False, "message": ...}]) has no other entry: its signals
    read as the empty list and its levels as [None]. *)
Record analysis_result : Type := {
  valid : bool;
  signals : list microsignal;
  confidence : Q;
  phase : option phase_kind;
  support_level : option Q;
  resistance_level : option Q
}.

Definition invalid_result : analysis_result :=
  {| valid := false; signals := []; confidence := 0; phase := None;
     support_level := None; resistance_level := None |}.

Definition fresh_result : analysis_result :=
  {| valid := true; signals := []; confidence := 0; phase := None;
     support_level := None; resistance_level := None |}.

Definition emit (s : microsignal) (c : Q) (r : analysis_result) : analysis_result :=
  {| valid := valid r; signals := signals r ++ [s]; confidence := c;
     phase := phase r; support_level := support_level r;
     resistance_level := resistance_level r |}.

(** The body of each analysis runs under [try]; when it raises (here:
    a column that is missing), the handler returns an invalid result
    and what the body had found is dropped. *)
Definition caught (body : option analysis_result) : analysis_result :=
  match body with
  | Some r => r
  | None => invalid_result
  end.

(** ** Phase analysis ([analyze_wyckoff]) *)

(** Bars where price rises while volume falls, and bars where price
    falls while volume rises, over the whole frame, from the signs of
    the two [pct_change] columns after [fillna(0)]. *)
Definition count_pairs (f g : xfloat -> bool) (a b : list xfloat) : nat :=
  length (List.filter (fun p => f (fst p) && g (snd p))
                 (combine (map fillna0 a) (map fillna0 b))).

Definition price_up_volume_down (price vol : list Q) : nat :=
  count_pairs xgt0 xlt0 (pct_change 1 price) (pct_change 1 vol).

Definition price_down_volume_up (price vol : list Q) : nat :=
  count_pairs xlt0 xgt0 (pct_change 1 price) (pct_change 1 vol).

(** Step 1 of [analyze_wyckoff]: [results["volume_analysis"]] is filled
    only when the frame has a volume column and at least 5 rows, and
    then the price column is read, which raises when it is missing. *)
Definition volume_analysis (df : frame) : option (option (nat * nat)) :=
  if has_column df Volume && (5 <=? len df)%nat then
    vol ← series df Volume;
    price ← series df Ultimo;
    Some (Some (price_up_volume_down price vol, price_down_volume_up price vol))
  else Some None.

(** [results["volume_analysis"].get(..., 0)]: an absent count reads as 0. *)
Definition tell_up_down (va : option (nat * nat)) : nat :=
  match va with Some (u, _) => u | None => O end.

Definition tell_down_up (va : option (nat * nat)) : nat :=
  match va with Some (_, d) => d | None => O end.

(** [lows] and [highs] are the columns [minimo] and [maximo];
    [recent_df] is [df.tail(20)]. *)
Definition support_of (lows : list Q) : Q :=
  let min_prices := nsmallest 3 (last_n 20 lows) in
  Qsum min_prices / Qlen min_prices.

Definition resistance_of (highs : list Q) : Q :=
  let max_prices := nlargest 3 (last_n 20 highs) in
  Qsum max_prices / Qlen max_prices.

Definition range_width (lows highs : list Q) : Q :=
  resistance_of highs - support_of lows.

Definition position_in_range (price lows highs : list Q) : Q :=
  (iloc_back price 1 - support_of lows) / range_width lows highs.

(** Step 2 of [analyze_wyckoff], on a frame of at least 10 rows. *)
Definition wyckoff_levels (va : option (nat * nat)) (lows highs price : list Q)
    (r : analysis_result) : analysis_result :=
  let r := {| valid := valid r; signals := signals r; confidence := confidence r;
              phase := phase r;
              support_level := Some (support_of lows);
              resistance_level := Some (resistance_of highs) |} in
  if Qltb 0 (range_width lows highs) then
    if Qltb (position_in_range price lows highs) 0.3 then
      if (5 <? tell_down_up va)%nat then
        let r := emit (mk_signal Compra "Acumulação próxima ao suporte" None) 0.7 r in
        {| valid := valid r; signals := signals r; confidence := confidence r;
           phase := Some Acumulacao; support_level := support_level r;
           resistance_level := resistance_level r |}
      else r
    else if Qltb 0.7 (position_in_range price lows highs) then
      if (5 <? tell_up_down va)%nat then
        let r := emit (mk_signal Venda "Distribuição próxima à resistência" None) 0.7 r in
        {| valid := valid r; signals := signals r; confidence := confidence r;
           phase := Some Distribuicao; support_level := support_level r;
           resistance_level := resistance_level r |}
      else r
    else r
  else r.

(** [analyze_wyckoff].  Step 2 reads the columns [minimo], [maximo] and
    [ultimo] in this order.  Its third step only fills [price_analysis]
    (a projected target), which no other part of the program reads, from
    values step 2 has already read; it is left out. *)
Definition analyze_wyckoff (cfg : profile_config) (df : frame) : analysis_result :=
  if (len df =? 0)%nat then invalid_result
  else if negb (wyckoff_enabled (cfg_wyckoff cfg)) then invalid_result
  else
    let df := guarded cfg df KWyckoff in
    caught
      (va ← volume_analysis df;
       if (10 <=? len df)%nat then
         lows ← series df Minimo;
         highs ← series df Maximo;
         price ← series df Ultimo;
         Some (wyckoff_levels va lows highs price fresh_result)
       else Some fresh_result).

(** ** Order-flow analysis ([analyze_order_flow]) *)

(** IEEE division of a finite value by a configured threshold. *)
Definition xdiv (x d : Q) : xfloat :=
  if Qeq_bool d 0 then
    if Qltb 0 x then PInf else if Qltb x 0 then NInf else NaN
  else Fin (x / d).

(** [df['agressao_saldo_ma20'].iloc[-1]], [saldo] being the column
    [agressao_saldo]: the mean of the last 20 balances when the frame
    has 20 rows, the last balance itself otherwise. *)
Definition last_saldo_ma20 (saldo : list Q) : Q :=
  if (20 <=? length saldo)%nat then
    match rolling_mean_at 20 saldo (length saldo - 1) with
    | Some m => m
    | None => 0
    end
  else iloc_back saldo 1.

Definition last_saldo (saldo : list Q) : Q := iloc_back saldo 1.

Definition aggression_strength (saldo : list Q) : Q :=
  last_saldo saldo / Qmax 1 (Qabs (last_saldo_ma20 saldo)).

(** 1. aggression *)
Definition aggression_stage (oc : order_flow_config) (saldo : list Q)
    (r : analysis_result) : analysis_result :=
  let s := aggression_strength saldo in
  if Qltb (aggression_threshold oc) s then
    if Qltb 0 (last_saldo saldo) then
      emit (mk_signal Compra "Forte agressão compradora" (Some (Fin s)))
           (Qmin 0.9 (0.5 + s / 10)) r
    else if Qltb (last_saldo saldo) 0 then
      emit (mk_signal Venda "Forte agressão vendedora" (Some (Fin (- s))))
           (Qmin 0.9 (0.5 + Qabs s / 10)) r
    else r
  else r.

(** [(p[-1] - p[-5]) / max(0.01, p[-5])], [p] being the column [ultimo] *)
Definition recent_price_change (p : list Q) : Q :=
  (iloc_back p 1 - iloc_back p 5) / Qmax 0.01 (iloc_back p 5).

Definition previous_price_change (p : list Q) : Q :=
  (iloc_back p 5 - iloc_back p 10) / Qmax 0.01 (iloc_back p 10).

Definition recent_aggression_volume (compra venda : list Q) : Q :=
  Qsum (last_n 5 compra) + Qsum (last_n 5 venda).

Definition recent_aggression_balance (saldo : list Q) : Q :=
  Qsum (last_n 5 saldo).

Definition absorption_ratio (p compra venda : list Q) : Q :=
  recent_aggression_volume compra venda / Qmax 0.001 (Qabs (recent_price_change p)).

(** 2. absorption, on a frame of at least 5 rows *)
Definition absorption_stage (oc : order_flow_config) (p compra venda saldo : list Q)
    (r : analysis_result) : analysis_result :=
  let ratio := absorption_ratio p compra venda in
  let c := Qmax (confidence r) (Qmin 0.8 (0.4 + ratio / 20)) in
  let s := Some (xdiv ratio (absorption_threshold oc)) in
  if Qltb (absorption_threshold oc) ratio then
    if Qltb 0 (recent_aggression_balance saldo) && Qleb (recent_price_change p) 0 then
      emit (mk_signal Venda "Absorção de compra detectada" s) c r
    else if Qltb (recent_aggression_balance saldo) 0
            && Qleb 0 (recent_price_change p) then
      emit (mk_signal Compra "Absorção de venda detectada" s) c r
    else r
  else r.

Definition previous_aggression (saldo : list Q) : Q :=
  Qmean (slice_back 10 5 saldo).

Definition recent_aggression (saldo : list Q) : Q :=
  Qmean (last_n 5 saldo).

Definition exhaustion_detected (p saldo : list Q) : bool :=
  Qltb (previous_aggression saldo * recent_aggression saldo) 0
  || Qltb (previous_price_change p * recent_price_change p) 0.

(** 3. exhaustion, on a frame of at least 10 rows *)
Definition exhaustion_stage (p saldo : list Q) (r : analysis_result) : analysis_result :=
  let prev := previous_aggression saldo in
  let rec := recent_aggression saldo in
  let s := Some (Fin (Qabs (rec / Qmax 0.01 prev))) in
  if exhaustion_detected p saldo then
    if Qltb 0 prev && Qltb rec 0 then
      emit (mk_signal Venda "Exaustão de compra detectada" s)
           (Qmax (confidence r) 0.75) r
    else if Qltb prev 0 && Qltb 0 rec then
      emit (mk_signal Compra "Exaustão de venda detectada" s)
           (Qmax (confidence r) 0.75) r
    else r
  else r.

Definition flow_columns : list column :=
  [AgressaoCompra; AgressaoVenda; AgressaoSaldo].

(** [analyze_order_flow].  The three aggression columns are tested
    for; the price column is not, and steps 2 and 3 read it first. *)
Definition analyze_order_flow (cfg : profile_config) (df : frame) : analysis_result :=
  let oc := cfg_order_flow cfg in
  if (len df =? 0)%nat then invalid_result
  else if negb (order_flow_enabled oc) then invalid_result
  else
    let df := guarded cfg df KOrderFlow in
    if negb (forallb (has_column df) flow_columns) then invalid_result
    else
      caught
        (saldo ← series df AgressaoSaldo;
         let r := aggression_stage oc saldo fresh_result in
         r ← (if (5 <=? len df)%nat then
                p ← series df Ultimo;
                compra ← series df AgressaoCompra;
                venda ← series df AgressaoVenda;
                Some (absorption_stage oc p compra venda saldo r)
              else Some r);
         if (10 <=? len df)%nat then
           p ← series df Ultimo;
           Some (exhaustion_stage p saldo r)
         else Some r).

(** ** Momentum analysis ([analyze_momentum]) *)

Inductive trend_kind : Type := Alta | Baixa.

(** [rolling(window=w).mean().fillna(df['ultimo'])] at index [i] *)
Definition ma_at (w : nat) (p : list Q) (i : nat) : Q :=
  match rolling_mean_at w p i with
  | Some m => m
  | None => nth i p 0
  end.

(** [df['ma_diff']] at index [i], [p] being the column [ultimo] *)
Definition ma_diff_at (mc : momentum_config) (p : list Q) (i : nat) : Q :=
  ma_at (fast_period mc) p i - ma_at (slow_period mc) p i.

(** [df['ma_diff'] / df['ma_slow'].replace(0, 1)] at index [i] *)
Definition ma_diff_pct_at (mc : momentum_config) (p : list Q) (i : nat) : Q :=
  let slow := ma_at (slow_period mc) p i in
  ma_diff_at mc p i / (if Qeq_bool slow 0 then 1 else slow).

Definition last_ma_diff (mc : momentum_config) (p : list Q) : Q :=
  ma_diff_at mc p (length p - 1).

Definition prev_ma_diff (mc : momentum_config) (p : list Q) : Q :=
  ma_diff_at mc p (length p - 2).

Definition last_ma_diff_pct (mc : momentum_config) (p : list Q) : Q :=
  ma_diff_pct_at mc p (length p - 1).

Definition trend_of (mc : momentum_config) (p : list Q) : trend_kind :=
  if Qltb 0 (last_ma_diff mc p) then Alta else Baixa.

(** 2. moving-average crosses, on a frame of at least 3 rows *)
Definition cross_stage (mc : momentum_config) (p : list Q)
    (r : analysis_result) : analysis_result :=
  let pctv := last_ma_diff_pct mc p in
  let s := Some (Fin (Qabs pctv * 10)) in
  let c := Qmin 0.85 (0.6 + Qabs pctv * 5) in
  if Qleb (prev_ma_diff mc p) 0 && Qltb 0 (last_ma_diff mc p) then
    emit (mk_signal Compra "Cruzamento de médias para cima (Golden Cross)" s) c r
  else if Qleb 0 (prev_ma_diff mc p) && Qltb (last_ma_diff mc p) 0 then
    emit (mk_signal Venda "Cruzamento de médias para baixo (Death Cross)" s) c r
  else r.

(** [last_roc_5]: the last cell of [pct_change(periods=5) * 100], 0 when
    it is NaN or the frame has fewer than 5 rows. *)
Definition last_roc_5 (p : list Q) : xfloat :=
  if (5 <=? length p)%nat then
    match last (pct_change 5 p) with
    | Some (Fin q) => Fin (q * 100)
    | Some PInf => PInf
    | Some NInf => NInf
    | _ => Fin 0
    end
  else Fin 0.

(** 3. rate of change.  With an infinite rate, [abs(roc) > threshold]
    holds and [min(0.8, 0.5 + abs(roc) / 10)] is 0.8. *)
Definition roc_stage (mc : momentum_config) (p : list Q)
    (r : analysis_result) : analysis_result :=
  let thr := signal_threshold mc in
  let buy s c :=
    match trend_of mc p with
    | Alta => emit (mk_signal Compra "Momentum positivo em tendência de alta" (Some s))
                   (Qmax (confidence r) c) r
    | Baixa => r
    end in
  let sell s c :=
    match trend_of mc p with
    | Baixa => emit (mk_signal Venda "Momentum negativo em tendência de baixa" (Some s))
                    (Qmax (confidence r) c) r
    | Alta => r
    end in
  match last_roc_5 p with
  | Fin q =>
      if Qltb thr (Qabs q) then
        if Qltb 0 q then buy (xdiv q thr) (Qmin 0.8 (0.5 + q / 10))
        else sell (xdiv (Qabs q) thr) (Qmin 0.8 (0.5 + Qabs q / 10))
      else r
  | PInf => buy (if Qltb thr 0 then NInf else PInf) 0.8
  | NInf => sell (if Qltb thr 0 then NInf else PInf) 0.8
  | NaN => r
  end.

(** [analyze_momentum]: the price column is read once the frame is
    known to be long enough. *)
Definition analyze_momentum (cfg : profile_config) (df : frame) : analysis_result :=
  let mc := cfg_momentum cfg in
  if (len df =? 0)%nat then invalid_result
  else if negb (momentum_enabled mc) then invalid_result
  else
    let df := guarded cfg df KMomentum in
    if (len df <? slow_period mc)%nat then invalid_result
    else
      caught
        (p ← series df Ultimo;
         let r := if (3 <=? len df)%nat then cross_stage mc p fresh_result
                  else fresh_result in
         Some (roc_stage mc p r)).

(** ** Decision engine ([generate_trading_signal]) *)

(** [analysis_results]: the three module results.  A module that is
    absent from the dictionary reads like [invalid_result]. *)
Record analysis_results : Type := {
  res_wyckoff : analysis_result;
  res_order_flow : analysis_result;
  res_momentum : analysis_result
}.

Record trading_signal : Type := {
  ts_asset : string;
  ts_type : direction;
  entry_price : Q;
  stop_loss : Q;
  take_profit : Q;
  ts_confidence : Q;
  risk_reward_ratio : Q;
  (** [now], the identity of the decision *)
  ts_timestamp : Q;
  reasons : list string;
  ts_analysis : bool * bool * bool;
  strategy_profile : string
}.

(** The analyzer's mutable state: [last_signal_time] (the rate-limit
    ledger, seconds) and [market_data] (last price per asset). *)
Record analyzer_state : Type := {
  last_signal_time : gmap string Q;
  market_data : gmap string Q
}.

(** [f"{asset}_{profile_name}"] *)
Definition signal_key (asset profile : string) : string :=
  asset +:+ "_" +:+ profile.

(** [last_signal_time and (now - last_signal_time).total_seconds() < signal_interval] *)
Definition rate_limited (ledger : gmap string Q) (key : string)
    (now interval : Q) : bool :=
  match ledger !! key with
  | Some t => Qltb (now - t) interval
  | None => false
  end.

Definition has_type (d : direction) (s : microsignal) : bool :=
  bool_decide (sig_type s = Some d).

Definition all_signals (res : analysis_results) : list microsignal :=
  signals (res_wyckoff res) ++ signals (res_order_flow res)
  ++ signals (res_momentum res).

(** Majority direction; a tie is a sale. *)
Definition signal_type (res : analysis_results) : direction :=
  if (length (List.filter (has_type Venda) (all_signals res))
      <? length (List.filter (has_type Compra) (all_signals res)))%nat
  then Compra else Venda.

Definition filtered_signals (res : analysis_results) : list microsignal :=
  List.filter (has_type (signal_type res)) (all_signals res).

(** [s.get("confidence", 0)] *)
Definition confidence_of (s : microsignal) : Q :=
  match sig_confidence s with Some c => c | None => 0 end.

Definition mean_confidence (l : list microsignal) : Q :=
  Qsum (map confidence_of l) / inject_Z (Z.of_nat (length l)).

Definition max_if_valid (c : Q) (r : analysis_result) : Q :=
  if valid r then Qmax c (confidence r) else c.

(** Lines 1023-1032: the mean over the majority signals, then the
    maximum with each valid module's confidence. *)
Definition aggregate_confidence (res : analysis_results) : Q :=
  max_if_valid
    (max_if_valid
       (max_if_valid (mean_confidence (filtered_signals res)) (res_wyckoff res))
       (res_order_flow res))
    (res_momentum res).

Definition module_confirms (d : direction) (r : analysis_result) : nat :=
  if existsb (has_type d) (signals r) then 1%nat else 0%nat.

Definition strategies_with_signals (res : analysis_results) : nat :=
  (module_confirms (signal_type res) (res_wyckoff res)
   + module_confirms (signal_type res) (res_order_flow res)
   + module_confirms (signal_type res) (res_momentum res))%nat.

(** Entry price and Wyckoff levels (lines 1056-1077).  [latest] is the
    last price of [get_latest_data(asset, limit=1)], [None] when the
    query gives nothing. *)
Definition price_and_levels (st : analyzer_state) (latest : option Q)
    (asset : string) (res : analysis_results)
  : option (Q * option Q * option Q) :=
  let stored := market_data st !! asset in
  if truthy stored then
    Some (or_else stored 0, support_level (res_wyckoff res),
          resistance_level (res_wyckoff res))
  else
    match latest with
    | Some p =>
        if valid (res_wyckoff res)
        then Some (p, support_level (res_wyckoff res),
                   resistance_level (res_wyckoff res))
        else Some (p, None, None)
    | None => None
    end.

Definition stop_of (d : direction) (last : Q) (sup res : option Q) : Q :=
  match d with
  | Compra => or_else sup (last * 0.99)
  | Venda => or_else res (last * 1.01)
  end.

Definition target_of (d : direction) (last : Q) (sup res : option Q) : Q :=
  match d with
  | Compra => or_else res (last * 1.02)
  | Venda => or_else sup (last * 0.98)
  end.

(** [reward / risk if risk > 0 else 0] *)
Definition ratio_of (entry stop target : Q) : Q :=
  let risk := Qabs (entry - stop) in
  let reward := Qabs (target - entry) in
  if Qltb 0 risk then reward / risk else 0.

Definition reasons_of (l : list microsignal) : list string :=
  omap sig_reason l.

Definition stamp (st : analyzer_state) (key : string) (now : Q) : analyzer_state :=
  {| last_signal_time := <[key := now]> (last_signal_time st);
     market_data := market_data st |}.

Definition generate_trading_signal (st : analyzer_state) (now : Q)
    (latest : option Q) (asset profile_name : string) (cfg : profile_config)
    (res : analysis_results) : option trading_signal * analyzer_state :=
  let sc := cfg_signals cfg in
  let key := signal_key asset profile_name in
  if negb (asset_enabled cfg asset) then (None, st)
  else if rate_limited (last_signal_time st) key now (signal_interval cfg)
  then (None, st)
  else
    match all_signals res, filtered_signals res with
    | [], _ => (None, st)
    | _, [] => (None, st)
    | _, _ =>
        let d := signal_type res in
        let c := aggregate_confidence res in
        if Qltb c (min_confidence sc) then (None, st)
        else if confirmation_required sc
                && (strategies_with_signals res <? 2)%nat then (None, st)
        else
          match price_and_levels st latest asset res with
          | None => (None, st)
          | Some (last_price, sup, rst) =>
              let stop := stop_of d last_price sup rst in
              let target := target_of d last_price sup rst in
              let rr := ratio_of last_price stop target in
              if Qltb rr (risk_reward_min sc) then (None, st)
              else
                (Some {| ts_asset := asset; ts_type := d;
                         entry_price := last_price; stop_loss := stop;
                         take_profit := target; ts_confidence := c;
                         risk_reward_ratio := rr; ts_timestamp := now;
                         reasons := reasons_of (filtered_signals res);
                         ts_analysis := (valid (res_wyckoff res),
                                         valid (res_order_flow res),
                                         valid (res_momentum res));
                         strategy_profile := profile_name |},
                 stamp st key now)
          end
    end.

(** ** One evaluation ([analyze_asset_with_profile]) *)

Definition run_analyses (cfg : profile_config) (df : frame) : analysis_results :=
  {| res_wyckoff := analyze_wyckoff cfg df;
     res_order_flow := analyze_order_flow cfg df;
     res_momentum := analyze_momentum cfg df |}.

Definition store_last (st : analyzer_state) (asset : string) (p : Q) : analyzer_state :=
  {| last_signal_time := last_signal_time st;
     market_data := <[asset := p]> (market_data st) |}.

(** [df] is the result of [get_latest_data(asset)] ([None] when it
    fails, as it does on data without a [timestamp] column, so that a
    frame always has one); the analyses add their working columns to
    copies or under names that no other analysis reads, so each sees
    the frame as loaded.  Storing the last price reads the column
    [ultimo]; when it is missing the evaluation ends in the handler,
    with no decision and the state as it was. *)
Definition analyze_asset_with_profile (st : analyzer_state) (now : Q)
    (df : option frame) (latest : option Q) (asset profile_name : string)
    (cfg : profile_config) : option trading_signal * analyzer_state :=
  if negb (profile_enabled cfg profile_name) then (None, st)
  else
    match df with
    | None => (None, st)
    | Some df =>
        if (len df =? 0)%nat then (None, st)
        else if (len df <? min_data_points cfg)%nat then (None, st)
        else
          match series df Ultimo with
          | None => (None, st)
          | Some p =>
              let st := store_last st asset (iloc_back p 1) in
              generate_trading_signal st now latest asset profile_name cfg
                                      (run_analyses cfg df)
          end
    end.

(** A run of the analysis loop: the evaluations [run_main_loop] makes,
    one after the other, each with the clock reading, the data and the
    resolved profile configuration it meets. *)
Record evaluation : Type := {
  ev_now : Q;
  ev_df : option frame;
  ev_latest : option Q;
  ev_asset : string;
  ev_profile : string;
  ev_cfg : profile_config
}.

Definition evaluate (st : analyzer_state) (ev : evaluation)
  : option trading_signal * analyzer_state :=
  analyze_asset_with_profile st (ev_now ev) (ev_df ev) (ev_latest ev)
                             (ev_asset ev) (ev_profile ev) (ev_cfg ev).

(** The decisions emitted along a run, oldest first, and the final state. *)
Fixpoint run_evaluations (st : analyzer_state) (evs : list evaluation)
  : list trading_signal * analyzer_state :=
  match evs with
  | [] => ([], st)
  | ev :: rest =>
      let '(o, st1) := evaluate st ev in
      let '(out, st2) := run_evaluations st1 rest in
      (match o with Some d => d :: out | None => out end, st2)
  end.

Definition analyzer_init : analyzer_state :=
  {| last_signal_time := ∅; market_data := ∅ |}.

(** ** Order executor ([MT5OrderExecutor]) *)

(** One entry of the signal file, a JSON object; [None] is an absent
    key. *)
Record file_signal : Type := {
  fs_timestamp : option string;
  fs_asset : option string;
  fs_type : option string;
  fs_stop_loss : option Q;
  fs_take_profit : option Q;
  fs_entry_price : option Q;
  fs_strategy_profile : option string;
  fs_reasons : list string
}.

(** [order_details]; [signal_details] is the whole entry. *)
Record order_details : Type := {
  od_asset : string;
  od_type : string;
  od_stop_loss : Q;
  od_take_profit : Q;
  od_signal_details : file_signal
}.

Inductive order_status : Type := PENDING | OPEN | CLOSED | FAILED.

(** A row of [executed_orders]. *)
Record order_row : Type := {
  or_mt5_ticket : option Z;
  or_asset : string;
  or_type : string;
  or_volume : Q;
  or_price : Q;
  or_sl : Q;
  or_tp : Q;
  or_status : order_status;
  or_close_time : option Q;
  or_profit : option Q;
  or_signal_timestamp : option string;
  or_strategy_profile : option string
}.

Record daily_stats : Type := {
  ds_date : string;
  ds_trades : nat;
  ds_pnl : Q;
  ds_wins : nat;
  ds_losses : nat
}.

Record executor_config : Type := {
  max_daily_loss_pct : Q;
  max_open_trades : nat;
  (** [trading_hours], seconds since midnight *)
  trading_start : Q;
  trading_end : Q
}.

Record executor : Type := {
  config : executor_config;
  (** [account_info.balance], read once by [connect_mt5] *)
  account_balance : option Q;
  stats : daily_stats;
  (** the [daily_stats] table, by date *)
  stats_table : gmap string daily_stats;
  processed_signal_timestamps : gset string;
  order_queue : list order_details;
  (** the [executed_orders] table, oldest row first *)
  orders_table : list order_row
}.

Definition with_stats (st : executor) (s : daily_stats)
    (t : gmap string daily_stats) : executor :=
  {| config := config st; account_balance := account_balance st;
     stats := s; stats_table := t;
     processed_signal_timestamps := processed_signal_timestamps st;
     order_queue := order_queue st; orders_table := orders_table st |}.

Definition with_intake (st : executor) (p : gset string)
    (q : list order_details) : executor :=
  {| config := config st; account_balance := account_balance st;
     stats := stats st; stats_table := stats_table st;
     processed_signal_timestamps := p;
     order_queue := q; orders_table := orders_table st |}.

Definition with_orders (st : executor) (q : list order_details)
    (t : list order_row) : executor :=
  {| config := config st; account_balance := account_balance st;
     stats := stats st; stats_table := stats_table st;
     processed_signal_timestamps := processed_signal_timestamps st;
     order_queue := q; orders_table := t |}.

(** *** Daily statistics *)

Definition zero_stats (today : string) : daily_stats :=
  {| ds_date := today; ds_trades := 0; ds_pnl := 0; ds_wins := 0; ds_losses := 0 |}.

Definition load_daily_stats (st : executor) (today : string) : executor :=
  match stats_table st !! today with
  | Some s => with_stats st s (stats_table st)
  | None => with_stats st (zero_stats today)
                       (<[today := zero_stats today]> (stats_table st))
  end.

Definition save_daily_stats (st : executor) : executor :=
  with_stats st (stats st) (<[ds_date (stats st) := stats st]> (stats_table st)).

Definition count_trade (s : daily_stats) (profit : Q) : daily_stats :=
  {| ds_date := ds_date s;
     ds_trades := S (ds_trades s);
     ds_pnl := ds_pnl s + profit;
     ds_wins := if Qltb 0 profit then S (ds_wins s) else ds_wins s;
     ds_losses := if Qltb 0 profit then ds_losses s else S (ds_losses s) |}.

Definition update_daily_stats (st : executor) (today : string) (profit : Q)
  : executor :=
  let st := if bool_decide (ds_date (stats st) = today) then st
            else load_daily_stats st today in
  save_daily_stats (with_stats st (count_trade (stats st) profit) (stats_table st)).

(** *** Trading gate *)

(** The daily-loss test of [check_trading_allowed]. *)
Definition loss_limit_hit (cfg : executor_config) (balance pnl : Q) : bool :=
  let initial_balance := balance - pnl in
  let max_loss_value := (max_daily_loss_pct cfg / 100) * initial_balance in
  Qltb pnl (- max_loss_value).

(** [time_of_day] is [datetime.now().time()].  Without account
    information the balance lookup raises and the gate answers [False]. *)
Definition check_trading_allowed (st : executor) (time_of_day : Q) : bool :=
  let cfg := config st in
  if negb (Qleb (trading_start cfg) time_of_day
           && Qleb time_of_day (trading_end cfg)) then false
  else
    match account_balance st with
    | None => false
    | Some balance => negb (loss_limit_hit cfg balance (ds_pnl (stats st)))
    end.

(** *** Signal intake ([signal_processor_thread]) *)

(** [bool(signal_timestamp)]: an absent key and the empty string are
    falsy. *)
Definition timestamp_of (s : file_signal) : option string :=
  match fs_timestamp s with
  | Some t => if bool_decide (t = "") then None else Some t
  | None => None
  end.

(** The required keys besides [timestamp], which is present whenever
    this test is reached. *)
Definition order_of_signal (s : file_signal) : option order_details :=
  match fs_asset s, fs_type s, fs_stop_loss s, fs_take_profit s with
  | Some a, Some ty, Some sl, Some tp =>
      Some {| od_asset := a; od_type := ty; od_stop_loss := sl;
              od_take_profit := tp; od_signal_details := s |}
  | _, _, _, _ => None
  end.

(** [add_order_to_queue]: the entry built by the signal processor has
    all the keys it checks. *)
Definition add_order_to_queue (st : executor) (o : order_details) : executor :=
  with_intake st (processed_signal_timestamps st) (order_queue st ++ [o]).

(** The body of the loop over the entries of the signal file. *)
Definition process_signal (st : executor) (s : file_signal) : executor :=
  match timestamp_of s with
  | None => st
  | Some t =>
      if bool_decide (t ∈ processed_signal_timestamps st) then st
      else
        match order_of_signal s with
        | None =>
            with_intake st ({[t]} ∪ processed_signal_timestamps st) (order_queue st)
        | Some o =>
            let st := add_order_to_queue st o in
            with_intake st ({[t]} ∪ processed_signal_timestamps st) (order_queue st)
        end
  end.

(** One reading of the signal file. *)
Definition process_signal_file (st : executor) (file : list file_signal) : executor :=
  fold_left process_signal file st.

(** *** Order processing ([order_processor_thread]) *)

(** What the broker and the clock answer while one order is processed:
    the time of day, [len(get_open_positions())], the result of
    [calculate_lot_size], the ticket of [send_market_order] ([None] on
    failure) and whether the database insert succeeds. *)
Record broker_reply : Type := {
  br_time : Q;
  br_open_positions : nat;
  br_lot_size : Q;
  br_ticket : option Z;
  br_insert_ok : bool
}.

(** ["OPEN" if mt5_ticket else "FAILED"] *)
Definition status_of (ticket : option Z) : order_status :=
  match ticket with
  | Some t => if (t =? 0)%Z then FAILED else OPEN
  | None => FAILED
  end.

Definition row_of (o : order_details) (br : broker_reply) : order_row :=
  let s := od_signal_details o in
  {| or_mt5_ticket := br_ticket br;
     or_asset := od_asset o;
     or_type := od_type o;
     or_volume := br_lot_size br;
     or_price := match fs_entry_price s with Some p => p | None => 0 end;
     or_sl := od_stop_loss o;
     or_tp := od_take_profit o;
     or_status := status_of (br_ticket br);
     or_close_time := None;
     or_profit := None;
     or_signal_timestamp := fs_timestamp s;
     or_strategy_profile := fs_strategy_profile s |}.

(** One iteration of the order loop; an empty queue times out and
    nothing happens. *)
Definition process_order (st : executor) (br : broker_reply) : executor :=
  match order_queue st with
  | [] => st
  | o :: q =>
      let st := with_orders st q (orders_table st) in
      if negb (check_trading_allowed st (br_time br)) then st
      else if (max_open_trades (config st) <=? br_open_positions br)%nat then st
      else if Qleb (br_lot_size br) 0 then st
      else if br_insert_ok br
           then with_orders st q (orders_table st ++ [row_of o br])
           else st
  end.

(** *** Closing a position ([close_position]) *)

Definition TRADE_RETCODE_DONE : Z := 10009.

(** The broker's answers to [close_position]: whether the terminal is
    initialised, whether [positions_get] finds the ticket, and the return
    code of [order_send] ([None] when it returns nothing). *)
Record close_reply : Type := {
  cr_initialized : bool;
  cr_position_found : bool;
  cr_retcode : option Z
}.

(** Returns whether the position was closed.  The executor's state is
    returned as it was: the call of [update_daily_stats] after a
    successful close is commented out in the source, and no statement
    touches the order's row. *)
Definition close_position (st : executor) (cr : close_reply) (ticket : Z)
  : bool * executor :=
  if negb (cr_initialized cr) then (false, st)
  else if negb (cr_position_found cr) then (false, st)
  else
    match cr_retcode cr with
    | None => (false, st)
    | Some rc => if (rc =? TRADE_RETCODE_DONE)%Z then (true, st) else (false, st)
    end.

(** *** Runs of the executor *)

(** The steps the three worker threads take, in any interleaving. *)
Inductive step : Type :=
| ReadSignal (s : file_signal)
| ProcessOrder (br : broker_reply)
| ClosePosition (cr : close_reply) (ticket : Z).

Definition exec_step (st : executor) (e : step) : executor :=
  match e with
  | ReadSignal s => process_signal st s
  | ProcessOrder br => process_order st br
  | ClosePosition cr ticket => snd (close_position st cr ticket)
  end.

Definition exec_run (st : executor) (es : list step) : executor :=
  fold_left exec_step es st.

(** The executor after [__init__] and [start]: the account balance is
    read, the day's statistics are loaded, the dedup set and the queue
    are empty; [table] and [orders] are what the database holds. *)
Definition executor_init (cfg : executor_config) (balance : Q)
    (today : string) (table : gmap string daily_stats)
    (orders : list order_row) : executor :=
  load_daily_stats
    {| config := cfg; account_balance := Some balance;
       stats := zero_stats today; stats_table := table;
       processed_signal_timestamps := ∅; order_queue := [];
       orders_table := orders |}
    today.



(** ** Specification predicates of the analyzer *)

Definition modules_of (res : analysis_results) : list analysis_result :=
  [res_wyckoff res; res_order_flow res; res_momentum res].

(** The words of the specification on the aggregated confidence,
    written without the definitions of the decision engine: the number
    of microsignals of a direction, the sum of their confidences (a
    microsignal without one counts 0), the majority direction (none on
    a tie) and the mean confidence of a direction. *)
Fixpoint tally (d : direction) (l : list microsignal) : nat :=
  match l with
  | [] => O
  | s :: rest =>
      match sig_type s with
      | Some d' => if decide (d' = d) then S (tally d rest) else tally d rest
      | None => tally d rest
      end
  end.

Fixpoint total_confidence (d : direction) (l : list microsignal) : Q :=
  match l with
  | [] => 0
  | s :: rest =>
      match sig_type s, sig_confidence s with
      | Some d', Some c =>
          if decide (d' = d) then c + total_confidence d rest
          else total_confidence d rest
      | _, _ => total_confidence d rest
      end
  end.

Definition majority (l : list microsignal) : option direction :=
  match Nat.compare (tally Compra l) (tally Venda l) with
  | Gt => Some Compra
  | Lt => Some Venda
  | Eq => None
  end.

Definition mean_of (d : direction) (l : list microsignal) : Q :=
  total_confidence d l / inject_Z (Z.of_nat (tally d l)).

(** A result as the three analyses produce it: confidence between 0
    and 0.9, and microsignals without a [confidence] entry. *)
Definition well_scored (r : analysis_result) : Prop :=
  0 <= confidence r <= 0.9
  /\ Forall (fun s => sig_confidence s = None) (signals r).

(** [r'] extends [r]: more microsignals after the same ones, and a
    confidence that is not lower. *)
Definition extends (r r' : analysis_result) : Prop :=
  (exists l, signals r' = signals r ++ l) /\ confidence r <= confidence r'.

(** [q] is the quotient of [num] by a non-zero [den]. *)
Definition is_ratio (q num den : Q) : Prop := ~ den == 0 /\ q * den == num.

(** The strength as the specification words it: the last balance over
    [max(1, |m|)], [m] the mean of the last 20 balances (of all of them
    when the frame is shorter). *)
Definition claimed_strength (saldo : list Q) : Q :=
  default 0 (last saldo) / Qmax 1 (Qabs (Qmean (last_n 20 saldo))).

(** The accumulation tell count as the specification words it: the
    bars at which the price is below the price of the bar before while
    the volume is above the volume of the bar before. *)
Fixpoint falling_on_rising_volume (price vol : list Q) : nat :=
  match price, vol with
  | p0 :: ((p1 :: _) as pt), v0 :: ((v1 :: _) as vt) =>
      ((if Qltb p1 p0 && Qltb v0 v1 then 1 else 0)
       + falling_on_rising_volume pt vt)%nat
  | _, _ => O
  end.

(** The difference of the fast and the slow average at a tick, as the
    specification words it, [upto] being the prices up to that tick:
    each average is the mean of the prices of its window, the [w] last
    ones; where the window is not full (or [w] is 0) the price at the
    tick stands for the average. *)
Definition window_mean (w : nat) (upto : list Q) : Q := Qmean (last_n w upto).

Definition average_at (w : nat) (upto : list Q) : Q :=
  if (1 <=? w)%nat && (w <=? length upto)%nat then window_mean w upto
  else iloc_back upto 1.

Definition average_diff (mc : momentum_config) (upto : list Q) : Q :=
  average_at (fast_period mc) upto - average_at (slow_period mc) upto.

Definition golden_cross : string := "Cruzamento de médias para cima (Golden Cross)".
Definition death_cross : string := "Cruzamento de médias para baixo (Death Cross)".

Definition is_cross (s : microsignal) : bool :=
  bool_decide (sig_reason s = Some golden_cross)
  || bool_decide (sig_reason s = Some death_cross).

(** The moving-average-cross microsignals of a momentum result. *)
Definition cross_signals (r : analysis_result) : list microsignal :=
  List.filter is_cross (signals r).

(** The clock never goes back along the run, starting at [lo]. *)
Fixpoint clock_from (lo : Q) (evs : list evaluation) : Prop :=
  match evs with
  | [] => True
  | ev :: rest => lo <= ev_now ev /\ clock_from (ev_now ev) rest
  end.

(** No stamp of the ledger is later than [lo]. *)
Definition stamps_until (lo : Q) (st : analyzer_state) : Prop :=
  forall (k : string) (s : Q), last_signal_time st !! k = Some s -> s <= lo.

(** [d] is a decision for the instrument [I] under the profile [P]. *)
Definition for_pair (I P : string) (d : trading_signal) : Prop :=
  ts_asset d = I /\ strategy_profile d = P.

(** Every evaluation of [(I, P)] in the run meets the same signal
    interval [tau]. *)
Definition interval_fixed (I P : string) (tau : Q) (evs : list evaluation) : Prop :=
  forall ev, ev ∈ evs -> ev_asset ev = I -> ev_profile ev = P ->
             signal_interval (ev_cfg ev) == tau.

(** ** Sample data of the analyzer *)

(** The default [required_columns] of [data_validation]. *)
Definition default_required (k : analysis_kind) : list column :=
  match k with
  | KWyckoff => [Volume]
  | KOrderFlow => [AgressaoCompra; AgressaoVenda; AgressaoSaldo]
  | KMomentum => []
  end.

(** The default configuration resolved for the profile [agressivo]. *)
Definition agressivo : profile_config :=
  {| cfg_wyckoff := {| wyckoff_enabled := true |};
     cfg_order_flow := {| order_flow_enabled := true; aggression_threshold := 1.2;
                          absorption_threshold := 1.5 |};
     cfg_momentum := {| momentum_enabled := true; fast_period := 5;
                        slow_period := 20; signal_threshold := 0.4 |};
     cfg_signals := {| min_confidence := 0.5; confirmation_required := false;
                       risk_reward_min := 1.2 |};
     signal_interval := 300;
     asset_enabled := fun a => bool_decide (a = "winfut") || bool_decide (a = "wdofut");
     profile_enabled := fun p => bool_decide (p ∈ ["conservador"; "moderado"; "agressivo"]);
     required_columns := default_required;
     fallback_value := fun _ => 0;
     min_data_points := 10 |}.

(** The profile [agressivo] with its minimum risk/reward set to 0. *)
Definition lenient : profile_config :=
  {| cfg_wyckoff := cfg_wyckoff agressivo; cfg_order_flow := cfg_order_flow agressivo;
     cfg_momentum := cfg_momentum agressivo;
     cfg_signals := {| min_confidence := 0.5; confirmation_required := false;
                       risk_reward_min := 0 |};
     signal_interval := 300; asset_enabled := asset_enabled agressivo;
     profile_enabled := profile_enabled agressivo;
     required_columns := default_required; fallback_value := fun _ => 0;
     min_data_points := 10 |}.

Definition eager_flow : order_flow_config :=
  {| order_flow_enabled := true; aggression_threshold := 0.5;
     absorption_threshold := 1.5 |}.

Definition all_columns : list column :=
  [Ultimo; Maximo; Minimo; Volume; AgressaoCompra; AgressaoVenda; AgressaoSaldo].

(** A bar: last price, high, low, volume, buy and sell aggression and
    their balance. *)
Definition bar (p hi lo v buy sell bal : Q) : row :=
  {| ultimo := p; maximo := hi; minimo := lo; volume := v;
     agressao_compra := buy; agressao_venda := sell; agressao_saldo := bal |}.

(** Ten flat bars at 100 between 95 and 101, with steady buying
    aggression that does not move the price. *)
Definition flat_frame : frame :=
  {| rows := repeat (bar 100 101 95 1000 3 2 1) 10; columns := all_columns |}.

(** Ten flat bars at 100, the top of their range from 95 to 100. *)
Definition flat_top_frame : frame :=
  {| rows := repeat (bar 100 100 95 1000 3 2 1) 10; columns := all_columns |}.

(** Nine bars with an aggression balance of 1 and a tenth with 9. *)
Definition short_frame : frame :=
  {| rows := repeat (bar 100 101 99 1000 1 0 1) 9 ++ [bar 100 101 99 1000 9 0 9];
     columns := all_columns |}.

(** Nineteen bars without aggression and a last one with a buying
    balance of 10. *)
Definition surge_frame : frame :=
  {| rows := repeat (bar 100 101 99 1000 0 0 0) 19 ++ [bar 100 101 99 1000 10 0 10];
     columns := all_columns |}.

(** Twenty bars at 10 and a last one at 9, under the default periods
    5 and 20: the two averages are equal at the previous tick. *)
Definition stall_frame : frame :=
  {| rows := repeat (bar 10 10 10 1000 0 0 0) 20 ++ [bar 9 10 9 1000 0 0 0];
     columns := all_columns |}.

(** Twenty bars at 10 and a last one at 11. *)
Definition rally_frame : frame :=
  {| rows := repeat (bar 10 10 10 1000 0 0 0) 20 ++ [bar 11 11 10 1000 0 0 0];
     columns := all_columns |}.

(** Ten bars between 20 and 60 with prices falling from 30 to 21 on
    rising volume. *)
Definition selloff_frame : frame :=
  {| rows := map (fun i : nat => bar (30 - inject_Z (Z.of_nat i)) 60 20
                                      (1 + inject_Z (Z.of_nat i)) 0 0 0)
                 (seq 0 10);
     columns := all_columns |}.

(** Ten bars whose highs were read as 0 (a feed without highs), with
    lows at 20, prices falling from 30 to 21 and volume rising. *)
Definition no_highs_frame : frame :=
  {| rows := map (fun i : nat => bar (30 - inject_Z (Z.of_nat i)) 0 20
                                      (1 + inject_Z (Z.of_nat i)) 0 0 0)
                 (seq 0 10);
     columns := all_columns |}.

(** The bars of [selloff_frame] in a frame that has no columns for the
    lows and the highs. *)
Definition bare_selloff_frame : frame :=
  {| rows := rows selloff_frame; columns := [Ultimo; Volume] |}.

(** The profile [agressivo] with a negative aggression threshold. *)
Definition contrarian : profile_config :=
  {| cfg_wyckoff := cfg_wyckoff agressivo;
     cfg_order_flow := {| order_flow_enabled := true; aggression_threshold := -2;
                          absorption_threshold := 1.5 |};
     cfg_momentum := cfg_momentum agressivo; cfg_signals := cfg_signals agressivo;
     signal_interval := 300; asset_enabled := asset_enabled agressivo;
     profile_enabled := profile_enabled agressivo;
     required_columns := default_required; fallback_value := fun _ => 0;
     min_data_points := 10 |}.

(** Nineteen bars without aggression and a last one with a selling
    balance of 1; and the same with a selling balance of 10. *)
Definition dump_frame : frame :=
  {| rows := repeat (bar 100 101 99 1000 0 0 0) 19 ++ [bar 100 101 99 1000 0 1 (-1)];
     columns := all_columns |}.

Definition selling_surge_frame : frame :=
  {| rows := repeat (bar 100 101 99 1000 0 0 0) 19 ++ [bar 100 101 99 1000 0 10 (-10)];
     columns := all_columns |}.

(** Twenty bars with prices rising from 1 to 20. *)
Definition rising_frame : frame :=
  {| rows := map (fun i : nat => bar (1 + inject_Z (Z.of_nat i))
                                      (1 + inject_Z (Z.of_nat i))
                                      (1 + inject_Z (Z.of_nat i)) 1000 0 0 0)
                 (seq 0 20);
     columns := all_columns |}.

(** [rally_frame] without its price column. *)
Definition priceless_frame : frame :=
  {| rows := rows rally_frame; columns := [Maximo; Minimo; Volume] |}.

(** Module results whose microsignals carry confidences: two purchases
    (0.4 and 0.8) against one sale (0.9), module confidences 0.5 and
    0.3, and an invalid third result that claims 1. *)
Definition scored_signal (d : direction) (c : Q) : microsignal :=
  {| sig_type := Some d; sig_reason := None; sig_strength := None;
     sig_confidence := Some c |}.

Definition scored_results : analysis_results :=
  {| res_wyckoff := {| valid := true;
                       signals := [scored_signal Compra 0.4; scored_signal Compra 0.8];
                       confidence := 0.5; phase := None;
                       support_level := None; resistance_level := None |};
     res_order_flow := {| valid := true; signals := [scored_signal Venda 0.9];
                          confidence := 0.3; phase := None;
                          support_level := None; resistance_level := None |};
     res_momentum := {| valid := false; signals := []; confidence := 1;
                        phase := None; support_level := None;
                        resistance_level := None |} |}.

Definition flat_eval (now : Q) : evaluation :=
  {| ev_now := now; ev_df := Some flat_frame; ev_latest := Some 100;
     ev_asset := "winfut"; ev_profile := "agressivo"; ev_cfg := agressivo |}.

Definition flat_top_eval : evaluation :=
  {| ev_now := 0; ev_df := Some flat_top_frame; ev_latest := Some 100;
     ev_asset := "winfut"; ev_profile := "agressivo"; ev_cfg := lenient |}.

Definition sample_run : list evaluation := [flat_eval 0; flat_eval 100; flat_eval 300].

(** ** Ledger invariants and sample data of the executor *)

(** Two states with the same configuration, balance and daily
    statistics. *)
Definition same_books (st st' : executor) : Prop :=
  config st' = config st /\ account_balance st' = account_balance st
  /\ stats st' = stats st /\ stats_table st' = stats_table st.




(** The default configuration (trading from 09:00 to 17:55) and a
    well-formed entry of the signal file. *)
Definition sample_config : executor_config :=
  {| max_daily_loss_pct := 3; max_open_trades := 5;
     trading_start := 32400; trading_end := 64500 |}.

Definition sample_signal (t : string) : file_signal :=
  {| fs_timestamp := Some t; fs_asset := Some "WINFUT"; fs_type := Some "BUY";
     fs_stop_loss := Some 129500; fs_take_profit := Some 131000;
     fs_entry_price := Some 130000; fs_strategy_profile := Some "moderado";
     fs_reasons := [] |}.

(** The same entry with its [stop_loss] key missing. *)
Definition broken_signal (t : string) : file_signal :=
  {| fs_timestamp := Some t; fs_asset := Some "WINFUT"; fs_type := Some "BUY";
     fs_stop_loss := None; fs_take_profit := Some 131000;
     fs_entry_price := Some 130000; fs_strategy_profile := Some "moderado";
     fs_reasons := [] |}.

Definition sample_reply : broker_reply :=
  {| br_time := 36000; br_open_positions := 0; br_lot_size := 2;
     br_ticket := Some 1001%Z; br_insert_ok := true |}.

Definition sample_executor : executor :=
  executor_init sample_config 100000 "2025-05-23" ∅ [].

Definition losing_executor : executor :=
  executor_init sample_config 96000 "2025-05-23"
    {[ "2025-05-23" := {| ds_date := "2025-05-23"; ds_trades := 4;
                          ds_pnl := -4000; ds_wins := 0; ds_losses := 4 |} ]} [].

Definition open_row : order_row :=
  row_of {| od_asset := "WINFUT"; od_type := "BUY"; od_stop_loss := 129500;
            od_take_profit := 131000;
            od_signal_details := sample_signal "2025-05-23T10:00:00" |}
         sample_reply.

Definition executor_with_position : executor :=
  executor_init sample_config 100000 "2025-05-23" ∅ [open_row].

Definition broker_closes : close_reply :=
  {| cr_initialized := true; cr_position_found := true;
     cr_retcode := Some TRADE_RETCODE_DONE |}.

(** ** Further definitions: the data-quality guard *)

(** One step of the loop of [prepare_dataframe]. *)
Definition prepare_step (cfg : profile_config) (d : frame) (c : column) : frame :=
  if has_column d c then d else add_column c (fallback_value cfg c) d.

(** Four basic columns only: a feed without order-flow data. *)
Definition bare_frame : frame :=
  {| rows := repeat (bar 100 101 99 1000 0 0 0) 12;
     columns := [Ultimo; Maximo; Minimo; Volume] |}.

(** A column of zeros. *)
Definition all_zero (l : list Q) : Prop := Forall (fun x => x == 0) l.

(** ** Further definitions: the analyses and the decision engine *)

(** Ten bars between 20 and 60 with prices rising from 50 to 59 on
    falling volume. *)
Definition markup_frame : frame :=
  {| rows := map (fun i : nat => bar (50 + inject_Z (Z.of_nat i)) 60 20
                                      (20 - inject_Z (Z.of_nat i)) 0 0 0)
                 (seq 0 10);
     columns := all_columns |}.

(** Five bars of buying aggression followed by five of selling, the
    price unchanged. *)
Definition turn_frame : frame :=
  {| rows := repeat (bar 100 101 99 1000 4 0 4) 5
             ++ repeat (bar 100 101 99 1000 0 4 (-4)) 5;
     columns := all_columns |}.

Definition trend_direction (t : trend_kind) : direction :=
  match t with Alta => Compra | Baixa => Venda end.

(** The number of microsignals of direction [d]. *)
Definition votes (d : direction) (res : analysis_results) : nat :=
  length (List.filter (has_type d) (all_signals res)).



(** The evaluation of [selloff_frame]: an accumulation, a purchase. *)
Definition selloff_eval : evaluation :=
  {| ev_now := 0; ev_df := Some selloff_frame; ev_latest := Some 100;
     ev_asset := "winfut"; ev_profile := "agressivo"; ev_cfg := agressivo |}.

(** ** Periodic charts ([should_generate_chart]) *)

(** [last_chart_time] is the ledger, [chart_interval] the configured
    spacing in seconds; a [datetime] is never falsy, so the first test
    is the absence of the key. *)
Definition should_generate_chart (ledger : gmap string Q) (now : Q)
    (asset profile_name : string) (chart_interval : Q) : bool * gmap string Q :=
  let chart_key := signal_key asset profile_name in
  match ledger !! chart_key with
  | Some last =>
      if Qleb chart_interval (now - last)
      then (true, <[chart_key := now]> ledger)
      else (false, ledger)
  | None => (true, <[chart_key := now]> ledger)
  end.

(** A call of [should_generate_chart]: the clock reading, the asset and
    the profile. *)
Record chart_call : Type := {
  cc_now : Q;
  cc_asset : string;
  cc_profile : string
}.

Definition chart_calls (interval : Q) (ledger : gmap string Q)
    (calls : list chart_call) : gmap string Q :=
  fold_left (fun l c => snd (should_generate_chart l (cc_now c) (cc_asset c)
                                                   (cc_profile c) interval))
            calls ledger.

(** ** Handing a decision to the executor ([send_signal_to_executor]) *)

(** The strings the analyses and the decision engine use for the two
    directions. *)
Definition type_name (d : direction) : string :=
  match d with
  | Compra => "Compra"
  | Venda => "Venda"
  end.

(** What [json.load] makes of the file: a list of entries, a JSON value
    that is not a list, or a decoding error. *)
Inductive file_content : Type :=
| Entries (l : list file_signal)
| NotAList
| Garbled.

(** [signals]: the empty list unless the file holds a list. *)
Definition entries_of (c : file_content) : list file_signal :=
  match c with
  | Entries l => l
  | NotAList | Garbled => []
  end.

Section SignalFile.

(** [datetime.isoformat], the rendering of the decision's clock reading. *)
Variable isoformat : Q -> string.

(** The decision as [json.dump] writes it and [json.load] reads it
    back, with the keys the executor looks at. *)
Definition to_file_signal (d : trading_signal) : file_signal :=
  {| fs_timestamp := Some (isoformat (ts_timestamp d));
     fs_asset := Some (ts_asset d);
     fs_type := Some (type_name (ts_type d));
     fs_stop_loss := Some (stop_loss d);
     fs_take_profit := Some (take_profit d);
     fs_entry_price := Some (entry_price d);
     fs_strategy_profile := Some (strategy_profile d);
     fs_reasons := reasons d |}.

(** How the rewriting of the file ends: written, [open] raising (the
    file stays as it was), or [json.dump] raising after the file was
    truncated. *)
Inductive write_outcome : Type := Written | OpenFailed | DumpFailed.

(** What the analyzer keeps for the executor: the switch
    [mt5_executor.enabled], [signals_history] and the signal file
    ([None] when it does not exist). *)
Record outbox : Type := {
  executor_enabled : bool;
  signals_history : gmap string (list trading_signal);
  signal_file_content : option file_content
}.

(** [if profile_name in self.signals_history: ...append(signal)] *)
Definition record_history (h : gmap string (list trading_signal))
    (d : trading_signal) : gmap string (list trading_signal) :=
  match h !! strategy_profile d with
  | Some l => <[strategy_profile d := l ++ [d]]> h
  | None => h
  end.

Definition send_signal_to_executor (ob : outbox) (signal : option trading_signal)
    (w : write_outcome) : bool * outbox :=
  match signal with
  | None => (false, ob)
  | Some d =>
      if negb (executor_enabled ob) then (false, ob)
      else
        let h := record_history (signals_history ob) d in
        let existing :=
          match signal_file_content ob with
          | None => Some []
          | Some (Entries l) => Some l
          | Some Garbled => Some []
          | Some NotAList => None
          end in
        match existing with
        | None =>
            (false, {| executor_enabled := executor_enabled ob;
                       signals_history := h;
                       signal_file_content := signal_file_content ob |})
        | Some l =>
            match w with
            | Written =>
                (true, {| executor_enabled := executor_enabled ob;
                          signals_history := h;
                          signal_file_content :=
                            Some (Entries (l ++ [to_file_signal d])) |})
            | OpenFailed =>
                (false, {| executor_enabled := executor_enabled ob;
                           signals_history := h;
                           signal_file_content := signal_file_content ob |})
            | DumpFailed =>
                (false, {| executor_enabled := executor_enabled ob;
                           signals_history := h;
                           signal_file_content := Some Garbled |})
            end
        end
  end.

End SignalFile.

(** The entries of the file as the executor reads them. *)
Definition read_entries (c : option file_content) : list file_signal :=
  match c with
  | Some c => entries_of c
  | None => []
  end.

(** A rendering of the clock for the sample runs: every reading is
    given the same text. *)
Definition one_instant (t : Q) : string := "2025-05-23T10:00:00".

Definition empty_outbox : outbox :=
  {| executor_enabled := true; signals_history := ∅;
     signal_file_content := None |}.

Definition sample_decision : trading_signal :=
  {| ts_asset := "WINFUT"; ts_type := Compra; entry_price := 130000;
     stop_loss := 129500; take_profit := 131000; ts_confidence := 0.8;
     risk_reward_ratio := 2; ts_timestamp := 36000; reasons := [];
     ts_analysis := (true, true, true); strategy_profile := "moderado" |}.

(** ** Polling the signal file ([signal_processor_thread]) *)

(** The file as one poll finds it: [os.path.getmtime] and the content. *)
Record signal_file : Type := {
  sf_mtime : Q;
  sf_content : file_content
}.

(** The signal thread's own state beside the executor's. *)
Record intake : Type := {
  last_signal_file_mtime : Q;
  exec : executor
}.

(** One iteration of the polling loop; [None] is a missing file. *)
Definition poll (it : intake) (file : option signal_file) : intake :=
  match file with
  | None => it
  | Some f =>
      if Qleb (sf_mtime f) (last_signal_file_mtime it) then it
      else {| last_signal_file_mtime := sf_mtime f;
              exec := process_signal_file (exec it) (entries_of (sf_content f)) |}
  end.

Definition poll_run (it : intake) (files : list (option signal_file)) : intake :=
  fold_left poll files it.

(** The intake after [__init__]. *)
Definition intake_init (st : executor) : intake :=
  {| last_signal_file_mtime := 0; exec := st |}.

(** A file that grows by appended entries: every reading is a prefix of
    [final]. *)
Definition grows_to (final : list file_signal) (file : option signal_file) : Prop :=
  match file with
  | None => True
  | Some f => entries_of (sf_content f) `prefix_of` final
  end.

Definition file_timestamps (file : list file_signal) : gset string :=
  list_to_set (omap timestamp_of file).

Definition three_signals : list file_signal :=
  [sample_signal "t1"; broken_signal "t2"; sample_signal "t3"].

(** ** The request of [send_market_order] *)

Inductive mt5_order_type : Type := ORDER_TYPE_BUY | ORDER_TYPE_SELL.

(** The fields of the request that depend on the order; [ask] and [bid]
    are those of [symbol_info_tick]. *)
Record order_request : Type := {
  rq_symbol : string;
  rq_volume : Q;
  rq_type : mt5_order_type;
  rq_price : Q;
  rq_sl : Q;
  rq_tp : Q;
  rq_comment : string
}.

Definition market_order_request (asset order_type : string)
    (volume stop_loss take_profit : Q) (signal_details : file_signal)
    (ask bid : Q) : order_request :=
  {| rq_symbol := asset;
     rq_volume := volume;
     rq_type := if bool_decide (order_type = "BUY")
                then ORDER_TYPE_BUY else ORDER_TYPE_SELL;
     rq_price := if bool_decide (order_type = "BUY") then ask else bid;
     rq_sl := stop_loss;
     rq_tp := take_profit;
     rq_comment := "Signal " +:+ match fs_strategy_profile signal_details with
                                 | Some p => p
                                 | None => "N/A"
                                 end |}.

(** The request the order loop has sent for a queued order. *)
Definition request_of (o : order_details) (volume ask bid : Q) : order_request :=
  market_order_request (od_asset o) (od_type o) volume (od_stop_loss o)
                       (od_take_profit o) (od_signal_details o) ask bid.

Definition order_of_decision (isoformat : Q -> string) (d : trading_signal)
  : order_details :=
  {| od_asset := ts_asset d; od_type := type_name (ts_type d);
     od_stop_loss := stop_loss d; od_take_profit := take_profit d;
     od_signal_details := to_file_signal isoformat d |}.

(** ** Further definitions: the executor's books and its order loop *)

(** The statistics table is keyed by the date of its rows, every row
    counts each trade as a win or a loss, and the statistics in memory
    are the row of their date. *)
Definition balanced (s : daily_stats) : Prop :=
  (ds_wins s + ds_losses s = ds_trades s)%nat.

Definition stats_ok (st : executor) : Prop :=
  (forall k s, stats_table st !! k = Some s -> ds_date s = k /\ balanced s)
  /\ balanced (stats st)
  /\ stats_table st !! ds_date (stats st) = Some (stats st).

(** The statistics [update_daily_stats] starts from on the day [today]. *)
Definition stats_on (st : executor) (today : string) : daily_stats :=
  if bool_decide (ds_date (stats st) = today) then stats st
  else match stats_table st !! today with
       | Some s => s
       | None => zero_stats today
       end.

(** The tests an order passes on its way to the table: the trading
    gate, the number of open positions, the lot size and the database
    insert. *)
Definition accepted (st : executor) (br : broker_reply) : bool :=
  check_trading_allowed st (br_time br)
  && negb (max_open_trades (config st) <=? br_open_positions br)%nat
  && negb (Qleb (br_lot_size br) 0)
  && br_insert_ok br.

Definition recorded (st : executor) (p : order_details * broker_reply) : bool :=
  accepted st p.2.

(** * Properties *)

(** ** Comparisons *)

Lemma Qltb_lt (x y : Q) : Qltb x y = true <-> x < y.
Proof.
  unfold Qltb. rewrite negb_true_iff, <- not_true_iff_false, Qle_bool_iff.
  split; [apply Qnot_le_lt | apply Qlt_not_le].
Qed.

Lemma Qltb_ge (x y : Q) : Qltb x y = false <-> y <= x.
Proof.
  unfold Qltb. rewrite negb_false_iff. apply Qle_bool_iff.
Qed.

Lemma Qleb_le (x y : Q) : Qleb x y = true <-> x <= y.
Proof. apply Qle_bool_iff. Qed.

Lemma Qleb_gt (x y : Q) : Qleb x y = false <-> y < x.
Proof.
  unfold Qleb. rewrite <- not_true_iff_false, Qle_bool_iff.
  split; [apply Qnot_le_lt | apply Qlt_not_le].
Qed.


(** ** Frames and stages *)

(** The data-quality guard keeps the number of rows; every stage of an
    analysis keeps the microsignals it finds and never lowers the
    confidence. *)

Ltac case_if :=
  match goal with
  | |- context [if ?b then _ else _] => destruct b eqn:?
  end.

Lemma add_column_len c v df : len (add_column c v df) = len df.
Proof. unfold len, add_column. simpl. by rewrite length_map. Qed.

Lemma prepare_len cfg k df : len (prepare_dataframe cfg df k) = len df.
Proof.
  unfold prepare_dataframe. generalize (required_columns cfg k) as cs.
  intros cs. revert df. induction cs as [|c cs IH]; intros df; simpl; [done|].
  rewrite IH. destruct (has_column df c); [done|apply add_column_len].
Qed.

Lemma guarded_len cfg df k : len (guarded cfg df k) = len df.
Proof.
  unfold guarded. destruct (missing_columns cfg df k); [done|apply prepare_len].
Qed.

Lemma series_len df c l : series df c = Some l -> length l = len df.
Proof.
  unfold series, len. destruct (has_column df c); [|discriminate].
  intros [= <-]. apply length_map.
Qed.

Lemma series_has df c l : series df c = Some l -> has_column df c = true.
Proof. unfold series. by destruct (has_column df c). Qed.

Lemma series_missing df c : has_column df c = false -> series df c = None.
Proof. unfold series. by intros ->. Qed.

Lemma series_present df c :
  has_column df c = true -> exists l, series df c = Some l.
Proof. unfold series. intros ->. by eexists. Qed.

Lemma iloc_back_last (l : list Q) : iloc_back l 1 = default 0 (last l).
Proof.
  unfold iloc_back. rewrite last_lookup, nth_lookup.
  by replace (length l - 1)%nat with (Nat.pred (length l)) by lia.
Qed.

Lemma last_n_length {A} (k : nat) (l : list A) :
  length (last_n k l) = Nat.min k (length l).
Proof. unfold last_n. rewrite length_skipn. lia. Qed.

Lemma well_scored_fresh : well_scored fresh_result.
Proof. split; [simpl; lra|constructor]. Qed.

Lemma well_scored_invalid : well_scored invalid_result.
Proof. split; [simpl; lra|constructor]. Qed.

Lemma well_scored_emit d why s c r :
  well_scored r -> 0 <= c <= 0.9 -> well_scored (emit (mk_signal d why s) c r).
Proof.
  intros [Hc Hs] Hb. split; [exact Hb|]. simpl.
  apply Forall_app. split; [exact Hs|]. by repeat constructor.
Qed.

Lemma extends_refl r : extends r r.
Proof. split; [exists []; by rewrite app_nil_r|lra]. Qed.

Lemma extends_trans r1 r2 r3 : extends r1 r2 -> extends r2 r3 -> extends r1 r3.
Proof.
  intros [[l1 H1] C1] [[l2 H2] C2]. split; [|lra].
  exists (l1 ++ l2). by rewrite H2, H1, app_assoc.
Qed.

Lemma extends_emit s c r : confidence r <= c -> extends r (emit s c r).
Proof. intros H. split; [by exists [s]|exact H]. Qed.

(** ** Phase analysis *)

(** [nsmallest] and [nlargest] are the ends of a sorted permutation. *)

Lemma insert_sorted_perm (x : Q) (l : list Q) : Permutation (insert_sorted x l) (x :: l).
Proof.
  induction l as [|y t IH]; simpl; [done|].
  destruct (Qle_bool x y); [done|].
  rewrite IH. apply perm_swap.
Qed.

Lemma sort_asc_perm (l : list Q) : Permutation (sort_asc l) l.
Proof.
  induction l as [|x l IH]; simpl; [done|].
  rewrite insert_sorted_perm. by constructor.
Qed.

Lemma insert_sorted_sorted (x : Q) (l : list Q) :
  StronglySorted Qle l -> StronglySorted Qle (insert_sorted x l).
Proof.
  induction 1 as [|y t Hs IH Hy]; simpl.
  - repeat constructor.
  - destruct (Qle_bool x y) eqn:E.
    + apply Qle_bool_iff in E. constructor; [by constructor|].
      constructor; [exact E|].
      eapply Forall_impl; [exact Hy|]. intros z Hz. simpl in Hz. lra.
    + assert (y <= x).
      { apply Qlt_le_weak, Qnot_le_lt. intros H. apply Qle_bool_iff in H. congruence. }
      constructor; [exact IH|].
      rewrite insert_sorted_perm. by constructor.
Qed.

Lemma sort_asc_sorted (l : list Q) : StronglySorted Qle (sort_asc l).
Proof.
  induction l as [|x l IH]; simpl; [constructor|by apply insert_sorted_sorted].
Qed.

Lemma sorted_split (s : list Q) :
  StronglySorted Qle s ->
  forall (k : nat) (x y : Q), x ∈ firstn k s -> y ∈ skipn k s -> x <= y.
Proof.
  induction 1 as [|a t Hs IH Ha]; intros k x y Hx Hy.
  - destruct k; by apply elem_of_nil in Hx.
  - destruct k as [|k]; simpl in *.
    + by apply elem_of_nil in Hx.
    + apply elem_of_cons in Hx as [->|Hx]; [|by eapply IH].
      rewrite Forall_forall in Ha. apply Ha.
      by apply (subseteq_drop k t).
Qed.

Lemma nsmallest_spec (k : nat) (l : list Q) :
  (k <= length l)%nat ->
  exists rest : list Q,
    Permutation l (nsmallest k l ++ rest)
    /\ length (nsmallest k l) = k
    /\ forall x y : Q, x ∈ nsmallest k l -> y ∈ rest -> x <= y.
Proof.
  intros Hk. exists (skipn k (sort_asc l)). unfold nsmallest.
  split; [|split].
  - rewrite firstn_skipn. symmetry. apply sort_asc_perm.
  - apply firstn_length_le. by rewrite (Permutation_length (sort_asc_perm l)).
  - apply sorted_split, sort_asc_sorted.
Qed.

Lemma nlargest_spec (k : nat) (l : list Q) :
  (k <= length l)%nat ->
  exists rest : list Q,
    Permutation l (nlargest k l ++ rest)
    /\ length (nlargest k l) = k
    /\ forall x y : Q, x ∈ nlargest k l -> y ∈ rest -> y <= x.
Proof.
  intros Hk. exists (skipn k (rev (sort_asc l))). unfold nlargest.
  assert (Hlen : length (sort_asc l) = length l)
    by apply (Permutation_length (sort_asc_perm l)).
  split; [|split].
  - rewrite firstn_skipn. rewrite <- Permutation_rev. symmetry. apply sort_asc_perm.
  - apply firstn_length_le. by rewrite length_rev, Hlen.
  - intros x y Hx Hy. rewrite firstn_rev in Hx. rewrite skipn_rev in Hy.
    apply list_elem_of_In, in_rev, list_elem_of_In in Hx.
    apply list_elem_of_In, in_rev, list_elem_of_In in Hy.
    eapply sorted_split; [apply sort_asc_sorted|exact Hy|exact Hx].
Qed.

Lemma well_scored_levels va lows highs price :
  well_scored (wyckoff_levels va lows highs price fresh_result).
Proof.
  unfold wyckoff_levels. repeat case_if;
    (split; [simpl; lra|simpl; by repeat constructor]).
Qed.

Lemma well_scored_caught (body : option analysis_result) :
  (forall r, body = Some r -> well_scored r) -> well_scored (caught body).
Proof.
  intros H. destruct body as [r|]; simpl; [by apply H|apply well_scored_invalid].
Qed.

Lemma well_scored_wyckoff cfg df : well_scored (analyze_wyckoff cfg df).
Proof.
  unfold analyze_wyckoff.
  destruct (len df =? 0)%nat; [apply well_scored_invalid|].
  destruct (negb _); [apply well_scored_invalid|].
  apply well_scored_caught. intros r.
  destruct (volume_analysis _) as [va|]; simpl; [|discriminate].
  case_if; [|intros [= <-]; apply well_scored_fresh].
  destruct (series _ Minimo); simpl; [|discriminate].
  destruct (series _ Maximo); simpl; [|discriminate].
  destruct (series _ Ultimo); simpl; [|discriminate].
  intros [= <-]. apply well_scored_levels.
Qed.

(** The accumulation tell count of a frame whose price column is
    [price]: bars with price falling while volume rises, 0 without a
    volume column. *)
Lemma volume_analysis_tells df price :
  series df Ultimo = Some price -> (5 <= len df)%nat ->
  exists va, volume_analysis df = Some va
    /\ tell_down_up va = match series df Volume with
                         | Some vol => price_down_volume_up price vol
                         | None => O
                         end
    /\ tell_up_down va = match series df Volume with
                         | Some vol => price_up_volume_down price vol
                         | None => O
                         end.
Proof.
  intros Hp H5. unfold volume_analysis.
  replace (5 <=? len df)%nat with true by (symmetry; apply Nat.leb_le; lia).
  rewrite andb_true_r.
  destruct (has_column df Volume) eqn:Hv.
  - destruct (series_present df Volume Hv) as [vol Hvol]. rewrite Hvol, Hp. simpl.
    eexists. split; [reflexivity|]. by split.
  - rewrite (series_missing df Volume Hv). eexists. split; [reflexivity|]. by split.
Qed.

(** [pct_change] cell by cell, and the tell count on market data
    (prices above 0, volumes not below 0). *)

Lemma pct_steps_nth (t : list Q) : forall x : Q,
  map (fun i => pct (nth i (x :: t) 0) (nth i t 0)) (seq 0 (length t))
  = pct_steps (x :: t).
Proof.
  induction t as [|y t IH]; intros x; [reflexivity|].
  cbn [length seq map nth pct_steps]. f_equal.
  rewrite <- seq_shift, map_map. apply IH.
Qed.

Lemma pct_change_steps (l : list Q) :
  pct_change 1 l = match l with [] => [] | _ :: _ => NaN :: pct_steps l end.
Proof.
  destruct l as [|x t]; [reflexivity|].
  unfold pct_change. cbn [length seq map Nat.ltb Nat.leb]. f_equal.
  rewrite <- seq_shift, map_map. rewrite <- pct_steps_nth.
  apply map_ext. intros i. cbn [Nat.ltb Nat.leb Nat.sub nth].
  by rewrite Nat.sub_0_r.
Qed.

Lemma pct_falls (prev cur : Q) : 0 < prev -> xlt0 (fillna0 (pct prev cur)) = Qltb cur prev.
Proof.
  intros Hp. unfold pct.
  assert (E : Qeq_bool prev 0 = false).
  { apply not_true_iff_false. intros H. apply Qeq_bool_iff in H. lra. }
  rewrite E. cbn [fillna0 xlt0].
  assert (Hd : cur / prev - 1 < 0 <-> cur < prev).
  { split; intros H.
    - assert (cur / prev < 1) by lra.
      apply (Qmult_lt_compat_r _ _ prev Hp) in H0.
      unfold Qdiv in H0. rewrite <- Qmult_assoc, (Qmult_comm (/ prev)) in H0.
      rewrite Qmult_inv_r in H0 by lra. lra.
    - assert (cur / prev < 1); [|lra].
      apply Qlt_shift_div_r; lra. }
  destruct (Qltb cur prev) eqn:E1.
  - apply Qltb_lt. apply Hd. by apply Qltb_lt.
  - apply Qltb_ge. apply Qltb_ge in E1.
    destruct (Qlt_le_dec (cur / prev - 1) 0) as [H|H]; [|exact H].
    apply Hd in H. lra.
Qed.

Lemma pct_rises (prev cur : Q) :
  0 <= prev -> 0 <= cur -> xgt0 (fillna0 (pct prev cur)) = Qltb prev cur.
Proof.
  intros Hp Hc. unfold pct.
  destruct (Qeq_bool prev 0) eqn:E.
  - apply Qeq_bool_iff in E.
    destruct (Qltb 0 cur) eqn:E1.
    + cbn [fillna0 xgt0]. symmetry. apply Qltb_lt. apply Qltb_lt in E1. lra.
    + apply Qltb_ge in E1.
      assert (E2 : Qltb cur 0 = false) by (apply Qltb_ge; lra).
      rewrite E2. cbn [fillna0 xgt0]. unfold Qltb at 1. simpl.
      symmetry. apply Qltb_ge. lra.
  - assert (Hpos : 0 < prev).
    { destruct (Qlt_le_dec 0 prev) as [H|H]; [exact H|].
      assert (prev == 0) by lra. apply Qeq_bool_iff in H0. congruence. }
    cbn [fillna0 xgt0].
    assert (Hd : 0 < cur / prev - 1 <-> prev < cur).
    { split; intros H.
      - assert (1 < cur / prev) by lra.
        apply (Qmult_lt_compat_r _ _ prev Hpos) in H0.
        unfold Qdiv in H0. rewrite <- Qmult_assoc, (Qmult_comm (/ prev)) in H0.
        rewrite Qmult_inv_r in H0 by lra. lra.
      - assert (1 < cur / prev); [|lra].
        apply Qlt_shift_div_l; lra. }
    destruct (Qltb prev cur) eqn:E1.
    + apply Qltb_lt. apply Hd. by apply Qltb_lt.
    + apply Qltb_ge. apply Qltb_ge in E1.
      destruct (Qlt_le_dec 0 (cur / prev - 1)) as [H|H]; [|exact H].
      apply Hd in H. lra.
Qed.

Lemma tell_steps (price : list Q) : forall vol : list Q,
  Forall (fun x => 0 < x) price -> Forall (fun x => 0 <= x) vol ->
  length (List.filter (fun q => xlt0 (fst q) && xgt0 (snd q))
            (combine (map fillna0 (pct_steps price)) (map fillna0 (pct_steps vol))))
  = falling_on_rising_volume price vol.
Proof.
  induction price as [|p0 pt IH]; intros vol Hp Hv; [reflexivity|].
  destruct pt as [|p1 pt]; [by destruct vol as [|? [|? ?]]|].
  destruct vol as [|v0 [|v1 vt]]; [reflexivity|reflexivity|].
  apply Forall_cons in Hp as [Hp0 Hp]. apply Forall_cons in Hv as [Hv0 Hv].
  assert (Hv1 : 0 <= v1) by (by apply Forall_cons in Hv as [? _]).
  cbn [pct_steps map combine List.filter fst snd].
  rewrite (pct_falls p0 p1 Hp0), (pct_rises v0 v1 Hv0 Hv1).
  cbn [falling_on_rising_volume].
  specialize (IH (v1 :: vt) Hp Hv). cbn [pct_steps] in IH.
  destruct (Qltb p1 p0 && Qltb v0 v1); cbn [length]; rewrite IH; reflexivity.
Qed.

Lemma tell_count_market_data (price vol : list Q) :
  Forall (fun x => 0 < x) price -> Forall (fun x => 0 <= x) vol ->
  price_down_volume_up price vol = falling_on_rising_volume price vol.
Proof.
  intros Hp Hv. unfold price_down_volume_up, count_pairs.
  rewrite !pct_change_steps.
  destruct price as [|p0 pt]; [reflexivity|].
  destruct vol as [|v0 vt]; [by destruct pt|].
  cbn [map combine List.filter fillna0 fst snd xlt0 xgt0].
  assert (E : Qltb 0 0 = false) by reflexivity. rewrite E. cbn [andb].
  by apply tell_steps.
Qed.

(** C9 (amended). On a frame of at least 10 rows that has the columns
    of the lows, the highs and the prices, the support is the mean of
    the 3 smallest lows and the resistance the mean of the 3 largest
    highs of the last 20 rows; and whenever the resistance is above the
    support, the position in range is below 0.3 and the accumulation
    tell count exceeds 5, the phase is Accumulation, with one Buy
    microsignal and confidence 0.7.  On market data (prices above 0,
    volumes not below 0) the tell count is the number of bars whose
    price is below and whose volume is above that of the bar before.
    When one of the three columns is missing the result is invalid. *)
Theorem accumulation_phase (cfg : profile_config) (df0 : frame) :
  let df := guarded cfg df0 KWyckoff in
  let r := analyze_wyckoff cfg df0 in
  (0 < len df)%nat -> wyckoff_enabled (cfg_wyckoff cfg) = true ->
  (10 <= len df)%nat ->
  (has_column df Minimo && has_column df Maximo && has_column df Ultimo = false ->
   r = invalid_result)
  /\ forall lows highs price : list Q,
      series df Minimo = Some lows -> series df Maximo = Some highs ->
      series df Ultimo = Some price ->
      let tells := match series df Volume with
                   | Some vol => price_down_volume_up price vol
                   | None => O
                   end in
      valid r = true
      /\ (exists mins rest : list Q,
            Permutation (last_n 20 lows) (mins ++ rest) /\ length mins = 3%nat
            /\ (forall x y : Q, x ∈ mins -> y ∈ rest -> x <= y)
            /\ support_level r = Some (Qsum mins / 3))
      /\ (exists maxs rest : list Q,
            Permutation (last_n 20 highs) (maxs ++ rest) /\ length maxs = 3%nat
            /\ (forall x y : Q, x ∈ maxs -> y ∈ rest -> y <= x)
            /\ resistance_level r = Some (Qsum maxs / 3))
      /\ support_level r = Some (support_of lows)
      /\ resistance_level r = Some (resistance_of highs)
      /\ (support_of lows < resistance_of highs ->
          (default 0 (last price) - support_of lows)
            / (resistance_of highs - support_of lows) < 0.3 ->
          (5 < tells)%nat ->
          phase r = Some Acumulacao
          /\ signals r = [mk_signal Compra "Acumulação próxima ao suporte" None]
          /\ confidence r == 0.7)
      /\ (forall vol : list Q, series df Volume = Some vol ->
          Forall (fun x => 0 < x) price -> Forall (fun x => 0 <= x) vol ->
          tells = falling_on_rising_volume price vol).
Proof.
  intros df r Hpos Hen H10.
  assert (Hlen : len df = len df0) by apply guarded_len.
  assert (Hr : r = caught
      (va ← volume_analysis df;
       lows ← series df Minimo; highs ← series df Maximo; price ← series df Ultimo;
       Some (wyckoff_levels va lows highs price fresh_result))).
  { unfold r, analyze_wyckoff. fold df. rewrite Hen.
    replace (len df0 =? 0)%nat with false by (symmetry; apply Nat.eqb_neq; lia).
    replace (10 <=? len df)%nat with true by (symmetry; apply Nat.leb_le; lia).
    reflexivity. }
  split.
  - intros Hmiss. rewrite Hr.
    destruct (volume_analysis df) as [va|]; simpl; [|reflexivity].
    unfold series.
    destruct (has_column df Minimo); simpl; [|reflexivity].
    destruct (has_column df Maximo); simpl; [|reflexivity].
    destruct (has_column df Ultimo); simpl; [discriminate|reflexivity].
  - intros lows highs price Hlo Hhi Hp tells.
    destruct (volume_analysis_tells df price Hp) as (va & Hva & Htd & _); [lia|].
    fold tells in Htd.
    assert (Hr' : r = wyckoff_levels va lows highs price fresh_result).
    { rewrite Hr, Hva, Hlo, Hhi, Hp. reflexivity. }
    assert (Hsup : support_level r = Some (support_of lows)).
    { rewrite Hr'. unfold wyckoff_levels. by repeat case_if. }
    assert (Hres : resistance_level r = Some (resistance_of highs)).
    { rewrite Hr'. unfold wyckoff_levels. by repeat case_if. }
    assert (Hl : (3 <= length (last_n 20 lows))%nat).
    { rewrite last_n_length, (series_len df Minimo lows Hlo). lia. }
    assert (Hh : (3 <= length (last_n 20 highs))%nat).
    { rewrite last_n_length, (series_len df Maximo highs Hhi). lia. }
    split; [|split; [|split; [|split; [exact Hsup|split; [exact Hres|split]]]]].
    + rewrite Hr'. unfold wyckoff_levels. by repeat case_if.
    + destruct (nsmallest_spec 3 (last_n 20 lows) Hl) as (rest & Hperm & Hn & Hle).
      exists (nsmallest 3 (last_n 20 lows)), rest. repeat split; try assumption.
      rewrite Hsup. unfold support_of. unfold Qlen. by rewrite Hn.
    + destruct (nlargest_spec 3 (last_n 20 highs) Hh) as (rest & Hperm & Hn & Hle).
      exists (nlargest 3 (last_n 20 highs)), rest. repeat split; try assumption.
      rewrite Hres. unfold resistance_of. unfold Qlen. by rewrite Hn.
    + intros Hrange Hposn Htell. rewrite <- iloc_back_last in Hposn.
      rewrite Hr'. unfold wyckoff_levels.
      assert (E1 : Qltb 0 (range_width lows highs) = true).
      { apply Qltb_lt. unfold range_width. lra. }
      assert (E2 : Qltb (position_in_range price lows highs) 0.3 = true)
        by (by apply Qltb_lt).
      assert (E3 : (5 <? tell_down_up va)%nat = true)
        by (rewrite Htd; by apply Nat.ltb_lt).
      rewrite E1, E2, E3. simpl. repeat split; reflexivity.
    + intros vol Hvol Hpp Hvv. unfold tells. rewrite Hvol.
      by apply tell_count_market_data.
Qed.

Lemma accumulation_phase_witness :
  phase (analyze_wyckoff agressivo selloff_frame) = Some Acumulacao
  /\ signals (analyze_wyckoff agressivo selloff_frame)
     = [mk_signal Compra "Acumulação próxima ao suporte" None]
  /\ confidence (analyze_wyckoff agressivo selloff_frame) == 0.7.
Proof.
  destruct (accumulation_phase agressivo selloff_frame) as [_ H].
  - vm_compute. lia.
  - reflexivity.
  - vm_compute. lia.
  - refine (proj1 (proj2 (proj2 (proj2 (proj2 (proj2
              (H _ _ _ eq_refl eq_refl eq_refl)))))) _ _ _).
    + vm_compute. reflexivity.
    + vm_compute. reflexivity.
    + vm_compute. lia.
Defined.

(** C9 fails as stated when the resistance is below the support: with
    highs read as 0 above lows of 20, the position in range is -0.05 and
    the tell count is 9, yet no phase is reported and no microsignal is
    emitted. *)
Lemma accumulation_phase_counterexample :
  let df := guarded agressivo no_highs_frame KWyckoff in
  match series df Minimo, series df Maximo, series df Ultimo, series df Volume with
  | Some lows, Some highs, Some price, Some vol =>
      (10 <= len df)%nat
      /\ (default 0 (last price) - support_of lows)
           / (resistance_of highs - support_of lows) < 0.3
      /\ (5 < falling_on_rising_volume price vol)%nat
      /\ valid (analyze_wyckoff agressivo no_highs_frame) = true
      /\ phase (analyze_wyckoff agressivo no_highs_frame) = None
      /\ signals (analyze_wyckoff agressivo no_highs_frame) = []
      /\ confidence (analyze_wyckoff agressivo no_highs_frame) == 0
  | _, _, _, _ => False
  end.
Proof. vm_compute. repeat split; try discriminate; lia. Qed.

(** ** Order-flow analysis *)

Lemma strength_sign saldo : 0 < last_saldo saldo -> 0 < aggression_strength saldo.
Proof.
  intros H. unfold aggression_strength.
  apply Qlt_shift_div_l.
  - eapply Qlt_le_trans; [|apply Q.le_max_l]. lra.
  - lra.
Qed.

Lemma strength_sign_neg saldo : last_saldo saldo <= 0 -> aggression_strength saldo <= 0.
Proof.
  intros H. unfold aggression_strength.
  assert (Hd : 0 < Qmax 1 (Qabs (last_saldo_ma20 saldo))).
  { eapply Qlt_le_trans; [|apply Q.le_max_l]. lra. }
  apply Qle_shift_div_r; [exact Hd|]. lra.
Qed.

Lemma tenth_nonneg (x : Q) : 0 <= x -> 0 <= x / 10.
Proof. intros H. apply Qle_shift_div_l; lra. Qed.

Lemma max_capped (c x cap : Q) :
  0 <= c <= 0.9 -> cap <= 0.9 -> 0 <= Qmax c (Qmin cap x) <= 0.9.
Proof.
  intros Hc Hcap. split.
  - eapply Qle_trans; [|apply Q.le_max_l]. lra.
  - apply Q.max_lub; [lra|]. eapply Qle_trans; [apply Q.le_min_l|lra].
Qed.

Lemma well_scored_aggression oc saldo r :
  well_scored r -> well_scored (aggression_stage oc saldo r).
Proof.
  intros Hr. unfold aggression_stage. repeat case_if; try exact Hr.
  - apply well_scored_emit; [exact Hr|].
    match goal with H : Qltb 0 (last_saldo saldo) = true |- _ =>
      apply Qltb_lt, strength_sign in H; pose proof (tenth_nonneg _ (Qlt_le_weak _ _ H)) end.
    split; [apply Q.min_glb; lra|apply Q.le_min_l].
  - apply well_scored_emit; [exact Hr|].
    pose proof (tenth_nonneg _ (Qabs_nonneg (aggression_strength saldo))).
    split; [apply Q.min_glb; lra|apply Q.le_min_l].
Qed.

Lemma well_scored_absorption oc p compra venda saldo r :
  well_scored r -> well_scored (absorption_stage oc p compra venda saldo r).
Proof.
  intros Hr. unfold absorption_stage. repeat case_if; try exact Hr;
    (apply well_scored_emit; [exact Hr|apply max_capped; [apply Hr|lra]]).
Qed.

Lemma well_scored_exhaustion p saldo r :
  well_scored r -> well_scored (exhaustion_stage p saldo r).
Proof.
  intros Hr. unfold exhaustion_stage. repeat case_if; try exact Hr;
    (apply well_scored_emit; [exact Hr|];
     rewrite <- (Q.min_id 0.75); apply max_capped; [apply Hr|lra]).
Qed.

Lemma extends_absorption oc p compra venda saldo r :
  extends r (absorption_stage oc p compra venda saldo r).
Proof.
  unfold absorption_stage. repeat case_if; try apply extends_refl;
    apply extends_emit, Q.le_max_l.
Qed.

Lemma extends_exhaustion p saldo r : extends r (exhaustion_stage p saldo r).
Proof.
  unfold exhaustion_stage. repeat case_if; try apply extends_refl;
    apply extends_emit, Q.le_max_l.
Qed.

(** A valid order-flow result: the aggression step on the balance
    column, then the later steps, each of which keeps what it finds. *)
Ltac run_body := cbn [mbind option_bind caught valid invalid_result].

Lemma order_flow_valid cfg df0 :
  let df := guarded cfg df0 KOrderFlow in
  valid (analyze_order_flow cfg df0) = true ->
  exists saldo r1,
    series df AgressaoSaldo = Some saldo
    /\ extends (aggression_stage (cfg_order_flow cfg) saldo fresh_result) r1
    /\ extends r1 (analyze_order_flow cfg df0)
    /\ well_scored (analyze_order_flow cfg df0).
Proof.
  intros df. unfold analyze_order_flow. fold df.
  destruct (len df0 =? 0)%nat; [discriminate|].
  destruct (negb (order_flow_enabled _)); [discriminate|].
  destruct (negb (forallb _ _)); [discriminate|].
  destruct (series df AgressaoSaldo) as [saldo|]; run_body; [|discriminate].
  set (r0 := aggression_stage (cfg_order_flow cfg) saldo fresh_result).
  assert (W0 : well_scored r0) by apply well_scored_aggression, well_scored_fresh.
  destruct (5 <=? len df)%nat.
  - destruct (series df Ultimo) as [p|]; run_body; [|discriminate].
    destruct (series df AgressaoCompra) as [compra|]; run_body; [|discriminate].
    destruct (series df AgressaoVenda) as [venda|]; run_body; [|discriminate].
    set (r1 := absorption_stage _ p compra venda saldo r0).
    assert (W1 : well_scored r1) by by apply well_scored_absorption.
    destruct (10 <=? len df)%nat; run_body; intros _; exists saldo, r1.
    + split; [done|]. split; [apply extends_absorption|].
      split; [apply extends_exhaustion|by apply well_scored_exhaustion].
    + split; [done|]. split; [apply extends_absorption|].
      split; [apply extends_refl|done].
  - run_body. destruct (10 <=? len df)%nat.
    + destruct (series df Ultimo) as [p|]; run_body; [|discriminate].
      intros _. exists saldo, r0. split; [done|]. split; [apply extends_refl|].
      split; [apply extends_exhaustion|by apply well_scored_exhaustion].
    + run_body. intros _. exists saldo, r0. split; [done|]. split; [apply extends_refl|].
      split; [apply extends_refl|done].
Qed.

Lemma well_scored_order_flow cfg df : well_scored (analyze_order_flow cfg df).
Proof.
  unfold analyze_order_flow.
  destruct (len df =? 0)%nat; [apply well_scored_invalid|].
  destruct (negb (order_flow_enabled _)); [apply well_scored_invalid|].
  destruct (negb (forallb _ _)); [apply well_scored_invalid|].
  apply well_scored_caught. intros r.
  destruct (series _ AgressaoSaldo) as [saldo|]; run_body; [|discriminate].
  pose proof (well_scored_aggression (cfg_order_flow cfg) saldo fresh_result
                well_scored_fresh) as W0.
  destruct (5 <=? _)%nat.
  - destruct (series _ Ultimo) as [p|]; run_body; [|discriminate].
    destruct (series _ AgressaoCompra) as [compra|]; run_body; [|discriminate].
    destruct (series _ AgressaoVenda) as [venda|]; run_body; [|discriminate].
    destruct (10 <=? _)%nat; run_body; intros [= <-].
    + by apply well_scored_exhaustion, well_scored_absorption.
    + by apply well_scored_absorption.
  - run_body. destruct (10 <=? _)%nat.
    + destruct (series _ Ultimo) as [p|]; run_body; [|discriminate].
      intros [= <-]. by apply well_scored_exhaustion.
    + intros [= <-]. apply W0.
Qed.

Lemma last_saldo_ma20_long saldo :
  (20 <= length saldo)%nat ->
  last_saldo_ma20 saldo = Qmean (last_n 20 saldo).
Proof.
  intros H. unfold last_saldo_ma20, rolling_mean_at, last_n.
  destruct (20 <=? length saldo)%nat eqn:E; [|apply Nat.leb_gt in E; lia].
  replace ((20 =? 0)%nat || (length saldo - 1 + 1 <? 20)%nat) with false.
  2:{ symmetry. apply orb_false_iff. split; [reflexivity|]. apply Nat.ltb_ge. lia. }
  replace (length saldo - 1 + 1 - 20)%nat with (length saldo - 20)%nat by lia.
  f_equal. apply firstn_all2. rewrite length_skipn. lia.
Qed.

Lemma last_saldo_ma20_short saldo :
  (length saldo < 20)%nat -> last_saldo_ma20 saldo = last_saldo saldo.
Proof.
  intros H. unfold last_saldo_ma20, last_saldo.
  destruct (20 <=? length saldo)%nat eqn:E; [apply Nat.leb_le in E; lia|reflexivity].
Qed.

(** C7 (amended). On a frame of at least 20 rows the aggression strength
    is the last balance over max(1, |mean of the last 20 balances|); on
    a shorter frame the last balance itself stands for the moving
    average.  When the strength exceeds the profile's threshold and the
    last balance is not zero the sub-analysis emits one microsignal,
    Buy for a positive last balance and Sell for a negative one, and
    sets the confidence to min(0.9, 0.5 + |strength| / 10); with a zero
    balance, or a strength that does not exceed the threshold, it emits
    nothing.  The module result, when valid, extends this one and its
    confidence stays at most 0.9. *)
Theorem aggression_signal (cfg : profile_config) (df0 : frame) (saldo : list Q) :
  let oc := cfg_order_flow cfg in
  let df := guarded cfg df0 KOrderFlow in
  let balance := default 0 (last saldo) in
  let s := aggression_strength saldo in
  let r := aggression_stage oc saldo fresh_result in
  series df AgressaoSaldo = Some saldo ->
  ((20 <= len df)%nat -> s == claimed_strength saldo)
  /\ ((len df < 20)%nat -> s == balance / Qmax 1 (Qabs balance))
  /\ (aggression_threshold oc < s -> 0 < balance ->
      signals r = [mk_signal Compra "Forte agressão compradora" (Some (Fin s))]
      /\ confidence r == Qmin 0.9 (0.5 + Qabs s / 10))
  /\ (aggression_threshold oc < s -> balance < 0 ->
      signals r = [mk_signal Venda "Forte agressão vendedora" (Some (Fin (- s)))]
      /\ confidence r == Qmin 0.9 (0.5 + Qabs s / 10))
  /\ (aggression_threshold oc < s -> balance == 0 -> r = fresh_result)
  /\ (s <= aggression_threshold oc -> r = fresh_result)
  /\ (valid (analyze_order_flow cfg df0) = true ->
      extends r (analyze_order_flow cfg df0)
      /\ confidence (analyze_order_flow cfg df0) <= 0.9).
Proof.
  intros oc df balance s r Hcol.
  assert (Hlen : length saldo = len df) by (by eapply series_len).
  assert (Hb : last_saldo saldo = balance) by apply iloc_back_last.
  split; [intros H|split; [intros H|split; [intros H H0|split;
    [intros H H0|split; [intros H H0|split; [intros H|intros H]]]]]].
  - unfold s, aggression_strength, claimed_strength. fold balance.
    rewrite last_saldo_ma20_long, Hb by lia. reflexivity.
  - unfold s, aggression_strength. rewrite last_saldo_ma20_short, Hb by lia.
    reflexivity.
  - rewrite <- Hb in H0. pose proof (strength_sign saldo H0) as Hs. fold s in Hs.
    unfold r, aggression_stage. fold s.
    apply Qltb_lt in H, H0. rewrite H, H0.
    split; [reflexivity|]. cbn [confidence emit].
    rewrite (Qabs_pos s) by lra. reflexivity.
  - rewrite <- Hb in H0. unfold r, aggression_stage. fold s.
    assert (Hn : Qltb 0 (last_saldo saldo) = false) by (apply Qltb_ge; lra).
    apply Qltb_lt in H, H0. rewrite H, Hn, H0. split; reflexivity.
  - rewrite <- Hb in H0. unfold r, aggression_stage. fold s.
    assert (Hn : Qltb 0 (last_saldo saldo) = false) by (apply Qltb_ge; lra).
    assert (Hm : Qltb (last_saldo saldo) 0 = false) by (apply Qltb_ge; lra).
    apply Qltb_lt in H. by rewrite H, Hn, Hm.
  - unfold r, aggression_stage. fold s.
    apply Qltb_ge in H. by rewrite H.
  - destruct (order_flow_valid cfg df0 H) as (saldo' & r1 & Hs' & E1 & E2 & W).
    fold df in Hs'. rewrite Hcol in Hs'. injection Hs' as <-.
    split; [by eapply extends_trans|apply W].
Qed.

Lemma aggression_signal_witness :
  (forall saldo, series (guarded agressivo surge_frame KOrderFlow) AgressaoSaldo
                 = Some saldo ->
     signals (aggression_stage (cfg_order_flow agressivo) saldo fresh_result)
     = [mk_signal Compra "Forte agressão compradora"
                  (Some (Fin (aggression_strength saldo)))])
  /\ (forall saldo, series (guarded contrarian dump_frame KOrderFlow) AgressaoSaldo
                    = Some saldo ->
     signals (aggression_stage (cfg_order_flow contrarian) saldo fresh_result)
     = [mk_signal Venda "Forte agressão vendedora"
                  (Some (Fin (- aggression_strength saldo)))]).
Proof.
  split; intros saldo Hs.
  - refine (proj1 (proj1 (proj2 (proj2 (aggression_signal agressivo surge_frame saldo Hs)))
                         _ _));
      vm_compute in Hs; injection Hs as <-; vm_compute; reflexivity.
  - refine (proj1 (proj1 (proj2 (proj2 (proj2
              (aggression_signal contrarian dump_frame saldo Hs)))) _ _));
      vm_compute in Hs; injection Hs as <-; vm_compute; reflexivity.
Defined.

(** C7 fails as stated on a frame of ten rows: the code's strength is
    9 / max(1, |9|) = 1, not the last balance over the mean of the
    balances at hand (5) nor over an undefined average read as 0 (9),
    and with a threshold of 0.5 the confidence is 0.6, not the value
    the claimed strength gives. *)
Lemma aggression_signal_counterexample :
  match series short_frame AgressaoSaldo with
  | Some saldo =>
      aggression_strength saldo == 1
      /\ claimed_strength saldo == 5
      /\ ~ aggression_strength saldo == claimed_strength saldo
      /\ ~ aggression_strength saldo == default 0 (last saldo) / Qmax 1 (Qabs 0)
      /\ confidence (aggression_stage eager_flow saldo fresh_result) == 0.6
      /\ ~ confidence (aggression_stage eager_flow saldo fresh_result)
           == Qmin 0.9 (0.5 + Qabs (claimed_strength saldo) / 10)
  | None => False
  end.
Proof. vm_compute. repeat split; discriminate. Qed.

(** X5. Under a threshold that is not negative the Sell branch of the
    aggression step is out of reach: a negative balance gives a
    negative strength, which does not exceed the threshold, so that a
    selling surge emits no aggression microsignal. *)
Lemma aggression_sell_unreachable (oc : order_flow_config) (saldo : list Q) :
  0 <= aggression_threshold oc -> default 0 (last saldo) <= 0 ->
  aggression_stage oc saldo fresh_result = fresh_result.
Proof.
  intros Hthr Hneg. rewrite <- iloc_back_last in Hneg.
  change (iloc_back saldo 1) with (last_saldo saldo) in Hneg.
  unfold aggression_stage.
  pose proof (strength_sign_neg saldo Hneg) as Hs.
  assert (E : Qltb (aggression_threshold oc) (aggression_strength saldo) = false)
    by (apply Qltb_ge; lra).
  by rewrite E.
Qed.

(** ** Momentum analysis *)

Lemma well_scored_cross mc p r : well_scored r -> well_scored (cross_stage mc p r).
Proof.
  intros Hr. unfold cross_stage.
  assert (0 <= Qabs (last_ma_diff_pct mc p) * 5).
  { pose proof (Qabs_nonneg (last_ma_diff_pct mc p)). nra. }
  repeat case_if; try exact Hr;
    (apply well_scored_emit; [exact Hr|];
     split; [apply Q.min_glb; lra|eapply Qle_trans; [apply Q.le_min_l|lra]]).
Qed.

Lemma well_scored_roc mc p r : well_scored r -> well_scored (roc_stage mc p r).
Proof.
  intros Hr. unfold roc_stage.
  destruct (last_roc_5 p); destruct (trend_of mc p); repeat case_if; try exact Hr;
    (apply well_scored_emit; [exact Hr|]);
    try (apply max_capped; [apply Hr|lra]);
    (rewrite <- (Q.min_id 0.8); apply max_capped; [apply Hr|lra]).
Qed.

Lemma well_scored_momentum cfg df : well_scored (analyze_momentum cfg df).
Proof.
  unfold analyze_momentum.
  destruct (len df =? 0)%nat; [apply well_scored_invalid|].
  destruct (negb (momentum_enabled _)); [apply well_scored_invalid|].
  case_if; [apply well_scored_invalid|].
  apply well_scored_caught. intros r.
  destruct (series _ Ultimo) as [p|]; cbn [mbind option_bind]; [|discriminate].
  intros [= <-]. apply well_scored_roc.
  case_if; [apply well_scored_cross|]; apply well_scored_fresh.
Qed.

Lemma cross_signals_emit_other s c r :
  is_cross s = false -> cross_signals (emit s c r) = cross_signals r.
Proof.
  intros H. unfold cross_signals. simpl.
  rewrite List.filter_app. simpl. rewrite H. apply app_nil_r.
Qed.

Lemma roc_stage_cross mc p r :
  cross_signals (roc_stage mc p r) = cross_signals r.
Proof.
  unfold roc_stage.
  destruct (last_roc_5 p); destruct (trend_of mc p); repeat case_if;
    try reflexivity; by apply cross_signals_emit_other.
Qed.

Lemma extends_roc mc p r : extends r (roc_stage mc p r).
Proof.
  unfold roc_stage.
  destruct (last_roc_5 p); destruct (trend_of mc p); repeat case_if;
    try apply extends_refl; apply extends_emit, Q.le_max_l.
Qed.

Lemma roc_stage_cap mc p r :
  confidence r <= 0.85 -> confidence (roc_stage mc p r) <= 0.85.
Proof.
  intros H. unfold roc_stage.
  destruct (last_roc_5 p); destruct (trend_of mc p); repeat case_if;
    try exact H; cbn [confidence emit];
    (apply Q.max_lub; [exact H|]);
    try lra; (eapply Qle_trans; [apply Q.le_min_l|lra]).
Qed.

(** The averages at the current and at the previous tick. *)

Lemma last_n_all_firstn (w : nat) (l : list Q) :
  (w <= length l)%nat -> firstn w (skipn (length l - w) l) = last_n w l.
Proof.
  intros H. unfold last_n. apply firstn_all2. rewrite length_skipn. lia.
Qed.

Lemma last_n_removelast (w : nat) (l : list Q) :
  (w < length l)%nat ->
  firstn w (skipn (length l - 1 - w) l) = last_n w (removelast l).
Proof.
  intros H. unfold last_n.
  rewrite removelast_firstn_len, length_firstn, skipn_firstn_comm.
  replace (Nat.min (Nat.pred (length l)) (length l)) with (length l - 1)%nat by lia.
  f_equal. lia.
Qed.

Lemma ma_at_last (w : nat) (p : list Q) :
  (1 <= length p)%nat -> ma_at w p (length p - 1) = average_at w p.
Proof.
  intros Hp. unfold ma_at, rolling_mean_at, average_at, window_mean.
  destruct w as [|w]; [reflexivity|].
  change (S w =? 0)%nat with false. change (1 <=? S w)%nat with true.
  cbn [orb andb].
  replace (length p - 1 + 1)%nat with (length p) by lia.
  destruct (length p <? S w)%nat eqn:E.
  - apply Nat.ltb_lt in E.
    replace (S w <=? length p)%nat with false by (symmetry; apply Nat.leb_gt; lia).
    reflexivity.
  - apply Nat.ltb_ge in E.
    replace (S w <=? length p)%nat with true by (symmetry; apply Nat.leb_le; lia).
    by rewrite last_n_all_firstn.
Qed.

Lemma iloc_back_removelast (p : list Q) :
  (2 <= length p)%nat -> iloc_back (removelast p) 1 = iloc_back p 2.
Proof.
  intros Hp. unfold iloc_back.
  rewrite removelast_firstn_len, length_firstn.
  replace (Nat.min (Nat.pred (length p)) (length p) - 1)%nat with (length p - 2)%nat by lia.
  rewrite nth_firstn.
  replace (length p - 2 <? Nat.pred (length p))%nat with true
    by (symmetry; apply Nat.ltb_lt; lia).
  reflexivity.
Qed.

Lemma ma_at_prev (w : nat) (p : list Q) :
  (2 <= length p)%nat -> ma_at w p (length p - 2) = average_at w (removelast p).
Proof.
  intros Hp. unfold ma_at, rolling_mean_at, average_at, window_mean.
  assert (Hl : length (removelast p) = (length p - 1)%nat).
  { rewrite removelast_firstn_len, length_firstn. lia. }
  rewrite Hl, iloc_back_removelast by lia.
  destruct w as [|w]; [reflexivity|].
  change (S w =? 0)%nat with false. change (1 <=? S w)%nat with true.
  cbn [orb andb].
  replace (length p - 2 + 1)%nat with (length p - 1)%nat by lia.
  destruct (length p - 1 <? S w)%nat eqn:E.
  - apply Nat.ltb_lt in E.
    replace (S w <=? length p - 1)%nat with false by (symmetry; apply Nat.leb_gt; lia).
    reflexivity.
  - apply Nat.ltb_ge in E.
    replace (S w <=? length p - 1)%nat with true by (symmetry; apply Nat.leb_le; lia).
    by rewrite last_n_removelast by lia.
Qed.

(** C8 (amended). With fewer than [slow_period] rows, or without a
    price column, the momentum result is invalid.  Otherwise, on a
    frame of at least 3 rows, the result is valid and it holds a
    golden-cross Buy exactly when the difference of the averages goes
    from <= 0 at the previous tick to > 0 at the current one, a
    death-cross Sell exactly when it goes from >= 0 to < 0, and no
    cross microsignal in any other case; the cross sets the confidence
    to min(0.85, 0.6 + |diff_pct| * 5), and the module's confidence
    lies between that and 0.85.  The difference at a tick is that of
    the means of the fast and the slow window of prices up to the tick,
    the price at the tick standing for the mean of a window that is not
    full: on a frame of exactly [slow_period] rows, for the slow
    average at the previous tick; [diff_pct] is the current difference
    over the current slow average (over 1 when that is 0). *)
Theorem momentum_cross (cfg : profile_config) (df0 : frame) :
  let mc := cfg_momentum cfg in
  let df := guarded cfg df0 KMomentum in
  let r := analyze_momentum cfg df0 in
  ((len df < slow_period mc)%nat -> valid r = false)
  /\ (has_column df Ultimo = false -> valid r = false)
  /\ forall p : list Q, series df Ultimo = Some p ->
     let prev := prev_ma_diff mc p in
     let cur := last_ma_diff mc p in
     let pctv := last_ma_diff_pct mc p in
     let c := Qmin 0.85 (0.6 + Qabs pctv * 5) in
     (0 < len df)%nat -> momentum_enabled mc = true ->
     (slow_period mc <= len df)%nat -> (3 <= len df)%nat ->
     valid r = true
     /\ cur == average_diff mc p
     /\ prev == average_diff mc (removelast p)
     /\ pctv == cur / (if Qeq_bool (average_at (slow_period mc) p) 0 then 1
                       else average_at (slow_period mc) p)
     /\ ((1 <= fast_period mc < len df)%nat -> slow_period mc = len df ->
         prev == window_mean (fast_period mc) (removelast p) - iloc_back p 2)
     /\ (prev <= 0 /\ 0 < cur ->
         cross_signals r = [mk_signal Compra golden_cross (Some (Fin (Qabs pctv * 10)))]
         /\ confidence (cross_stage mc p fresh_result) == c
         /\ c <= confidence r <= 0.85)
     /\ (0 <= prev /\ cur < 0 ->
         cross_signals r = [mk_signal Venda death_cross (Some (Fin (Qabs pctv * 10)))]
         /\ confidence (cross_stage mc p fresh_result) == c
         /\ c <= confidence r <= 0.85)
     /\ (~ (prev <= 0 /\ 0 < cur) -> ~ (0 <= prev /\ cur < 0) ->
         cross_signals r = []).
Proof.
  intros mc df r.
  assert (Hlen : len df = len df0) by apply guarded_len.
  split; [|split].
  - intros H. unfold r, analyze_momentum. fold mc df.
    apply Nat.ltb_lt in H. rewrite H. by repeat case_if.
  - intros H. unfold r, analyze_momentum. fold mc df.
    rewrite (series_missing df Ultimo H).
    destruct (len df0 =? 0)%nat; [done|]. destruct (negb _); [done|].
    by destruct (len df <? slow_period mc)%nat.
  - intros p Hp prev cur pctv c Hpos Hen Hslow H3.
    assert (Hl : length p = len df) by (by eapply series_len).
    assert (Hr : r = roc_stage mc p (cross_stage mc p fresh_result)).
    { unfold r, analyze_momentum. fold mc df. rewrite Hen, Hp.
      replace (len df0 =? 0)%nat with false by (symmetry; apply Nat.eqb_neq; lia).
      replace (len df <? slow_period mc)%nat with false
        by (symmetry; apply Nat.ltb_ge; lia).
      replace (3 <=? len df)%nat with true by (symmetry; apply Nat.leb_le; lia).
      reflexivity. }
    assert (Hc : 0.6 <= c <= 0.85).
    { unfold c. pose proof (Qabs_nonneg pctv).
      split; [apply Q.min_glb; nra|apply Q.le_min_l]. }
    split.
    { rewrite Hr. unfold roc_stage, cross_stage.
      destruct (last_roc_5 p); destruct (trend_of mc p); by repeat case_if. }
    assert (Hcur : cur = average_diff mc p).
    { unfold cur, last_ma_diff, ma_diff_at, average_diff.
      by rewrite !ma_at_last by lia. }
    assert (Hprev : prev = average_diff mc (removelast p)).
    { unfold prev, prev_ma_diff, ma_diff_at, average_diff.
      by rewrite !ma_at_prev by lia. }
    split; [by rewrite Hcur|]. split; [by rewrite Hprev|].
    split.
    { unfold pctv, last_ma_diff_pct, ma_diff_pct_at, cur, last_ma_diff.
      by rewrite (ma_at_last (slow_period mc)) by lia. }
    split.
    { intros Hf Hs. rewrite Hprev. unfold average_diff, average_at.
      assert (Hrl : length (removelast p) = (len df - 1)%nat).
      { rewrite removelast_firstn_len, length_firstn. lia. }
      rewrite Hrl, iloc_back_removelast by lia.
      replace (1 <=? fast_period mc)%nat with true by (symmetry; apply Nat.leb_le; lia).
      replace (fast_period mc <=? len df - 1)%nat with true
        by (symmetry; apply Nat.leb_le; lia).
      replace (slow_period mc <=? len df - 1)%nat with false
        by (symmetry; apply Nat.leb_gt; lia).
      rewrite andb_false_r. reflexivity. }
    rewrite Hr, roc_stage_cross.
    pose proof (extends_roc mc p (cross_stage mc p fresh_result)) as [_ Hup].
    pose proof (roc_stage_cap mc p (cross_stage mc p fresh_result)) as Hcap.
    unfold cross_stage in Hup, Hcap |- *. fold prev cur pctv in Hup, Hcap |- *.
    fold c in Hup, Hcap |- *.
    split; [|split].
    + intros [Hpv Hcu]. apply Qleb_le in Hpv. apply Qltb_lt in Hcu.
      rewrite Hpv, Hcu in Hup, Hcap |- *. simpl andb in Hup, Hcap |- *.
      cbn iota in Hup, Hcap |- *.
      split; [reflexivity|]. split; [reflexivity|].
      cbn [confidence emit] in Hup, Hcap |- *. split; [exact Hup|apply Hcap; lra].
    + intros [Hpv Hcu].
      assert (Hg : Qltb 0 cur = false) by (apply Qltb_ge; lra).
      apply Qleb_le in Hpv. apply Qltb_lt in Hcu.
      rewrite Hg, Hpv, Hcu in Hup, Hcap |- *. rewrite andb_false_r in Hup, Hcap |- *.
      simpl andb in Hup, Hcap |- *. cbn iota in Hup, Hcap |- *.
      split; [reflexivity|]. split; [reflexivity|].
      cbn [confidence emit] in Hup, Hcap |- *. split; [exact Hup|apply Hcap; lra].
    + intros Hng Hnd.
      destruct (Qleb prev 0 && Qltb 0 cur) eqn:Eg.
      { exfalso. apply Hng. apply andb_true_iff in Eg as [A B].
        split; [by apply Qleb_le|by apply Qltb_lt]. }
      destruct (Qleb 0 prev && Qltb cur 0) eqn:Ed.
      { exfalso. apply Hnd. apply andb_true_iff in Ed as [A B].
        split; [by apply Qleb_le|by apply Qltb_lt]. }
      reflexivity.
Qed.

Lemma momentum_cross_witness :
  (forall p, series (guarded agressivo rally_frame KMomentum) Ultimo = Some p ->
     average_diff (cfg_momentum agressivo) (removelast p) <= 0
     /\ 0 < average_diff (cfg_momentum agressivo) p
     /\ cross_signals (analyze_momentum agressivo rally_frame)
        = [mk_signal Compra golden_cross
             (Some (Fin (Qabs (last_ma_diff_pct (cfg_momentum agressivo) p) * 10)))])
  /\ valid (analyze_momentum agressivo priceless_frame) = false.
Proof.
  split.
  - intros p Hp.
    destruct (proj2 (proj2 (momentum_cross agressivo rally_frame)) p Hp)
      as (_ & Hcur & Hprev & _ & _ & Hgold & _).
    + vm_compute. lia.
    + reflexivity.
    + vm_compute. lia.
    + vm_compute. lia.
    + rewrite <- Hcur, <- Hprev.
      assert (Hx : prev_ma_diff (cfg_momentum agressivo) p <= 0
                   /\ 0 < last_ma_diff (cfg_momentum agressivo) p).
      { vm_compute in Hp. injection Hp as <-. vm_compute.
        split; [discriminate|reflexivity]. }
      split; [apply Hx|]. split; [apply Hx|]. apply (proj1 (Hgold Hx)).
  - apply (proj1 (proj2 (momentum_cross agressivo priceless_frame))).
    reflexivity.
Defined.

(** C8 fails as stated: twenty bars at 10 followed by one at 9 give a
    difference of 0 at the previous tick and a negative one now; a
    death-cross Sell is emitted although the difference did not change
    from > 0. *)
Lemma momentum_cross_counterexample :
  let mc := cfg_momentum agressivo in
  match series stall_frame Ultimo with
  | Some p =>
      cross_signals (analyze_momentum agressivo stall_frame)
      = [mk_signal Venda death_cross (Some (Fin (Qabs (last_ma_diff_pct mc p) * 10)))]
      /\ average_diff mc (removelast p) == 0
      /\ average_diff mc p < 0
      /\ prev_ma_diff mc p == 0
      /\ last_ma_diff mc p < 0
      /\ ~ (0 < prev_ma_diff mc p /\ last_ma_diff mc p <= 0)
  | None => False
  end.
Proof.
  vm_compute. repeat split; try discriminate. intros [H _]. discriminate H.
Qed.

(** On a frame of exactly [slow_period] rows the previous tick has no
    slow average: twenty bars rising from 1 to 20 give a golden-cross
    Buy, the fast average at the previous tick (17) being below the
    previous price (19), although it is above the mean of the nineteen
    prices up to that tick (10). *)
Lemma cross_at_slow_period :
  let mc := cfg_momentum agressivo in
  match series rising_frame Ultimo with
  | Some p =>
      cross_signals (analyze_momentum agressivo rising_frame)
      = [mk_signal Compra golden_cross (Some (Fin (Qabs (last_ma_diff_pct mc p) * 10)))]
      /\ average_diff mc (removelast p) == -2
      /\ window_mean (fast_period mc) (removelast p) == 17
      /\ iloc_back p 2 == 19
      /\ Qmean (removelast p) == 10
  | None => False
  end.
Proof. vm_compute. repeat split; discriminate. Qed.

(** ** Decision engine: confidence *)

(** What an evaluation of the decision engine can return. *)
Lemma generate_cases st now latest asset profile cfg res :
  let key := signal_key asset profile in
  let '(o, st') := generate_trading_signal st now latest asset profile cfg res in
  match o with
  | None => st' = st
  | Some d =>
      st' = stamp st key now
      /\ rate_limited (last_signal_time st) key now (signal_interval cfg) = false
      /\ filtered_signals res <> []
      /\ ts_asset d = asset /\ strategy_profile d = profile
      /\ ts_timestamp d = now
      /\ ts_type d = signal_type res
      /\ ts_confidence d = aggregate_confidence res
      /\ Qltb (aggregate_confidence res) (min_confidence (cfg_signals cfg)) = false
      /\ Qltb (risk_reward_ratio d) (risk_reward_min (cfg_signals cfg)) = false
      /\ risk_reward_ratio d = ratio_of (entry_price d) (stop_loss d) (take_profit d)
  end.
Proof.
  intros key. unfold generate_trading_signal. fold key.
  destruct (negb (asset_enabled cfg asset)); [reflexivity|].
  destruct (rate_limited _ _ _ _) eqn:Hrl; [reflexivity|].
  destruct (all_signals res) as [|s0 l0]; [reflexivity|].
  destruct (filtered_signals res) as [|f0 fl] eqn:Hf; [reflexivity|].
  destruct (Qltb (aggregate_confidence res) _) eqn:Hc; [reflexivity|].
  destruct (confirmation_required _ && _); [reflexivity|].
  destruct (price_and_levels st latest asset res) as [[[p sup] rst]|]; [|reflexivity].
  destruct (Qltb (ratio_of _ _ _) _) eqn:Hr; [reflexivity|].
  simpl. repeat split; try reflexivity; try assumption. discriminate.
Qed.

Lemma max_if_valid_spec (c : Q) (r : analysis_result) :
  c <= max_if_valid c r
  /\ (valid r = true -> confidence r <= max_if_valid c r)
  /\ (max_if_valid c r == c
      \/ (valid r = true /\ max_if_valid c r == confidence r)).
Proof.
  unfold max_if_valid. destruct (valid r).
  - destruct (Q.max_spec c (confidence r)) as [[Hlt He]|[Hle He]]; rewrite He.
    + split; [lra|]. split; [intros _; lra|]. right. split; reflexivity.
    + split; [lra|]. split; [intros _; lra|]. left. reflexivity.
  - split; [lra|]. split; [discriminate|]. left. reflexivity.
Qed.

Lemma Qsum_from (l : list Q) : forall a : Q, fold_left Qplus l a == a + Qsum l.
Proof.
  unfold Qsum. induction l as [|x l IH]; intros a; simpl; [lra|].
  rewrite (IH (a + x)), (IH (0 + x)). lra.
Qed.

Lemma Qsum_cons (x : Q) (l : list Q) : Qsum (x :: l) == x + Qsum l.
Proof. unfold Qsum at 1. simpl. rewrite Qsum_from. lra. Qed.

(** The decision engine's counts and mean are those of the
    specification. *)

Lemma tally_filter (d : direction) (l : list microsignal) :
  tally d l = length (List.filter (has_type d) l).
Proof.
  induction l as [|s l IH]; [reflexivity|]. simpl. unfold has_type at 1.
  destruct (sig_type s) as [d'|].
  - destruct (decide (d' = d)) as [->|Hn].
    + rewrite bool_decide_eq_true_2 by done. simpl. by rewrite IH.
    + rewrite bool_decide_eq_false_2 by congruence. exact IH.
  - rewrite bool_decide_eq_false_2 by done. exact IH.
Qed.

Lemma total_confidence_filter (d : direction) (l : list microsignal) :
  total_confidence d l == Qsum (map confidence_of (List.filter (has_type d) l)).
Proof.
  induction l as [|s l IH]; [reflexivity|]. simpl. unfold has_type at 1.
  destruct (sig_type s) as [d'|].
  - destruct (decide (d' = d)) as [->|Hn].
    + rewrite bool_decide_eq_true_2 by done. simpl. rewrite Qsum_cons.
      unfold confidence_of at 1.
      destruct (sig_confidence s) as [c|]; rewrite IH; lra.
    + rewrite bool_decide_eq_false_2 by congruence.
      destruct (sig_confidence s); exact IH.
  - rewrite bool_decide_eq_false_2 by done. destruct (sig_confidence s); exact IH.
Qed.

Lemma majority_signal_type (res : analysis_results) (d : direction) :
  majority (all_signals res) = Some d ->
  signal_type res = d /\ (0 < tally d (all_signals res))%nat.
Proof.
  unfold majority, signal_type. rewrite <- !tally_filter.
  destruct (Nat.compare_spec (tally Compra (all_signals res))
                             (tally Venda (all_signals res))) as [He|Hlt|Hgt];
    [discriminate| |]; intros [= <-].
  - replace (_ <? _)%nat with false by (symmetry; apply Nat.ltb_ge; lia).
    split; [reflexivity|lia].
  - replace (_ <? _)%nat with true by (symmetry; apply Nat.ltb_lt; lia).
    split; [reflexivity|lia].
Qed.

Lemma mean_confidence_majority (res : analysis_results) (d : direction) :
  signal_type res = d ->
  mean_confidence (filtered_signals res) == mean_of d (all_signals res).
Proof.
  intros Hd. unfold mean_confidence, mean_of, filtered_signals. rewrite Hd.
  rewrite <- tally_filter, <- total_confidence_filter. reflexivity.
Qed.

(** C5. For microsignals with a majority direction, the aggregated
    confidence is the maximum of the mean confidence of the microsignals
    of that direction (a microsignal without a confidence counts 0) and
    of the confidences of the valid module results: it is at least each
    of them and equal to one of them.  The majority direction is the
    direction of the decision and the aggregated confidence the
    confidence it carries. *)
Theorem aggregated_confidence_is_max (res : analysis_results) (d : direction) :
  let ms := signals (res_wyckoff res) ++ signals (res_order_flow res)
            ++ signals (res_momentum res) in
  let m := mean_of d ms in
  let c := aggregate_confidence res in
  majority ms = Some d ->
  m <= c
  /\ (forall r, r ∈ [res_wyckoff res; res_order_flow res; res_momentum res] ->
        valid r = true -> confidence r <= c)
  /\ (c == m
      \/ exists r, r ∈ [res_wyckoff res; res_order_flow res; res_momentum res]
                   /\ valid r = true /\ c == confidence r)
  /\ forall st now latest asset profile cfg t st',
       generate_trading_signal st now latest asset profile cfg res = (Some t, st') ->
       ts_type t = d /\ ts_confidence t = c.
Proof.
  intros ms m c Hmaj.
  destruct (majority_signal_type res d Hmaj) as [Hd _].
  assert (Hm : mean_confidence (filtered_signals res) == m)
    by (by apply mean_confidence_majority).
  unfold c, aggregate_confidence.
  set (m0 := mean_confidence (filtered_signals res)) in *.
  set (c1 := max_if_valid m0 (res_wyckoff res)).
  set (c2 := max_if_valid c1 (res_order_flow res)).
  destruct (max_if_valid_spec m0 (res_wyckoff res)) as (A1 & B1 & C1).
  destruct (max_if_valid_spec c1 (res_order_flow res)) as (A2 & B2 & C2).
  destruct (max_if_valid_spec c2 (res_momentum res)) as (A3 & B3 & C3).
  fold c1 in A1, B1, C1. fold c2 in A2, B2, C2.
  split; [lra|]. split; [|split].
  - intros r Hr Hv.
    apply elem_of_cons in Hr as [->|Hr]; [specialize (B1 Hv); lra|].
    apply elem_of_cons in Hr as [->|Hr]; [specialize (B2 Hv); lra|].
    apply elem_of_cons in Hr as [->|Hr]; [specialize (B3 Hv); lra|].
    by apply elem_of_nil in Hr.
  - destruct C3 as [E3|[V3 E3]].
    2:{ right. exists (res_momentum res).
        split; [repeat constructor|]. split; [exact V3|exact E3]. }
    destruct C2 as [E2|[V2 E2]].
    2:{ right. exists (res_order_flow res).
        split; [repeat constructor|]. split; [exact V2|]. lra. }
    destruct C1 as [E1|[V1 E1]].
    2:{ right. exists (res_wyckoff res).
        split; [repeat constructor|]. split; [exact V1|]. lra. }
    left. lra.
  - intros st now latest asset profile cfg t st' H.
    pose proof (generate_cases st now latest asset profile cfg res) as G.
    rewrite H in G. simpl in G.
    destruct G as (_ & _ & _ & _ & _ & _ & Ht & Hc & _).
    split; [by rewrite Ht|exact Hc].
Qed.

Lemma aggregated_confidence_is_max_witness :
  0.6 <= aggregate_confidence scored_results
  /\ (aggregate_confidence scored_results == 0.6
      \/ exists r, r ∈ [res_wyckoff scored_results; res_order_flow scored_results;
                        res_momentum scored_results]
                   /\ valid r = true
                   /\ aggregate_confidence scored_results == confidence r).
Proof.
  destruct (aggregated_confidence_is_max scored_results Compra eq_refl)
    as (H1 & _ & H3 & _).
  split.
  - eapply Qle_trans; [|exact H1]. vm_compute. discriminate.
  - destruct H3 as [H3|H3]; [left|right; exact H3].
    rewrite H3. vm_compute. reflexivity.
Defined.

(** ** Decision engine: invariants of an emitted decision *)

Lemma mean_without_confidence (l : list microsignal) :
  Forall (fun s => sig_confidence s = None) l -> mean_confidence l == 0.
Proof.
  intros H. unfold mean_confidence.
  assert (Hs : Qsum (map confidence_of l) == 0).
  { induction H as [|s l Hs _ IH]; [reflexivity|].
    simpl. rewrite Qsum_cons, IH. unfold confidence_of. rewrite Hs. lra. }
  rewrite Hs. unfold Qdiv. lra.
Qed.

Lemma Forall_filter_bool {A} (P : A -> Prop) (f : A -> bool) (l : list A) :
  Forall P l -> Forall P (List.filter f l).
Proof.
  induction 1 as [|x l Hx _ IH]; simpl; [constructor|].
  destruct (f x); [by constructor|exact IH].
Qed.

Lemma max_if_valid_bounds (c : Q) (r : analysis_result) :
  0 <= c <= 0.9 -> well_scored r -> 0 <= max_if_valid c r <= 0.9.
Proof.
  intros Hc [Hr _]. unfold max_if_valid. destruct (valid r); [|exact Hc].
  split; [eapply Qle_trans; [|apply Q.le_max_l]; lra|apply Q.max_lub; lra].
Qed.

(** In the pipeline the mean over the microsignals is 0, and the
    aggregated confidence lies between 0 and 0.9. *)
Lemma pipeline_confidence (cfg : profile_config) (df : frame) :
  mean_confidence (filtered_signals (run_analyses cfg df)) == 0
  /\ 0 <= aggregate_confidence (run_analyses cfg df) <= 0.9.
Proof.
  pose proof (well_scored_wyckoff cfg df) as Hw.
  pose proof (well_scored_order_flow cfg df) as Ho.
  pose proof (well_scored_momentum cfg df) as Hm.
  assert (Hmean : mean_confidence (filtered_signals (run_analyses cfg df)) == 0).
  { apply mean_without_confidence. unfold filtered_signals, all_signals.
    apply Forall_filter_bool. simpl.
    apply Forall_app. split; [apply Hw|]. apply Forall_app. split; [apply Ho|apply Hm]. }
  split; [exact Hmean|].
  unfold aggregate_confidence. simpl.
  repeat apply max_if_valid_bounds; try assumption.
  rewrite Hmean. lra.
Qed.

Lemma ratio_of_spec (entry stop target : Q) :
  let risk := Qabs (entry - stop) in
  let reward := Qabs (target - entry) in
  (0 < risk -> ratio_of entry stop target == reward / risk)
  /\ (risk == 0 -> ratio_of entry stop target == 0)
  /\ 0 <= ratio_of entry stop target.
Proof.
  intros risk reward. unfold ratio_of. fold risk reward.
  pose proof (Qabs_nonneg (entry - stop)) as Hr. fold risk in Hr.
  pose proof (Qabs_nonneg (target - entry)) as Hw. fold reward in Hw.
  destruct (Qltb 0 risk) eqn:E.
  - apply Qltb_lt in E. split; [reflexivity|]. split; [intros H0; lra|].
    apply Qle_shift_div_l; lra.
  - apply Qltb_ge in E. split; [intros H0; lra|]. split; [reflexivity|lra].
Qed.

(** C4 (amended). Every decision emitted by an evaluation has a
    risk/reward ratio of at least the profile's minimum; the ratio is
    |target - entry| / |entry - stop| whenever entry and stop differ and
    is 0 when they coincide, which can only be emitted under a minimum
    that is not positive; and its confidence lies in [0, 1]. *)
Theorem emitted_decision_invariants (st : analyzer_state) (now : Q)
    (df : option frame) (latest : option Q) (asset profile : string)
    (cfg : profile_config) (d : trading_signal) (st' : analyzer_state) :
  analyze_asset_with_profile st now df latest asset profile cfg = (Some d, st') ->
  let risk := Qabs (entry_price d - stop_loss d) in
  let reward := Qabs (take_profit d - entry_price d) in
  risk_reward_min (cfg_signals cfg) <= risk_reward_ratio d
  /\ (0 < risk -> risk_reward_ratio d == reward / risk)
  /\ (risk == 0 -> risk_reward_ratio d == 0)
  /\ (0 < risk_reward_min (cfg_signals cfg) -> 0 < risk)
  /\ 0 <= ts_confidence d <= 1.
Proof.
  unfold analyze_asset_with_profile.
  destruct (negb (profile_enabled cfg profile)); [discriminate|].
  destruct df as [df|]; [|discriminate].
  destruct (len df =? 0)%nat; [discriminate|].
  destruct (len df <? min_data_points cfg)%nat; [discriminate|].
  destruct (series df Ultimo) as [p|]; [|discriminate].
  intros H.
  match type of H with generate_trading_signal ?s ?n ?l ?a ?p ?c ?r = _ =>
    pose proof (generate_cases s n l a p c r) as G end.
  rewrite H in G. simpl in G.
  destruct G as (_ & _ & _ & _ & _ & _ & _ & Hc & _ & Hmin & Hrr).
  apply Qltb_ge in Hmin.
  destruct (ratio_of_spec (entry_price d) (stop_loss d) (take_profit d))
    as (Hpos & Hzero & Hnn).
  cbv zeta. set (risk := Qabs (entry_price d - stop_loss d)) in *.
  set (reward := Qabs (take_profit d - entry_price d)) in *.
  rewrite Hrr. repeat split.
  - rewrite <- Hrr. exact Hmin.
  - exact Hpos.
  - exact Hzero.
  - intros Hp. rewrite Hrr in Hmin.
    destruct (Qlt_le_dec 0 risk) as [Hlt|Hle]; [exact Hlt|].
    assert (Hz : risk == 0).
    { pose proof (Qabs_nonneg (entry_price d - stop_loss d)). unfold risk in *. lra. }
    specialize (Hzero Hz). lra.
  - rewrite Hc. apply (pipeline_confidence cfg df).
  - rewrite Hc. pose proof (pipeline_confidence cfg df) as [_ [_ Hle]]. lra.
Qed.

Lemma emitted_decision_invariants_witness :
  match fst (evaluate analyzer_init (flat_eval 0)) with
  | Some d => 1.2 <= risk_reward_ratio d /\ 0 <= ts_confidence d <= 1
  | None => False
  end.
Proof.
  destruct (evaluate analyzer_init (flat_eval 0)) as [[d|] st'] eqn:E;
    [|vm_compute in E; discriminate E].
  simpl.
  destruct (emitted_decision_invariants _ _ _ _ _ _ _ _ _ E) as (H1 & _ & _ & _ & H2).
  split; [exact H1|exact H2].
Defined.

(** C4 fails as stated: under a profile whose minimum risk/reward is 0,
    ten flat bars at the top of their range give a sale whose stop
    equals its entry; its ratio is recorded as 0 while the target is 5
    away, so the ratio is not |target - entry| / |entry - stop|. *)
Lemma emitted_decision_counterexample :
  match fst (evaluate analyzer_init flat_top_eval) with
  | Some d =>
      entry_price d == stop_loss d
      /\ risk_reward_ratio d == 0
      /\ Qabs (take_profit d - entry_price d) == 5
      /\ ~ is_ratio (risk_reward_ratio d)
                    (Qabs (take_profit d - entry_price d))
                    (Qabs (entry_price d - stop_loss d))
      /\ ~ risk_reward_ratio d * Qabs (entry_price d - stop_loss d)
           == Qabs (take_profit d - entry_price d)
  | None => False
  end.
Proof.
  vm_compute. repeat split; try discriminate.
  intros [H _]. apply H. reflexivity.
Qed.

(** ** Decision engine: rate limit *)

Lemma evaluate_cases (st : analyzer_state) (ev : evaluation) :
  let key := signal_key (ev_asset ev) (ev_profile ev) in
  let '(o, st') := evaluate st ev in
  match o with
  | None => last_signal_time st' = last_signal_time st
  | Some d =>
      last_signal_time st' = <[key := ev_now ev]> (last_signal_time st)
      /\ rate_limited (last_signal_time st) key (ev_now ev)
                      (signal_interval (ev_cfg ev)) = false
      /\ ts_asset d = ev_asset ev /\ strategy_profile d = ev_profile ev
      /\ ts_timestamp d = ev_now ev
  end.
Proof.
  intros key. unfold evaluate, analyze_asset_with_profile.
  destruct (negb (profile_enabled _ _)); [reflexivity|].
  destruct (ev_df ev) as [df|]; [|reflexivity].
  destruct (len df =? 0)%nat; [reflexivity|].
  destruct (len df <? _)%nat; [reflexivity|].
  destruct (series df Ultimo) as [p|]; [|reflexivity].
  match goal with |- context [generate_trading_signal ?s ?n ?l ?a ?p ?c ?r] =>
    pose proof (generate_cases s n l a p c r) as G;
    destruct (generate_trading_signal s n l a p c r) as [[d|] st'] end.
  - simpl in G. destruct G as (-> & Hrl & _ & Ha & Hp & Ht & _).
    simpl. fold key. repeat split; assumption.
  - simpl in G. subst st'. reflexivity.
Qed.

Lemma clock_from_weaken (evs : list evaluation) : forall lo lo' : Q,
  lo' <= lo -> clock_from lo evs -> clock_from lo' evs.
Proof.
  destruct evs as [|ev rest]; simpl; [done|].
  intros lo lo' Hle [H1 H2]. split; [lra|exact H2].
Qed.

Lemma clock_from_all (evs : list evaluation) : forall (lo : Q) (ev : evaluation),
  clock_from lo evs -> ev ∈ evs -> lo <= ev_now ev.
Proof.
  induction evs as [|e rest IH]; intros lo ev Hc Hin.
  - by apply elem_of_nil in Hin.
  - destruct Hc as [H1 H2]. apply elem_of_cons in Hin as [->|Hin]; [exact H1|].
    specialize (IH _ _ H2 Hin). lra.
Qed.

Lemma rate_limited_false (ledger : gmap string Q) (key : string) (now itv s : Q) :
  rate_limited ledger key now itv = false -> ledger !! key = Some s ->
  itv <= now - s.
Proof.
  unfold rate_limited. intros H Hs. rewrite Hs in H. by apply Qltb_ge in H.
Qed.

Section Spacing.
Variables (I P : string) (tau : Q).

Lemma run_spacing (evs : list evaluation) : forall (st : analyzer_state) (lo : Q),
  stamps_until lo st -> clock_from lo evs -> interval_fixed I P tau evs ->
  let out := fst (run_evaluations st evs) in
  (forall d, d ∈ out -> for_pair I P d ->
     lo <= ts_timestamp d
     /\ forall s, last_signal_time st !! signal_key I P = Some s ->
                  tau <= ts_timestamp d - s)
  /\ (forall l1 d1 l2 d2 l3, out = l1 ++ d1 :: l2 ++ d2 :: l3 ->
        for_pair I P d1 -> for_pair I P d2 -> tau <= ts_timestamp d2 - ts_timestamp d1).
Proof.
  induction evs as [|ev rest IH]; intros st lo Hst Hclk Hitv out.
  - subst out. simpl. split.
    + intros d Hd. by apply elem_of_nil in Hd.
    + intros l1 d1 l2 d2 l3 H. by destruct l1.
  - destruct Hclk as [Hlo Hclk].
    assert (Hitv' : interval_fixed I P tau rest).
    { intros e He. apply Hitv. apply elem_of_cons; by right. }
    pose proof (evaluate_cases st ev) as Hev.
    subst out. simpl. destruct (evaluate st ev) as [o st1].
    destruct o as [d|].
    + destruct Hev as (Hled & Hrl & Ha & Hp & Ht).
      assert (Hst1 : stamps_until (ev_now ev) st1).
      { intros k s. rewrite Hled. destruct (decide (k = signal_key (ev_asset ev) (ev_profile ev))) as [->|Hne].
        - rewrite lookup_insert_eq. intros [= <-]. lra.
        - rewrite lookup_insert_ne by done. intros Hk. specialize (Hst _ _ Hk). lra. }
      specialize (IH st1 (ev_now ev) Hst1 Hclk Hitv').
      destruct (run_evaluations st1 rest) as [out' st2]. simpl in *.
      destruct IH as [IHb IHa].
      assert (Hd_ok : for_pair I P d -> forall s,
                 last_signal_time st !! signal_key I P = Some s ->
                 tau <= ts_timestamp d - s).
      { intros [HI HP] s Hs. rewrite Ha in HI. rewrite Hp in HP. 
        rewrite <- (Hitv ev ltac:(apply elem_of_cons; by left) HI HP).
        rewrite Ht. rewrite <- HI, <- HP in Hs. eapply rate_limited_false; eassumption. }
      split.
      * intros d' Hd' Hfp. apply elem_of_cons in Hd' as [->|Hd'].
        -- split; [rewrite Ht; exact Hlo|]. by apply Hd_ok.
        -- destruct (IHb d' Hd' Hfp) as [Hge Hsp]. split; [lra|].
           intros s Hs.
           destruct (decide (signal_key I P = signal_key (ev_asset ev) (ev_profile ev))) as [Heq|Hne].
           ++ specialize (Hsp (ev_now ev)). rewrite Hled, Heq, lookup_insert_eq in Hsp.
              specialize (Hsp eq_refl). specialize (Hst _ _ Hs). lra.
           ++ apply Hsp. rewrite Hled, lookup_insert_ne by done. exact Hs.
      * intros l1 d1 l2 d2 l3 Hout Hf1 Hf2.
        destruct l1 as [|x l1]; simpl in Hout; injection Hout as -> ->.
        -- (* d1 is the decision just emitted *)
           assert (Hin : d2 ∈ l2 ++ d2 :: l3).
           { apply elem_of_app; right. apply elem_of_cons; by left. }
           destruct (IHb d2 Hin Hf2) as [_ Hsp].
           destruct Hf1 as [HI HP]. rewrite Ha in HI. rewrite Hp in HP.
           specialize (Hsp (ev_now ev)). rewrite Hled, <- HI, <- HP in Hsp.
           rewrite lookup_insert_eq in Hsp. specialize (Hsp eq_refl). rewrite Ht. exact Hsp.
        -- by eapply IHa.
    + assert (Hst1 : stamps_until lo st1).
      { intros k s. rewrite Hev. apply Hst. }
      assert (Hclk' : clock_from lo rest) by (eapply clock_from_weaken; eassumption).
      specialize (IH st1 lo Hst1 Hclk' Hitv').
      destruct (run_evaluations st1 rest) as [out' st2]. simpl in *.
      rewrite Hev in IH. exact IH.
Qed.
End Spacing.

(** C3. The rate-limit ledger is stamped with the evaluation time exactly
    when a decision is emitted, and a rejected evaluation leaves the
    analyzer state as it was; an evaluation that starts less than the
    signal interval after the last stamp of its (instrument, profile)
    key emits nothing; hence, along any run of evaluations whose clock
    does not go back, two decisions for the same instrument and profile
    are at least the profile's signal interval apart. *)
Theorem rate_limit_spacing :
  (forall st now latest asset profile cfg res,
     match generate_trading_signal st now latest asset profile cfg res with
     | (Some d, st') =>
         st' = stamp st (signal_key asset profile) now /\ ts_timestamp d = now
     | (None, st') => st' = st
     end)
  /\ (forall st now latest asset profile cfg res s,
        last_signal_time st !! signal_key asset profile = Some s ->
        now - s < signal_interval cfg ->
        generate_trading_signal st now latest asset profile cfg res = (None, st))
  /\ (forall evs st lo I P tau,
        stamps_until lo st -> clock_from lo evs -> interval_fixed I P tau evs ->
        forall l1 d1 l2 d2 l3,
          fst (run_evaluations st evs) = l1 ++ d1 :: l2 ++ d2 :: l3 ->
          for_pair I P d1 -> for_pair I P d2 ->
          tau <= ts_timestamp d2 - ts_timestamp d1).
Proof.
  split; [|split].
  - intros st now latest asset profile cfg res.
    pose proof (generate_cases st now latest asset profile cfg res) as G.
    destruct (generate_trading_signal _ _ _ _ _ _ _) as [[d|] st']; simpl in G.
    + destruct G as (H1 & _ & _ & _ & _ & H2 & _). split; assumption.
    + exact G.
  - intros st now latest asset profile cfg res s Hs Hlt.
    unfold generate_trading_signal.
    destruct (negb (asset_enabled cfg asset)); [reflexivity|].
    unfold rate_limited. rewrite Hs.
    apply Qltb_lt in Hlt. rewrite Hlt. reflexivity.
  - intros evs st lo I P tau Hst Hclk Hitv.
    apply (run_spacing I P tau evs st lo Hst Hclk Hitv).
Qed.

Lemma rate_limit_spacing_witness :
  match fst (run_evaluations analyzer_init sample_run) with
  | [d1; d2] => 300 <= ts_timestamp d2 - ts_timestamp d1
  | _ => False
  end.
Proof.
  destruct (fst (run_evaluations analyzer_init sample_run))
    as [|d1 [|d2 [|d3 l]]] eqn:E; try (vm_compute in E; discriminate E).
  apply (proj2 (proj2 rate_limit_spacing) sample_run analyzer_init 0
           "winfut" "agressivo" 300) with (l1 := []) (l2 := []) (l3 := []).
  - intros k s H. cbn [analyzer_init last_signal_time] in H.
    rewrite lookup_empty in H. discriminate H.
  - simpl. repeat split; vm_compute; discriminate.
  - intros ev Hin _ _. unfold sample_run in Hin.
    rewrite !elem_of_cons, elem_of_nil in Hin.
    destruct Hin as [->|[->|[->|[]]]]; reflexivity.
  - exact E.
  - vm_compute in E. injection E as <- <-. split; reflexivity.
  - vm_compute in E. injection E as <- <-. split; reflexivity.
Defined.


(** ** Executor: no step touches the books *)

(** ** The executor's ledgers along a run *)

Section ExecutorRuns.

Implicit Types (st : executor) (e : step) (es : list step) (t : string).

Lemma close_position_state st cr ticket : snd (close_position st cr ticket) = st.
Proof.
  unfold close_position.
  destruct (cr_initialized cr), (cr_position_found cr); simpl; try reflexivity.
  destruct (cr_retcode cr) as [rc|]; [|reflexivity].
  destruct (rc =? TRADE_RETCODE_DONE)%Z; reflexivity.
Qed.

Lemma process_signal_books st s : same_books st (process_signal st s).
Proof.
  unfold process_signal, same_books.
  destruct (timestamp_of s) as [t|]; [|done].
  case_bool_decide; [done|].
  destruct (order_of_signal s); done.
Qed.

Lemma process_order_books st br : same_books st (process_order st br).
Proof.
  unfold process_order, same_books.
  destruct (order_queue st) as [|o q]; [done|].
  repeat (match goal with |- context [if ?b then _ else _] => destruct b end);
    done.
Qed.

Lemma exec_step_books st e : same_books st (exec_step st e).
Proof.
  destruct e as [s|br|cr ticket]; simpl.
  - apply process_signal_books.
  - apply process_order_books.
  - rewrite close_position_state. done.
Qed.

Lemma exec_run_books es : forall st, same_books st (exec_run st es).
Proof.
  induction es as [|e es IH]; intros st; simpl; [done|].
  destruct (exec_step_books st e) as (H1 & H2 & H3 & H4).
  destruct (IH (exec_step st e)) as (K1 & K2 & K3 & K4).
  unfold same_books, exec_run in *. simpl.
  rewrite K1, K2, K3, K4. done.
Qed.

Lemma gate_books st st' time :
  same_books st st' ->
  check_trading_allowed st' time = check_trading_allowed st time.
Proof.
  intros (H1 & H2 & H3 & _). unfold check_trading_allowed.
  rewrite H1, H2, H3. reflexivity.
Qed.

End ExecutorRuns.

(** ** Executor: the dedup ledger *)

Section Dedup.
Implicit Types (st : executor) (e : step) (es : list step) (t : string).




Lemma row_of_timestamp o br :
  or_signal_timestamp (row_of o br) = fs_timestamp (od_signal_details o).
Proof. reflexivity. Qed.

(** A redelivered identity is dropped. *)
Lemma process_signal_seen st s t :
  timestamp_of s = Some t -> t ∈ processed_signal_timestamps st ->
  process_signal st s = st.
Proof.
  intros Ht Hin. unfold process_signal. rewrite Ht.
  rewrite bool_decide_eq_true_2 by done. reflexivity.
Qed.








End Dedup.




(** ** Executor: theorems *)

Lemma closed_gate_step (st : executor) (e : step) :
  (forall time, check_trading_allowed st time = false) ->
  orders_table (exec_step st e) = orders_table st.
Proof.
  intros Hgate. destruct e as [s|br|cr ticket]; simpl.
  - unfold process_signal. destruct (timestamp_of s); [|done].
    case_bool_decide; [done|]. destruct (order_of_signal s); done.
  - unfold process_order. destruct (order_queue st) as [|o q]; [done|].
    rewrite (gate_books st (with_orders st q (orders_table st)))
      by (unfold same_books; done).
    rewrite Hgate. reflexivity.
  - by rewrite close_position_state.
Qed.

Lemma closed_gate_run (es : list step) : forall st : executor,
  (forall time, check_trading_allowed st time = false) ->
  orders_table (exec_run st es) = orders_table st.
Proof.
  induction es as [|e es IH]; intros st Hgate; simpl; [done|].
  rewrite IH.
  - by apply closed_gate_step.
  - intros time. rewrite (gate_books st) by apply exec_step_books. apply Hgate.
Qed.

(** C6. Once the day's cumulative pnl is below minus
    [max_daily_loss_pct] percent of the approximate day-start balance
    (current balance minus cumulative pnl), the trading gate answers
    false at every time of day, in the current state and after any
    further steps of the executor, and no order reaches the order table
    any more, whatever the decisions that are delivered say. *)
Theorem daily_loss_breaker (st : executor) (balance : Q) :
  account_balance st = Some balance ->
  ds_pnl (stats st)
    < - (max_daily_loss_pct (config st) / 100 * (balance - ds_pnl (stats st))) ->
  forall es : list step,
    (forall time, check_trading_allowed (exec_run st es) time = false)
    /\ orders_table (exec_run st es) = orders_table st.
Proof.
  intros Hb Hloss.
  assert (Hgate : forall time, check_trading_allowed st time = false).
  { intros time. unfold check_trading_allowed. rewrite Hb.
    destruct (negb _); [reflexivity|].
    unfold loss_limit_hit. apply Qltb_lt in Hloss. rewrite Hloss. reflexivity. }
  intros es. split.
  - intros time. rewrite (gate_books st) by apply exec_run_books. apply Hgate.
  - by apply closed_gate_run.
Qed.

Lemma daily_loss_breaker_witness :
  (forall time, check_trading_allowed
     (exec_run losing_executor
        [ReadSignal (sample_signal "t1"); ProcessOrder sample_reply]) time = false)
  /\ orders_table (exec_run losing_executor
        [ReadSignal (sample_signal "t1"); ProcessOrder sample_reply])
     = orders_table losing_executor.
Proof.
  apply (daily_loss_breaker losing_executor 96000).
  - reflexivity.
  - vm_compute. reflexivity.
Defined.

(** C1. An executor holding one open order whose position the broker
    closes successfully: [close_position] reports success, yet the
    order's row is still OPEN with no profit and the day's statistics
    are untouched, where [update_daily_stats] with the realized profit
    would have counted one trade, one win and the profit. *)
Theorem close_position_records_nothing :
  let st := executor_with_position in
  let '(closed, st') := close_position st broker_closes 1001 in
  closed = true
  /\ map or_status (orders_table st') = [OPEN]
  /\ map or_profit (orders_table st') = [None]
  /\ ds_trades (stats st') = 0%nat
  /\ stats_table st' = stats_table st
  /\ ds_trades (stats (update_daily_stats st "2025-05-23" 150)) = 1%nat
  /\ ds_wins (stats (update_daily_stats st "2025-05-23" 150)) = 1%nat
  /\ ds_pnl (stats (update_daily_stats st "2025-05-23" 150)) == 150.
Proof. vm_compute. repeat split; reflexivity. Qed.






(** * Further properties *)

(** ** The data-quality guard ([validate_data_columns], [prepare_dataframe]) *)

Lemma add_column_has (c c' : column) (v : Q) (df : frame) :
  has_column (add_column c v df) c' = has_column df c' || bool_decide (c' = c).
Proof.
  unfold has_column, add_column. simpl.
  apply eq_true_iff_eq. rewrite orb_true_iff, !bool_decide_eq_true.
  rewrite elem_of_app, list_elem_of_singleton. reflexivity.
Qed.

Lemma set_cell_other (c c' : column) (v : Q) (r : row) :
  c' <> c -> cell c' (set_cell c v r) = cell c' r.
Proof. intros H. destruct c, c'; try reflexivity; congruence. Qed.

Lemma set_cell_same (c : column) (v : Q) (r : row) : cell c (set_cell c v r) = v.
Proof. destruct c; reflexivity. Qed.

Lemma add_column_series_other (c c' : column) (v : Q) (df : frame) :
  c' <> c -> series (add_column c v df) c' = series df c'.
Proof.
  intros H. unfold series. rewrite add_column_has.
  rewrite (bool_decide_eq_false_2 (c' = c)) by done. rewrite orb_false_r.
  destruct (has_column df c'); [|reflexivity]. f_equal.
  unfold add_column. simpl. rewrite map_map.
  apply map_ext. intros r. by apply set_cell_other.
Qed.

Lemma add_column_series_same (c : column) (v : Q) (df : frame) :
  series (add_column c v df) c = Some (repeat v (len df)).
Proof.
  unfold series. rewrite add_column_has.
  rewrite (bool_decide_eq_true_2 (c = c)) by done. rewrite orb_true_r. f_equal.
  unfold add_column, len. simpl. rewrite map_map.
  induction (rows df) as [|r l IH]; simpl; [done|].
  by rewrite set_cell_same, IH.
Qed.

Lemma prepare_fold (cfg : profile_config) (cs : list column) : forall df : frame,
  let df' := fold_left (prepare_step cfg) cs df in
  len df' = len df
  /\ (forall c, has_column df' c = has_column df c || bool_decide (c ∈ cs))
  /\ (forall c, has_column df c = true -> series df' c = series df c)
  /\ (forall c, has_column df c = false -> c ∈ cs ->
        series df' c = Some (repeat (fallback_value cfg c) (len df))).
Proof.
  induction cs as [|c0 cs IH]; intros df df'.
  - subst df'. cbn [fold_left]. split; [done|]. split; [|split].
    + intros c. rewrite (bool_decide_eq_false_2 (c ∈ [])) by apply not_elem_of_nil.
      by rewrite orb_false_r.
    + done.
    + intros c _ H. by apply elem_of_nil in H.
  - subst df'. cbn [fold_left].
    destruct (IH (prepare_step cfg df c0)) as (L & H & S & F).
    assert (Hlen : len (prepare_step cfg df c0) = len df).
    { unfold prepare_step. destruct (has_column df c0); [done|apply add_column_len]. }
    assert (Hhas : forall c, has_column (prepare_step cfg df c0) c
                             = has_column df c || bool_decide (c = c0)).
    { intros c. unfold prepare_step. destruct (has_column df c0) eqn:E.
      - destruct (bool_decide_reflect (c = c0)) as [->|]; [by rewrite E|by rewrite orb_false_r].
      - apply add_column_has. }
    split; [congruence|]. split; [|split].
    + intros c. rewrite H, Hhas, <- orb_assoc. f_equal.
      apply eq_true_iff_eq. rewrite orb_true_iff, !bool_decide_eq_true, elem_of_cons.
      reflexivity.
    + intros c Hc. rewrite S by (rewrite Hhas, Hc; reflexivity).
      unfold prepare_step. destruct (has_column df c0) eqn:E; [done|].
      apply add_column_series_other. intros ->. congruence.
    + intros c Hc Hin.
      destruct (decide (c = c0)) as [->|Hne].
      * rewrite S by (rewrite Hhas, bool_decide_eq_true_2 by done; apply orb_true_r).
        unfold prepare_step. rewrite Hc. apply add_column_series_same.
      * apply elem_of_cons in Hin as [?|Hin]; [done|].
        rewrite F; [by rewrite Hlen| |exact Hin].
        rewrite Hhas, Hc. by rewrite bool_decide_eq_false_2.
Qed.

Lemma filter_nil_iff {A} (f : A -> bool) (l : list A) :
  List.filter f l = [] <-> forall x, x ∈ l -> f x = false.
Proof.
  induction l as [|a l IH]; simpl.
  - split; [intros _ x H; by apply elem_of_nil in H|done].
  - destruct (f a) eqn:E.
    + split; [done|]. intros H. assert (Ha : a ∈ a :: l) by (apply elem_of_cons; by left).
      specialize (H a Ha). congruence.
    + rewrite IH. split.
      * intros H x Hx. apply elem_of_cons in Hx as [->|Hx]; [done|by apply H].
      * intros H x Hx. apply H. apply elem_of_cons. by right.
Qed.

Lemma guarded_spec (cfg : profile_config) (df : frame) (k : analysis_kind) :
  let df' := guarded cfg df k in
  len df' = len df
  /\ missing_columns cfg df' k = []
  /\ (forall c, has_column df c = true ->
        has_column df' c = true /\ series df' c = series df c)
  /\ (forall c, has_column df c = false -> c ∈ required_columns cfg k ->
        has_column df' c = true
        /\ series df' c = Some (repeat (fallback_value cfg c) (len df)))
  /\ (forall c, has_column df c = false -> c ∉ required_columns cfg k ->
        has_column df' c = false)
  /\ (missing_columns cfg df k = [] -> df' = df).
Proof.
  intros df'. subst df'. unfold guarded.
  destruct (missing_columns cfg df k) as [|m ms] eqn:Hm.
  - split; [done|]. split; [exact Hm|]. split; [done|]. split; [|done].
    intros c Hc Hin. exfalso.
    unfold missing_columns in Hm. rewrite filter_nil_iff in Hm.
    specialize (Hm c Hin). rewrite Hc in Hm. discriminate.
  - unfold prepare_dataframe.
    change (fun d c => if has_column d c then d
                       else add_column c (fallback_value cfg c) d)
      with (prepare_step cfg).
    destruct (prepare_fold cfg (required_columns cfg k) df) as (L & H & S & F).
    split; [exact L|]. split; [|split; [|split; [|split; [|discriminate]]]].
    + unfold missing_columns. apply filter_nil_iff. intros c Hc.
      rewrite H, (bool_decide_eq_true_2 _ Hc), orb_true_r. reflexivity.
    + intros c Hc. split; [by rewrite H, Hc|by apply S].
    + intros c Hc Hin. split; [|by apply F].
      by rewrite H, (bool_decide_eq_true_2 _ Hin), orb_true_r.
    + intros c Hc Hin. rewrite H, Hc. by rewrite bool_decide_eq_false_2.
Qed.

(** X1. The frame an analysis works on after the guard has as many rows
    as the frame it was given and none of the columns required for the
    analysis is missing from it; the columns that were there keep their
    cells, each required column that was missing is filled with its
    fallback value on every row, no other column appears, and a frame
    that misses nothing is passed on as it is. *)
Theorem guarded_frame (cfg : profile_config) (df : frame) (k : analysis_kind) :
  let df' := guarded cfg df k in
  len df' = len df
  /\ missing_columns cfg df' k = []
  /\ (forall c, has_column df c = true ->
        has_column df' c = true /\ series df' c = series df c)
  /\ (forall c, has_column df c = false -> c ∈ required_columns cfg k ->
        has_column df' c = true
        /\ series df' c = Some (repeat (fallback_value cfg c) (len df)))
  /\ (forall c, has_column df c = false -> c ∉ required_columns cfg k ->
        has_column df' c = false /\ series df' c = None)
  /\ (missing_columns cfg df k = [] -> df' = df).
Proof.
  intros df'.
  destruct (guarded_spec cfg df k) as (H1 & H2 & H3 & H4 & H5 & H6).
  fold df' in H1, H2, H3, H4, H5, H6.
  split; [exact H1|]. split; [exact H2|]. split; [exact H3|]. split; [exact H4|].
  split; [|exact H6].
  intros c Hc Hn. split; [by apply H5|]. apply series_missing. by apply H5.
Qed.

Lemma guarded_frame_witness :
  let df' := guarded agressivo bare_frame KOrderFlow in
  has_column df' AgressaoSaldo = true
  /\ series df' AgressaoSaldo = Some (repeat 0 12).
Proof.
  apply (proj1 (proj2 (proj2 (proj2 (guarded_frame agressivo bare_frame KOrderFlow))))).
  - reflexivity.
  - vm_compute. repeat constructor.
Defined.

(** ** Order flow on a frame without order-flow columns *)

Lemma all_zero_repeat (v : Q) (n : nat) : v == 0 -> all_zero (repeat v n).
Proof. intros Hv. induction n; simpl; constructor; assumption. Qed.

Lemma all_zero_skipn (k : nat) (l : list Q) : all_zero l -> all_zero (skipn k l).
Proof.
  intros H. revert k. induction H as [|x l Hx Hl IH]; intros [|k]; simpl.
  - constructor.
  - constructor.
  - by constructor.
  - apply IH.
Qed.

Lemma all_zero_firstn (k : nat) (l : list Q) : all_zero l -> all_zero (firstn k l).
Proof.
  intros H. revert k. induction H as [|x l Hx Hl IH]; intros [|k]; simpl.
  - constructor.
  - constructor.
  - constructor.
  - constructor; [exact Hx|apply IH].
Qed.

Lemma all_zero_sum (l : list Q) : all_zero l -> Qsum l == 0.
Proof.
  induction 1 as [|x l Hx _ IH]; [reflexivity|].
  rewrite Qsum_cons, Hx, IH. lra.
Qed.

Lemma all_zero_mean (l : list Q) : all_zero l -> Qmean l == 0.
Proof. intros H. unfold Qmean. rewrite (all_zero_sum l H). unfold Qdiv. lra. Qed.

Lemma all_zero_nth (l : list Q) (i : nat) : all_zero l -> nth i l 0 == 0.
Proof.
  intros H. revert i. induction H as [|x l Hx Hl IH]; intros [|i]; simpl.
  - reflexivity.
  - reflexivity.
  - exact Hx.
  - apply IH.
Qed.

Lemma Qltb_false_le (x y : Q) : y <= x -> Qltb x y = false.
Proof. apply Qltb_ge. Qed.

Lemma valid_aggression oc saldo r :
  valid (aggression_stage oc saldo r) = valid r.
Proof. unfold aggression_stage. by repeat case_if. Qed.

Lemma valid_absorption oc p compra venda saldo r :
  valid (absorption_stage oc p compra venda saldo r) = valid r.
Proof. unfold absorption_stage. by repeat case_if. Qed.

Lemma valid_exhaustion p saldo r : valid (exhaustion_stage p saldo r) = valid r.
Proof. unfold exhaustion_stage. by repeat case_if. Qed.

(** The order-flow analysis on the columns it reads. *)
Lemma order_flow_on_columns cfg df p compra venda saldo :
  let oc := cfg_order_flow cfg in
  let df' := guarded cfg df KOrderFlow in
  (0 < len df)%nat -> order_flow_enabled oc = true ->
  series df' Ultimo = Some p -> series df' AgressaoCompra = Some compra ->
  series df' AgressaoVenda = Some venda -> series df' AgressaoSaldo = Some saldo ->
  analyze_order_flow cfg df
  = let r := aggression_stage oc saldo fresh_result in
    let r := if (5 <=? len df')%nat then absorption_stage oc p compra venda saldo r
             else r in
    if (10 <=? len df')%nat then exhaustion_stage p saldo r else r.
Proof.
  intros oc df' Hpos Hen Hp Hc Hv Hs.
  unfold analyze_order_flow. fold oc df'. rewrite Hen.
  replace (len df =? 0)%nat with false by (symmetry; apply Nat.eqb_neq; lia).
  assert (Hcols : forallb (has_column df') flow_columns = true).
  { simpl. rewrite (series_has _ _ _ Hc), (series_has _ _ _ Hv), (series_has _ _ _ Hs).
    reflexivity. }
  rewrite Hcols, Hs, Hp, Hc, Hv. cbn [negb mbind option_bind caught].
  destruct (5 <=? len df')%nat; cbn [mbind option_bind];
    destruct (10 <=? len df')%nat; reflexivity.
Qed.

(** X2. When the configuration requires the three aggression columns
    and the frame has a price column, the order-flow result is valid
    whether or not the frame holds aggression data; on a frame that has
    none of the three columns, with fallback values of 0 and thresholds
    that are not negative, the result is the empty valid result: no
    microsignal and confidence 0. *)
Theorem order_flow_without_columns (cfg : profile_config) (df : frame) :
  let oc := cfg_order_flow cfg in
  (0 < len df)%nat -> order_flow_enabled oc = true ->
  (forall c, c ∈ flow_columns -> c ∈ required_columns cfg KOrderFlow) ->
  has_column df Ultimo = true ->
  valid (analyze_order_flow cfg df) = true
  /\ ((forall c, c ∈ flow_columns ->
         has_column df c = false /\ fallback_value cfg c == 0) ->
      0 <= aggression_threshold oc -> 0 <= absorption_threshold oc ->
      analyze_order_flow cfg df = fresh_result).
Proof.
  intros oc Hpos Hen Hreq Hprice.
  destruct (guarded_spec cfg df KOrderFlow) as (Hlen & Hmiss & Hkeep & Hfill & _).
  set (df' := guarded cfg df KOrderFlow) in *.
  assert (Hcol : forall c, c ∈ flow_columns -> has_column df' c = true).
  { intros c Hc.
    destruct (has_column df c) eqn:E; [by apply Hkeep|by apply Hfill, Hreq]. }
  destruct (series_present df' Ultimo (proj1 (Hkeep _ Hprice))) as [p Hp].
  destruct (series_present df' AgressaoCompra) as [compra Hc];
    [apply Hcol; repeat constructor|].
  destruct (series_present df' AgressaoVenda) as [venda Hv];
    [apply Hcol; repeat constructor|].
  destruct (series_present df' AgressaoSaldo) as [saldo Hs];
    [apply Hcol; repeat constructor|].
  pose proof (order_flow_on_columns cfg df p compra venda saldo Hpos Hen Hp Hc Hv Hs)
    as Hshape.
  fold oc df' in Hshape. cbv zeta in Hshape.
  split.
  - rewrite Hshape.
    destruct (5 <=? len df')%nat; destruct (10 <=? len df')%nat;
      rewrite ?valid_exhaustion, ?valid_absorption, valid_aggression; reflexivity.
  - intros Hnone Hagg Habs.
    assert (Hz : forall c l, c ∈ flow_columns -> series df' c = Some l -> all_zero l).
    { intros c l Hin Hl. destruct (Hnone c Hin) as [Hno Hf].
      destruct (Hfill c Hno (Hreq c Hin)) as [_ Hrep].
      rewrite Hrep in Hl. injection Hl as <-. by apply all_zero_repeat. }
    assert (Zs : all_zero saldo) by (apply (Hz AgressaoSaldo); [repeat constructor|done]).
    assert (Zc : all_zero compra) by (apply (Hz AgressaoCompra); [repeat constructor|done]).
    assert (Zv : all_zero venda) by (apply (Hz AgressaoVenda); [repeat constructor|done]).
    assert (Hlast : last_saldo saldo == 0) by (apply all_zero_nth, Zs).
    assert (E1 : aggression_stage oc saldo fresh_result = fresh_result).
    { unfold aggression_stage.
      assert (Hstr : aggression_strength saldo == 0).
      { unfold aggression_strength. rewrite Hlast. unfold Qdiv. lra. }
      rewrite (Qltb_false_le (aggression_threshold oc)) by (rewrite Hstr; exact Hagg).
      reflexivity. }
    assert (E2 : absorption_stage oc p compra venda saldo fresh_result = fresh_result).
    { unfold absorption_stage.
      assert (Hr : absorption_ratio p compra venda == 0).
      { unfold absorption_ratio, recent_aggression_volume, last_n.
        rewrite (all_zero_sum _ (all_zero_skipn _ _ Zc)).
        rewrite (all_zero_sum _ (all_zero_skipn _ _ Zv)). unfold Qdiv. lra. }
      rewrite (Qltb_false_le (absorption_threshold oc)) by (rewrite Hr; exact Habs).
      reflexivity. }
    assert (E3 : exhaustion_stage p saldo fresh_result = fresh_result).
    { unfold exhaustion_stage.
      assert (Hpa : previous_aggression saldo == 0).
      { apply all_zero_mean. unfold slice_back. apply all_zero_firstn, all_zero_skipn, Zs. }
      assert (Hq : recent_aggression saldo == 0).
      { apply all_zero_mean. unfold last_n. apply all_zero_skipn, Zs. }
      rewrite (Qltb_false_le 0 (previous_aggression saldo)) by (rewrite Hpa; lra).
      rewrite (Qltb_false_le (previous_aggression saldo) 0) by (rewrite Hpa; lra).
      simpl. by destruct (exhaustion_detected p saldo). }
    rewrite Hshape, E1.
    destruct (5 <=? len df')%nat; rewrite ?E2;
      destruct (10 <=? len df')%nat; rewrite ?E3; reflexivity.
Qed.

Lemma order_flow_without_columns_witness :
  analyze_order_flow agressivo bare_frame = fresh_result.
Proof.
  refine (proj2 (order_flow_without_columns agressivo bare_frame _ _ _ _) _ _ _).
  - vm_compute. lia.
  - reflexivity.
  - intros c Hc. exact Hc.
  - reflexivity.
  - intros c Hc. unfold flow_columns in Hc.
    rewrite !elem_of_cons, elem_of_nil in Hc.
    destruct Hc as [->|[->|[->|[]]]]; split; reflexivity.
  - vm_compute. discriminate.
  - vm_compute. discriminate.
Defined.

(** ** Phase analysis: the three outcomes *)

(** X3. The phase analysis of a frame that has the columns of the
    lows, the highs and the prices: under 10 rows the result is valid
    and empty; from 10 rows on, the phase is Accumulation exactly when
    the range is positive, the position in it below 0.3 and the
    accumulation tell count above 5, Distribution exactly when the
    range is positive, the position above 0.7 and the distribution tell
    count (price up, volume down) above 5; a Distribution comes with
    one Sell microsignal and confidence 0.7, no phase with no
    microsignal and confidence 0. *)
Theorem phase_outcomes (cfg : profile_config) (df0 : frame)
    (lows highs price : list Q) :
  let df := guarded cfg df0 KWyckoff in
  let r := analyze_wyckoff cfg df0 in
  let pos := position_in_range price lows highs in
  let down_up := match series df Volume with
                 | Some vol => price_down_volume_up price vol
                 | None => O
                 end in
  let up_down := match series df Volume with
                 | Some vol => price_up_volume_down price vol
                 | None => O
                 end in
  (0 < len df)%nat -> wyckoff_enabled (cfg_wyckoff cfg) = true ->
  series df Minimo = Some lows -> series df Maximo = Some highs ->
  series df Ultimo = Some price ->
  ((len df < 10)%nat -> r = fresh_result)
  /\ ((10 <= len df)%nat ->
      (phase r = Some Acumulacao
       <-> 0 < range_width lows highs /\ pos < 0.3 /\ (5 < down_up)%nat)
      /\ (phase r = Some Distribuicao
          <-> 0 < range_width lows highs /\ 0.7 < pos /\ (5 < up_down)%nat)
      /\ (phase r = Some Distribuicao ->
          signals r = [mk_signal Venda "Distribuição próxima à resistência" None]
          /\ confidence r == 0.7)
      /\ (phase r = None -> signals r = [] /\ confidence r == 0)).
Proof.
  intros df r pos down_up up_down Hpos Hen Hlo Hhi Hp.
  assert (Hlen : len df = len df0) by apply guarded_len.
  assert (Hva : exists va, volume_analysis df = Some va
                  /\ ((5 <= len df)%nat ->
                      tell_down_up va = down_up /\ tell_up_down va = up_down)).
  { destruct (le_lt_dec 5 (len df)) as [H5|H5].
    - destruct (volume_analysis_tells df price Hp H5) as (va & E & A & B).
      exists va. by split.
    - exists None. split; [|lia]. unfold volume_analysis.
      replace (5 <=? len df)%nat with false by (symmetry; apply Nat.leb_gt; lia).
      by rewrite andb_false_r. }
  destruct Hva as (va & Hva & Htells).
  split.
  - intros Hshort. unfold r, analyze_wyckoff. fold df. rewrite Hen, Hva.
    replace (len df0 =? 0)%nat with false by (symmetry; apply Nat.eqb_neq; lia).
    replace (10 <=? len df)%nat with false by (symmetry; apply Nat.leb_gt; lia).
    reflexivity.
  - intros H10. destruct Htells as [Hd Hu]; [lia|].
    assert (Hr : r = wyckoff_levels va lows highs price fresh_result).
    { unfold r, analyze_wyckoff. fold df. rewrite Hen, Hva, Hlo, Hhi, Hp.
      replace (len df0 =? 0)%nat with false by (symmetry; apply Nat.eqb_neq; lia).
      replace (10 <=? len df)%nat with true by (symmetry; apply Nat.leb_le; lia).
      reflexivity. }
    rewrite Hr. unfold wyckoff_levels. fold pos. rewrite Hd, Hu.
    destruct (Qltb 0 (range_width lows highs)) eqn:E1;
      [apply Qltb_lt in E1|apply Qltb_ge in E1].
    2:{ simpl. repeat split; try discriminate; try reflexivity; intros (H & _); lra. }
    destruct (Qltb pos 0.3) eqn:E2; [apply Qltb_lt in E2|apply Qltb_ge in E2].
    + destruct (5 <? down_up)%nat eqn:E3;
        [apply Nat.ltb_lt in E3|apply Nat.ltb_ge in E3]; simpl;
        repeat split; try discriminate; try reflexivity; try assumption;
        try (intros (_ & H & _); lra); try (intros (_ & _ & H); lia).
    + destruct (Qltb 0.7 pos) eqn:E4; [apply Qltb_lt in E4|apply Qltb_ge in E4].
      * destruct (5 <? up_down)%nat eqn:E3;
          [apply Nat.ltb_lt in E3|apply Nat.ltb_ge in E3]; simpl;
          repeat split; try discriminate; try reflexivity; try assumption;
          try (intros (_ & H & _); lra); try (intros (_ & _ & H); lia).
      * simpl. repeat split; try discriminate; try reflexivity;
          intros (_ & H & _); lra.
Qed.

Lemma phase_outcomes_witness :
  signals (analyze_wyckoff agressivo markup_frame)
  = [mk_signal Venda "Distribuição próxima à resistência" None]
  /\ confidence (analyze_wyckoff agressivo markup_frame) == 0.7.
Proof.
  refine (proj1 (proj2 (proj2 (proj2
            (phase_outcomes agressivo markup_frame _ _ _ _ _ eq_refl eq_refl eq_refl) _))) _).
  - vm_compute. lia.
  - reflexivity.
  - vm_compute. lia.
  - vm_compute. reflexivity.
Defined.

(** ** An analysis that cannot read a column *)

(** X4. A frame without a price column, when the configuration does not
    make the guard add one: the momentum result is invalid, the
    order-flow result is invalid from 5 rows on, the phase result from
    10 rows on (and from 5 rows on when the frame has a volume column),
    and the evaluation of the instrument ends without a decision and
    without a change of the analyzer's state. *)
Theorem missing_price_column (cfg : profile_config) (df : frame) :
  has_column df Ultimo = false ->
  (forall k, Ultimo ∉ required_columns cfg k) ->
  valid (analyze_momentum cfg df) = false
  /\ ((5 <= len df)%nat -> valid (analyze_order_flow cfg df) = false)
  /\ ((10 <= len df)%nat -> valid (analyze_wyckoff cfg df) = false)
  /\ ((5 <= len df)%nat -> has_column df Volume = true ->
      valid (analyze_wyckoff cfg df) = false)
  /\ forall st now latest asset profile,
       analyze_asset_with_profile st now (Some df) latest asset profile cfg = (None, st).
Proof.
  intros Hno Hreq.
  assert (Hg : forall k, series (guarded cfg df k) Ultimo = None).
  { intros k. apply series_missing.
    by destruct (guarded_spec cfg df k) as (_ & _ & _ & _ & H & _); apply H. }
  assert (Hl : forall k, len (guarded cfg df k) = len df) by (intros; apply guarded_len).
  split; [|split; [|split; [|split]]].
  - unfold analyze_momentum. rewrite Hg.
    destruct (len df =? 0)%nat; [done|]. destruct (negb _); [done|].
    by destruct (_ <? _)%nat.
  - intros H5. unfold analyze_order_flow. rewrite Hg, Hl.
    destruct (len df =? 0)%nat; [done|]. destruct (negb _); [done|].
    destruct (negb _); [done|].
    replace (5 <=? len df)%nat with true by (symmetry; apply Nat.leb_le; lia).
    by destruct (series _ AgressaoSaldo).
  - intros H10. unfold analyze_wyckoff. rewrite Hg, Hl.
    destruct (len df =? 0)%nat; [done|]. destruct (negb _); [done|].
    replace (10 <=? len df)%nat with true by (symmetry; apply Nat.leb_le; lia).
    destruct (volume_analysis _); [|done]. cbn [mbind option_bind].
    destruct (series _ Minimo); [|done]. cbn [mbind option_bind].
    by destruct (series _ Maximo).
  - intros H5 Hvol. unfold analyze_wyckoff.
    destruct (len df =? 0)%nat; [done|]. destruct (negb _); [done|].
    assert (Hva : volume_analysis (guarded cfg df KWyckoff) = None).
    { unfold volume_analysis. rewrite Hg, Hl.
      destruct (guarded_spec cfg df KWyckoff) as (_ & _ & Hk & _).
      destruct (Hk Volume Hvol) as [Hv Hs]. rewrite Hv.
      replace (5 <=? len df)%nat with true by (symmetry; apply Nat.leb_le; lia).
      destruct (series _ Volume); reflexivity. }
    by rewrite Hva.
  - intros st now latest asset profile. unfold analyze_asset_with_profile.
    rewrite (series_missing df Ultimo Hno). by repeat case_if.
Qed.

Lemma missing_price_column_witness :
  valid (analyze_momentum agressivo priceless_frame) = false
  /\ analyze_asset_with_profile analyzer_init 0 (Some priceless_frame) (Some 11)
                                "winfut" "agressivo" agressivo
     = (None, analyzer_init).
Proof.
  destruct (missing_price_column agressivo priceless_frame) as (H1 & _ & _ & _ & H5).
  - reflexivity.
  - intros k. destruct k; vm_compute; intros H;
      repeat (apply elem_of_cons in H as [H|H]; [discriminate H|]);
      by apply elem_of_nil in H.
  - split; [exact H1|apply H5].
Defined.

(** ** Aggression: no Sell under a threshold that is not negative *)

Lemma aggression_sell_unreachable_witness :
  match series selling_surge_frame AgressaoSaldo with
  | Some saldo =>
      default 0 (last saldo) == -10
      /\ aggression_stage (cfg_order_flow agressivo) saldo fresh_result = fresh_result
  | None => False
  end.
Proof.
  destruct (series selling_surge_frame AgressaoSaldo) as [saldo|] eqn:E;
    [|vm_compute in E; discriminate E].
  assert (Hb : default 0 (last saldo) == -10).
  { vm_compute in E. injection E as <-. vm_compute. reflexivity. }
  split; [exact Hb|].
  apply aggression_sell_unreachable.
  - vm_compute. discriminate.
  - rewrite Hb. vm_compute. discriminate.
Defined.

(** ** Exhaustion: decided by the aggression alone *)

(** X6. On the prices and balances of a frame of at least 10 rows the
    exhaustion step emits a Sell exactly when the mean balance
    of the five bars before the last five is positive and that of the
    last five is negative, a Buy exactly in the mirrored case, and
    nothing otherwise: the change of direction of the price, which the
    step also computes, never decides.  The confidence becomes the
    larger of 0.75 and what it was. *)
Theorem exhaustion_by_aggression (p saldo : list Q) (r : analysis_result) :
  (10 <= length p)%nat -> (10 <= length saldo)%nat ->
  let prev := previous_aggression saldo in
  let rec := recent_aggression saldo in
  let s := Some (Fin (Qabs (rec / Qmax 0.01 prev))) in
  (0 < prev /\ rec < 0 ->
   exhaustion_stage p saldo r
   = emit (mk_signal Venda "Exaustão de compra detectada" s)
          (Qmax (confidence r) 0.75) r)
  /\ (prev < 0 /\ 0 < rec ->
      exhaustion_stage p saldo r
      = emit (mk_signal Compra "Exaustão de venda detectada" s)
             (Qmax (confidence r) 0.75) r)
  /\ (~ (0 < prev /\ rec < 0) -> ~ (prev < 0 /\ 0 < rec) ->
      exhaustion_stage p saldo r = r).
Proof.
  intros _ _ prev rec s. unfold exhaustion_stage. fold prev rec s.
  split; [|split].
  - intros [Hp Hr].
    assert (Hd : exhaustion_detected p saldo = true).
    { unfold exhaustion_detected. fold prev rec. apply orb_true_iff. left.
      apply Qltb_lt. nra. }
    rewrite Hd. apply Qltb_lt in Hp, Hr. by rewrite Hp, Hr.
  - intros [Hp Hr].
    assert (Hd : exhaustion_detected p saldo = true).
    { unfold exhaustion_detected. fold prev rec. apply orb_true_iff. left.
      apply Qltb_lt. nra. }
    rewrite Hd.
    assert (Hn : Qltb 0 prev = false) by (apply Qltb_ge; lra).
    apply Qltb_lt in Hp, Hr. by rewrite Hn, Hp, Hr.
  - intros H1 H2. destruct (exhaustion_detected p saldo); [|reflexivity].
    destruct (Qltb 0 prev && Qltb rec 0) eqn:E1.
    { exfalso. apply H1. apply andb_true_iff in E1 as [A B].
      split; by apply Qltb_lt. }
    destruct (Qltb prev 0 && Qltb 0 rec) eqn:E2.
    { exfalso. apply H2. apply andb_true_iff in E2 as [A B].
      split; by apply Qltb_lt. }
    reflexivity.
Qed.

Lemma exhaustion_by_aggression_witness :
  match series turn_frame Ultimo, series turn_frame AgressaoSaldo with
  | Some p, Some saldo =>
      signals (exhaustion_stage p saldo fresh_result)
      = [mk_signal Venda "Exaustão de compra detectada"
           (Some (Fin (Qabs (recent_aggression saldo
                             / Qmax 0.01 (previous_aggression saldo)))))]
  | _, _ => False
  end.
Proof.
  destruct (series turn_frame Ultimo) as [p|] eqn:Ep;
    [|vm_compute in Ep; discriminate Ep].
  destruct (series turn_frame AgressaoSaldo) as [saldo|] eqn:Es;
    [|vm_compute in Es; discriminate Es].
  vm_compute in Ep. injection Ep as <-.
  vm_compute in Es. injection Es as <-.
  match goal with
  | |- signals (exhaustion_stage ?p ?saldo _) = _ =>
      rewrite (proj1 (exhaustion_by_aggression p saldo fresh_result
                        ltac:(simpl; lia) ltac:(simpl; lia)))
  end.
  - reflexivity.
  - vm_compute. split; reflexivity.
Defined.

(** ** Momentum: every microsignal follows the trend *)

(** X7. A momentum result holds at most two microsignals, and each of
    them points the way of the trend: a Buy only when the fast average
    is above the slow one at the last tick, a Sell only when it is
    not. *)
Theorem momentum_follows_trend (cfg : profile_config) (df0 : frame) :
  let mc := cfg_momentum cfg in
  let df := guarded cfg df0 KMomentum in
  let r := analyze_momentum cfg df0 in
  (length (signals r) <= 2)%nat
  /\ forall p s, series df Ultimo = Some p -> s ∈ signals r ->
       sig_type s = Some (trend_direction (trend_of mc p)).
Proof.
  intros mc df r. unfold r, analyze_momentum. fold mc df.
  destruct (len df0 =? 0)%nat;
    [split; [simpl; lia|intros p s _ H; by apply elem_of_nil in H]|].
  destruct (negb (momentum_enabled mc));
    [split; [simpl; lia|intros p s _ H; by apply elem_of_nil in H]|].
  destruct (len df <? slow_period mc)%nat;
    [split; [simpl; lia|intros p s _ H; by apply elem_of_nil in H]|].
  destruct (series df Ultimo) as [p|]; cbn [mbind option_bind caught];
    [|split; [simpl; lia|intros p s H; discriminate H]].
  assert (Hmain : (length (signals
             (roc_stage mc p (if (3 <=? len df)%nat then cross_stage mc p fresh_result
                              else fresh_result))) <= 2)%nat
          /\ forall s, s ∈ signals
               (roc_stage mc p (if (3 <=? len df)%nat then cross_stage mc p fresh_result
                                else fresh_result)) ->
             sig_type s = Some (trend_direction (trend_of mc p))).
  2:{ destruct Hmain as [A B]. split; [exact A|].
      intros p' s [= <-]. apply B. }
  set (r0 := if (3 <=? len df)%nat then cross_stage mc p fresh_result else fresh_result).
  assert (H0 : (length (signals r0) <= 1)%nat
               /\ forall s, s ∈ signals r0 ->
                    sig_type s = Some (trend_direction (trend_of mc p))).
  { unfold r0, cross_stage, trend_of.
    destruct (3 <=? len df)%nat;
      [|split; [simpl; lia|intros s H; by apply elem_of_nil in H]].
    destruct (Qltb 0 (last_ma_diff mc p)) eqn:E.
    - rewrite andb_true_r. apply Qltb_lt in E.
      replace (Qltb (last_ma_diff mc p) 0) with false
        by (symmetry; apply Qltb_ge; lra).
      rewrite andb_false_r.
      destruct (Qleb (prev_ma_diff mc p) 0); simpl.
      + split; [lia|]. intros s H. apply list_elem_of_singleton in H. by subst s.
      + split; [lia|]. intros s H. by apply elem_of_nil in H.
    - rewrite andb_false_r.
      destruct (Qleb 0 (prev_ma_diff mc p) && Qltb (last_ma_diff mc p) 0); simpl.
      + split; [lia|]. intros s H. apply list_elem_of_singleton in H. by subst s.
      + split; [lia|]. intros s H. by apply elem_of_nil in H. }
  destruct H0 as [HL HS]. clearbody r0.
  unfold roc_stage.
  destruct (last_roc_5 p); destruct (trend_of mc p); repeat case_if;
    simpl; rewrite ?length_app; simpl;
    (split; [lia|]); intros s Hs; rewrite ?elem_of_app in Hs;
    try (destruct Hs as [Hs|Hs]; [by apply HS|];
         apply list_elem_of_singleton in Hs; by subst s);
    by apply HS.
Qed.

Lemma momentum_follows_trend_witness :
  signals (analyze_momentum agressivo rally_frame) <> []
  /\ Forall (fun s => sig_type s = Some Compra)
            (signals (analyze_momentum agressivo rally_frame)).
Proof.
  split; [vm_compute; discriminate|].
  apply Forall_forall. intros s Hs.
  destruct (series (guarded agressivo rally_frame KMomentum) Ultimo) as [p|] eqn:E;
    [|vm_compute in E; discriminate E].
  rewrite (proj2 (momentum_follows_trend agressivo rally_frame) p s E Hs).
  vm_compute in E. injection E as <-. vm_compute. reflexivity.
Defined.

(** ** Decision engine: when a decision is emitted *)

(** The decision [generate_trading_signal] builds once every gate is
    passed. *)
Lemma generate_emitted st now latest asset profile cfg res d st' :
  generate_trading_signal st now latest asset profile cfg res = (Some d, st') ->
  exists p sup rst,
    price_and_levels st latest asset res = Some (p, sup, rst)
    /\ entry_price d = p
    /\ stop_loss d = stop_of (signal_type res) p sup rst
    /\ take_profit d = target_of (signal_type res) p sup rst
    /\ reasons d = reasons_of (filtered_signals res)
    /\ asset_enabled cfg asset = true
    /\ (confirmation_required (cfg_signals cfg) = true ->
        (2 <= strategies_with_signals res)%nat).
Proof.
  unfold generate_trading_signal.
  destruct (asset_enabled cfg asset); simpl; [|discriminate].
  destruct (rate_limited _ _ _ _); [discriminate|].
  destruct (all_signals res); [discriminate|].
  destruct (filtered_signals res); [discriminate|].
  destruct (Qltb (aggregate_confidence res) _); [discriminate|].
  destruct (confirmation_required (cfg_signals cfg)) eqn:Ec; simpl.
  - destruct (strategies_with_signals res <? 2)%nat eqn:En; [discriminate|].
    apply Nat.ltb_ge in En.
    destruct (price_and_levels st latest asset res) as [[[p sup] rst]|]; [|discriminate].
    destruct (Qltb (ratio_of _ _ _) _); [discriminate|].
    intros [= <- <-]. exists p, sup, rst. simpl. repeat split; done.
  - destruct (price_and_levels st latest asset res) as [[[p sup] rst]|]; [|discriminate].
    destruct (Qltb (ratio_of _ _ _) _); [discriminate|].
    intros [= <- <-]. exists p, sup, rst. simpl. repeat split; done.
Qed.



(** X9. An emitted decision is a Buy exactly when the Buy microsignals
    strictly outnumber the Sell ones, and a Sell otherwise (a tie
    sells); at least one microsignal has its type, and its reasons are
    those of the microsignals of its type, in order. *)
Theorem majority_direction (st : analyzer_state) (now : Q) (latest : option Q)
    (asset profile : string) (cfg : profile_config) (res : analysis_results)
    (d : trading_signal) (st' : analyzer_state) :
  generate_trading_signal st now latest asset profile cfg res = (Some d, st') ->
  (ts_type d = Compra <-> (votes Venda res < votes Compra res)%nat)
  /\ (ts_type d = Venda <-> (votes Compra res <= votes Venda res)%nat)
  /\ (0 < votes (ts_type d) res)%nat
  /\ reasons d
     = omap sig_reason (List.filter (has_type (ts_type d)) (all_signals res)).
Proof.
  intros H.
  pose proof (generate_cases st now latest asset profile cfg res) as G.
  rewrite H in G. simpl in G.
  destruct G as (_ & _ & Hf & _ & _ & _ & Ht & _).
  destruct (generate_emitted _ _ _ _ _ _ _ _ _ H)
    as (_ & _ & _ & _ & _ & _ & _ & Hr & _).
  rewrite Ht. unfold votes.
  split; [|split; [|split]].
  - unfold signal_type. destruct (_ <? _)%nat eqn:E.
    + apply Nat.ltb_lt in E. by split.
    + apply Nat.ltb_ge in E. split; [discriminate|lia].
  - unfold signal_type. destruct (_ <? _)%nat eqn:E.
    + apply Nat.ltb_lt in E. split; [discriminate|lia].
    + apply Nat.ltb_ge in E. by split.
  - unfold filtered_signals in Hf.
    destruct (List.filter (has_type (signal_type res)) (all_signals res));
      [done|simpl; lia].
  - rewrite Hr. reflexivity.
Qed.

Lemma majority_direction_witness :
  match fst (evaluate analyzer_init (flat_eval 0)) with
  | Some d => ts_type d = Venda
              <-> (votes Compra (run_analyses agressivo flat_frame)
                   <= votes Venda (run_analyses agressivo flat_frame))%nat
  | None => False
  end.
Proof.
  destruct (evaluate analyzer_init (flat_eval 0)) as [[d|] st'] eqn:E;
    [|vm_compute in E; discriminate E].
  simpl.
  exact (proj1 (proj2 (majority_direction _ _ _ _ _ _ _ _ _ E))).
Defined.

(** ** Decision engine: entry, stop and target *)






(** ** One evaluation: what is recorded and what is the entry price *)

(** X11. One evaluation of an enabled profile on a frame with enough
    rows and a price column records the last price for the asset and
    for no other; a disabled profile or a short frame changes nothing
    and emits nothing; the entry price of an emitted decision is that
    last price, or the latest tick when the last price is 0. *)
Theorem evaluation_entry_price (st : analyzer_state) (now : Q) (df : frame)
    (latest : option Q) (asset profile : string) (cfg : profile_config)
    (prices : list Q) :
  series df Ultimo = Some prices ->
  let p := iloc_back prices 1 in
  let '(o, st') := analyze_asset_with_profile st now (Some df) latest asset profile cfg in
  (profile_enabled cfg profile = true -> (0 < len df)%nat ->
   (min_data_points cfg <= len df)%nat ->
   market_data st' !! asset = Some p
   /\ forall a, a <> asset -> market_data st' !! a = market_data st !! a)
  /\ (profile_enabled cfg profile = false \/ (len df < min_data_points cfg)%nat
      \/ len df = 0%nat -> o = None /\ st' = st)
  /\ forall d, o = Some d ->
       (~ p == 0 -> entry_price d = p)
       /\ (p == 0 -> latest = Some (entry_price d)).
Proof.
  intros Hser p. unfold analyze_asset_with_profile.
  destruct (profile_enabled cfg profile) eqn:Hen; simpl.
  2:{ repeat split; try discriminate. }
  destruct (len df =? 0)%nat eqn:H0.
  { apply Nat.eqb_eq in H0. split; [intros _ ?; lia|]. split; [done|discriminate]. }
  apply Nat.eqb_neq in H0.
  destruct (len df <? min_data_points cfg)%nat eqn:Hm.
  { apply Nat.ltb_lt in Hm. split; [intros _ _ ?; lia|]. split; [done|discriminate]. }
  apply Nat.ltb_ge in Hm. rewrite Hser. fold p.
  set (st1 := store_last st asset p).
  pose proof (generate_cases st1 now latest asset profile cfg (run_analyses cfg df)) as G.
  destruct (generate_trading_signal st1 now latest asset profile cfg
              (run_analyses cfg df)) as [o st'] eqn:E.
  assert (Hmd : market_data st' = market_data st1).
  { destruct o as [d|]; simpl in G; [destruct G as (-> & _)|subst st']; reflexivity. }
  split; [|split].
  - intros _ _ _. rewrite Hmd. unfold st1. simpl. split.
    + apply lookup_insert_eq.
    + intros a Ha. by apply lookup_insert_ne.
  - intros [?|[?|?]]; [discriminate|lia|lia].
  - intros d ->.
    destruct (generate_emitted _ _ _ _ _ _ _ _ _ E)
      as (q & sup & rst & Hpl & He & _).
    unfold price_and_levels in Hpl.
    assert (Hlk : market_data st1 !! asset = Some p) by apply lookup_insert_eq.
    rewrite Hlk in Hpl. unfold truthy, or_else in Hpl.
    destruct (Qeq_bool p 0) eqn:Ep; cbn [negb] in Hpl.
    + apply Qeq_bool_iff in Ep. split; [intros Hn; contradiction|]. intros _.
      destruct latest as [l|]; [|discriminate].
      destruct (valid (res_wyckoff (run_analyses cfg df)));
        injection Hpl as Hq _ _; rewrite He, <- Hq; reflexivity.
    + split; [|intros Hz; apply Qeq_bool_iff in Hz; congruence].
      intros _. injection Hpl as Hq _ _. rewrite He, <- Hq. reflexivity.
Qed.

Lemma evaluation_entry_price_witness :
  match fst (evaluate analyzer_init (flat_eval 0)) with
  | Some d => entry_price d = 100
  | None => False
  end.
Proof.
  destruct (series flat_frame Ultimo) as [prices|] eqn:Hser;
    [|vm_compute in Hser; discriminate Hser].
  pose proof (evaluation_entry_price analyzer_init 0 flat_frame (Some 100)
                                     "winfut" "agressivo" agressivo prices Hser) as H.
  change (analyze_asset_with_profile analyzer_init 0 (Some flat_frame) (Some 100)
            "winfut" "agressivo" agressivo)
    with (evaluate analyzer_init (flat_eval 0)) in H.
  destruct (evaluate analyzer_init (flat_eval 0)) as [[d|] st'] eqn:E;
    [|vm_compute in E; discriminate E].
  simpl. cbv zeta in H. destruct H as (_ & _ & H).
  destruct (H d eq_refl) as [H1 _].
  vm_compute in Hser. injection Hser as <-.
  rewrite H1; [reflexivity|]. vm_compute. discriminate.
Defined.

(** ** Executor: daily statistics and the trading gate *)

Lemma load_daily_stats_ok st today :
  (forall k s, stats_table st !! k = Some s -> ds_date s = k /\ balanced s) ->
  stats_ok (load_daily_stats st today)
  /\ ds_date (stats (load_daily_stats st today)) = today
  /\ forall k, k <> today ->
       stats_table (load_daily_stats st today) !! k = stats_table st !! k.
Proof.
  intros Hk. unfold load_daily_stats, stats_ok.
  destruct (stats_table st !! today) as [s|] eqn:E;
    cbn [stats stats_table with_stats zero_stats ds_date].
  - destruct (Hk _ _ E) as [Hd Hb]. split; [split; [exact Hk|split]|split].
    + exact Hb.
    + by rewrite Hd.
    + exact Hd.
    + done.
  - assert (Hk' : forall k s, <[today:=zero_stats today]> (stats_table st) !! k = Some s ->
                         ds_date s = k /\ balanced s).
    { intros k s Hs. destruct (decide (k = today)) as [->|Hn].
      - rewrite lookup_insert_eq in Hs. injection Hs as <-. by split.
      - rewrite lookup_insert_ne in Hs by done. by apply Hk. }
    split; [split; [exact Hk'|split]|split].
    + reflexivity.
    + apply lookup_insert_eq.
    + reflexivity.
    + intros k Hn. by apply lookup_insert_ne.
Qed.

Lemma update_daily_stats_unfold (st : executor) (today : string) (profit : Q) :
  stats_ok st ->
  exists st1,
    update_daily_stats st today profit
    = save_daily_stats (with_stats st1 (count_trade (stats st1) profit)
                                   (stats_table st1))
    /\ stats st1 = stats_on st today /\ ds_date (stats st1) = today
    /\ balanced (stats st1)
    /\ (forall k x, stats_table st1 !! k = Some x -> ds_date x = k /\ balanced x)
    /\ forall k, k <> today -> stats_table st1 !! k = stats_table st !! k.
Proof.
  intros (Hk & Hb & Hrow).
  unfold update_daily_stats, stats_on.
  case_bool_decide as Hd.
  - exists st. split; [reflexivity|]. split; [reflexivity|]. split; [exact Hd|].
    split; [exact Hb|]. split; [exact Hk|]. done.
  - exists (load_daily_stats st today).
    destruct (load_daily_stats_ok st today Hk) as ((Hk1 & Hb1 & _) & Hd1 & Ho1).
    assert (Hs : stats (load_daily_stats st today)
                 = match stats_table st !! today with
                   | Some s => s | None => zero_stats today end).
    { unfold load_daily_stats. by destruct (stats_table st !! today). }
    split; [reflexivity|]. split; [exact Hs|].
    split; [exact Hd1|]. split; [exact Hb1|]. split; [exact Hk1|exact Ho1].
Qed.

(** X12. [update_daily_stats]: one closed trade is counted on the day's row,
    as a win when the profit is positive and as a loss otherwise (a
    profit of zero is a loss); the row is written back, the rows of the
    other days are left alone. *)
Theorem update_daily_stats_counts (st : executor) (today : string) (profit : Q) :
  stats_ok st ->
  let s := stats_on st today in
  let st' := update_daily_stats st today profit in
  stats_ok st'
  /\ ds_date (stats st') = today
  /\ ds_trades (stats st') = S (ds_trades s)
  /\ ds_pnl (stats st') == ds_pnl s + profit
  /\ (0 < profit -> ds_wins (stats st') = S (ds_wins s)
                    /\ ds_losses (stats st') = ds_losses s)
  /\ (profit <= 0 -> ds_wins (stats st') = ds_wins s
                     /\ ds_losses (stats st') = S (ds_losses s))
  /\ stats_table st' !! today = Some (stats st')
  /\ forall k, k <> today -> stats_table st' !! k = stats_table st !! k.
Proof.
  intros Hok s st'.
  destruct (update_daily_stats_unfold st today profit Hok)
    as (st1 & Heq & Hs & Hd & Hbs & Hk1 & Ho1).
  unfold st'. rewrite Heq. clear Heq. fold s in Hs. rewrite Hs in Hd, Hbs.
  unfold save_daily_stats. cbn [stats stats_table with_stats count_trade ds_date
                                ds_trades ds_pnl ds_wins ds_losses].
  rewrite Hs, Hd.
  assert (Hbal : balanced (count_trade s profit)).
  { unfold balanced, count_trade in *. simpl. destruct (Qltb 0 profit); lia. }
  split; [|split; [|split; [|split; [|split; [|split; [|split]]]]]].
  - unfold stats_ok. cbn [stats stats_table with_stats count_trade ds_date].
    split; [|split].
    + intros k x Hx. destruct (decide (k = today)) as [->|Hn].
      * rewrite lookup_insert_eq in Hx. injection Hx as <-. by split.
      * rewrite lookup_insert_ne in Hx by done. by apply Hk1.
    + exact Hbal.
    + rewrite Hd. apply lookup_insert_eq.
  - reflexivity.
  - reflexivity.
  - reflexivity.
  - intros H. apply Qltb_lt in H. by rewrite H.
  - intros H. apply Qltb_ge in H. by rewrite H.
  - apply lookup_insert_eq.
  - intros k Hn. rewrite lookup_insert_ne by done. by apply Ho1.
Qed.

Lemma update_daily_stats_counts_witness :
  ds_trades (stats (update_daily_stats losing_executor "2025-05-24" 0)) = 1%nat
  /\ ds_losses (stats (update_daily_stats losing_executor "2025-05-24" 0)) = 1%nat
  /\ stats_table (update_daily_stats losing_executor "2025-05-24" 0) !! "2025-05-23"
     = stats_table losing_executor !! "2025-05-23".
Proof.
  assert (Hok : stats_ok losing_executor).
  { apply load_daily_stats_ok. cbn [stats_table]. intros k s Hs.
    apply lookup_singleton_Some in Hs as [<- <-]. by split. }
  destruct (update_daily_stats_counts losing_executor "2025-05-24" 0 Hok)
    as (_ & _ & Ht & _ & _ & Hl & _ & Ho).
  split; [exact Ht|]. split.
  - apply Hl. discriminate.
  - apply Ho. discriminate.
Defined.

(** X13. [load_daily_stats] after [update_daily_stats]: an executor started
    again on the same day, on the table the update wrote, finds the
    statistics the update left and writes nothing. *)
Theorem stats_survive_restart (st : executor) (today : string) (profit : Q)
    (cfg : executor_config) (balance : Q) (orders : list order_row) :
  stats_ok st ->
  let st' := update_daily_stats st today profit in
  let again := executor_init cfg balance today (stats_table st') orders in
  stats again = stats st' /\ stats_table again = stats_table st'.
Proof.
  intros Hok st' again.
  destruct (update_daily_stats_unfold st today profit Hok)
    as (st1 & Heq & _ & Hd & _).
  assert (Hrow : stats_table st' !! today = Some (stats st')).
  { unfold st'. rewrite Heq. unfold save_daily_stats.
    cbn [stats stats_table with_stats count_trade ds_date].
    rewrite Hd. apply lookup_insert_eq. }
  unfold again, executor_init, load_daily_stats.
  cbn [stats_table]. rewrite Hrow. done.
Qed.

Lemma stats_survive_restart_witness :
  ds_trades (stats (executor_init sample_config 96000 "2025-05-23"
                      (stats_table (update_daily_stats losing_executor "2025-05-23" 150))
                      [])) = 5%nat.
Proof.
  assert (Hok : stats_ok losing_executor).
  { apply load_daily_stats_ok. cbn [stats_table]. intros k s Hs.
    apply lookup_singleton_Some in Hs as [<- <-]. by split. }
  destruct (stats_survive_restart losing_executor "2025-05-23" 150
              sample_config 96000 [] Hok) as [H _].
  rewrite H. reflexivity.
Defined.

(** X14. [check_trading_allowed]: both ends of the trading hours are inside,
    the loss limit is strict, and without account information the gate
    is closed.  A day that is not in loss is never stopped by the limit
    as long as the balance covers the day's profit. *)
Theorem trading_gate (st : executor) (time : Q) :
  let cfg := config st in
  let pnl := ds_pnl (stats st) in
  (check_trading_allowed st time = true <->
   trading_start cfg <= time /\ time <= trading_end cfg
   /\ exists balance, account_balance st = Some balance
        /\ - (max_daily_loss_pct cfg / 100 * (balance - pnl)) <= pnl)
  /\ (forall balance, account_balance st = Some balance ->
      trading_start cfg <= time -> time <= trading_end cfg ->
      0 <= max_daily_loss_pct cfg -> 0 <= pnl -> pnl <= balance ->
      check_trading_allowed st time = true).
Proof.
  intros cfg pnl.
  assert (Hiff : check_trading_allowed st time = true <->
     trading_start cfg <= time /\ time <= trading_end cfg
     /\ exists balance, account_balance st = Some balance
          /\ - (max_daily_loss_pct cfg / 100 * (balance - pnl)) <= pnl).
  { unfold check_trading_allowed, loss_limit_hit. fold cfg pnl.
    destruct (Qleb (trading_start cfg) time) eqn:E1; simpl.
    - destruct (Qleb time (trading_end cfg)) eqn:E2; simpl.
      + apply Qleb_le in E1, E2.
        destruct (account_balance st) as [b|].
        * destruct (Qltb pnl _) eqn:E3; simpl.
          -- apply Qltb_lt in E3. split; [discriminate|].
             intros (_ & _ & b' & [= <-] & Hle). lra.
          -- apply Qltb_ge in E3. split; [|done]. intros _.
             split; [done|]. split; [done|]. by exists b.
        * split; [discriminate|]. by intros (_ & _ & b' & [=] & _).
      + apply Qleb_gt in E2. split; [discriminate|]. intros (_ & H & _). lra.
    - apply Qleb_gt in E1. split; [discriminate|]. intros (H & _). lra. }
  split; [exact Hiff|].
  intros balance Hb H1 H2 Hp Hpnl Hbal. apply Hiff.
  split; [done|]. split; [done|]. exists balance. split; [done|].
  assert (0 <= max_daily_loss_pct cfg / 100 * (balance - pnl)); [|lra].
  apply Qmult_le_0_compat; [|lra].
  apply Qle_shift_div_l; [reflexivity|]. lra.
Qed.

Lemma trading_gate_witness :
  check_trading_allowed sample_executor 64500 = true.
Proof.
  apply (proj2 (trading_gate sample_executor 64500) 100000); vm_compute;
    first [reflexivity | discriminate].
Defined.

(** ** Executor: the order loop *)

Lemma accepted_books st st' br :
  same_books st st' -> accepted st' br = accepted st br.
Proof.
  intros Hb. unfold accepted. rewrite (gate_books st st') by done.
  destruct Hb as (-> & _). reflexivity.
Qed.

Lemma process_order_step st br o q :
  order_queue st = o :: q ->
  order_queue (process_order st br) = q
  /\ orders_table (process_order st br)
     = orders_table st ++ (if accepted st br then [row_of o br] else [])
  /\ processed_signal_timestamps (process_order st br)
     = processed_signal_timestamps st.
Proof.
  intros Hq. unfold process_order, accepted. rewrite Hq.
  rewrite (gate_books st (with_orders st q (orders_table st)))
    by (unfold same_books; done).
  cbn [config with_orders orders_table].
  destruct (check_trading_allowed st (br_time br)); simpl;
    [|by rewrite app_nil_r].
  destruct (max_open_trades (config st) <=? br_open_positions br)%nat; simpl;
    [by rewrite app_nil_r|].
  destruct (Qleb (br_lot_size br) 0); simpl; [by rewrite app_nil_r|].
  destruct (br_insert_ok br); simpl; [done|by rewrite app_nil_r].
Qed.

Lemma process_order_idle st br : order_queue st = [] -> process_order st br = st.
Proof. intros Hq. unfold process_order. by rewrite Hq. Qed.

Lemma row_of_status o br :
  or_status (row_of o br) = status_of (or_mt5_ticket (row_of o br))
  /\ (or_status (row_of o br) = OPEN <->
      exists t, or_mt5_ticket (row_of o br) = Some t /\ t <> 0%Z)
  /\ or_profit (row_of o br) = None.
Proof.
  unfold row_of, status_of. simpl. split; [done|]. split; [|done].
  destruct (br_ticket br) as [t|].
  - destruct (t =? 0)%Z eqn:E.
    + apply Z.eqb_eq in E. split; [discriminate|]. intros (t' & [= <-] & Hn). lia.
    + apply Z.eqb_neq in E. split; [|done]. intros _. by exists t.
  - split; [discriminate|]. by intros (t' & [=] & _).
Qed.

(** X15. [order_processor_thread]: the loop takes the orders in the order
    they were queued, one per iteration, and every order it takes leaves
    the queue whether it is executed or not; the rows it writes are
    those of the accepted orders, in queue order, after the rows that
    were there. *)
Theorem order_loop (brs : list broker_reply) : forall st : executor,
  let st' := exec_run st (map ProcessOrder brs) in
  order_queue st' = drop (length brs) (order_queue st)
  /\ orders_table st'
     = orders_table st
       ++ map (fun p => row_of p.1 p.2)
              (List.filter (recorded st) (zip (order_queue st) brs))
  /\ processed_signal_timestamps st' = processed_signal_timestamps st
  /\ Forall (fun r => or_status r = status_of (or_mt5_ticket r)
                      /\ (or_status r = OPEN <->
                          exists t, or_mt5_ticket r = Some t /\ t <> 0%Z)
                      /\ or_profit r = None)
            (drop (length (orders_table st)) (orders_table st')).
Proof.
  intros st st'.
  assert (H : order_queue st' = drop (length brs) (order_queue st)
    /\ orders_table st'
       = orders_table st
         ++ map (fun p => row_of p.1 p.2)
                (List.filter (recorded st) (zip (order_queue st) brs))
    /\ processed_signal_timestamps st' = processed_signal_timestamps st);
    [|destruct H as (H1 & H2 & H3); split; [done|]; split; [done|]; split; [done|];
      rewrite H2, drop_app_length; apply Forall_forall; intros r Hr;
      apply list_elem_of_fmap in Hr as ([o br] & -> & _);
      apply row_of_status].
  subst st'. revert st.
  induction brs as [|br brs IH]; intros st; cbn zeta.
  - simpl. rewrite drop_0. destruct (order_queue st); simpl;
      by rewrite app_nil_r.
  - cbn [map exec_run fold_left exec_step length].
    specialize (IH (process_order st br)). cbn zeta in IH.
    unfold exec_run in IH. destruct IH as (IH1 & IH2 & IH3).
    destruct (order_queue st) as [|o q] eqn:Hq.
    + rewrite process_order_idle in * by done. rewrite Hq in *.
      rewrite IH1, IH2, IH3. rewrite drop_nil. done.
    + destruct (process_order_step st br o q Hq) as (H1 & H2 & H3).
      rewrite IH1, IH2, IH3, H1, H2, H3. split; [done|]. split; [|done].
      rewrite <- app_assoc. f_equal.
      cbn [zip zip_with List.filter]. unfold recorded at 2. cbn [snd].
      assert (Hf : forall l, List.filter (recorded (process_order st br)) l
                             = List.filter (recorded st) l).
      { intros l. apply filter_ext. intros p. unfold recorded.
        apply accepted_books, process_order_books. }
      rewrite Hf. destruct (accepted st br); reflexivity.
Qed.

(** ** Executor: reading the signal file *)

Lemma process_signal_file_app st p q :
  process_signal_file st (p ++ q) = process_signal_file (process_signal_file st p) q.
Proof. unfold process_signal_file. apply fold_left_app. Qed.

Lemma process_signal_file_marks file : forall st,
  processed_signal_timestamps (process_signal_file st file)
  = processed_signal_timestamps st ∪ file_timestamps file.
Proof.
  unfold file_timestamps.
  induction file as [|s file IH]; intros st; simpl.
  - apply set_eq. intros t. rewrite elem_of_union, elem_of_empty. tauto.
  - unfold process_signal_file in *. rewrite IH. clear IH.
    unfold process_signal.
    destruct (timestamp_of s) as [t|] eqn:Ht; simpl; [|done].
    apply set_eq. intros u.
    case_bool_decide as Hin.
    + rewrite !elem_of_union, elem_of_singleton.
      split; [tauto|]. intros [?|[->|?]]; tauto.
    + destruct (order_of_signal s); simpl;
        rewrite !elem_of_union, elem_of_singleton; tauto.
Qed.

Lemma process_signal_file_seen file : forall st,
  file_timestamps file ⊆ processed_signal_timestamps st ->
  process_signal_file st file = st.
Proof.
  unfold file_timestamps.
  induction file as [|s file IH]; intros st Hsub; [done|].
  unfold process_signal_file in *. simpl in *.
  destruct (timestamp_of s) as [t|] eqn:Ht; simpl in Hsub.
  - rewrite (process_signal_seen st s t Ht).
    + apply IH. intros u Hu. apply Hsub, elem_of_union. by right.
    + apply Hsub, elem_of_union. left. by apply elem_of_singleton.
  - unfold process_signal at 2. rewrite Ht. by apply IH.
Qed.

Lemma process_signal_queue st s :
  order_queue st `prefix_of` order_queue (process_signal st s)
  /\ orders_table (process_signal st s) = orders_table st.
Proof.
  unfold process_signal. destruct (timestamp_of s) as [t|]; [|done].
  case_bool_decide; [done|].
  destruct (order_of_signal s) as [o|]; simpl; [|done].
  split; [|done]. by exists [o].
Qed.

(** X16. [signal_processor_thread], one reading of the file: the processed
    set grows by exactly the non-empty timestamps of the file, the queue
    is only extended, and neither the order table nor the books are
    touched. *)
Theorem signal_file_reading (file : list file_signal) : forall st : executor,
  let st' := process_signal_file st file in
  processed_signal_timestamps st'
  = processed_signal_timestamps st ∪ file_timestamps file
  /\ order_queue st `prefix_of` order_queue st'
  /\ (length (order_queue st') <= length (order_queue st) + length file)%nat
  /\ orders_table st' = orders_table st
  /\ same_books st st'.
Proof.
  intros st st'. split; [apply process_signal_file_marks|].
  subst st'. revert st. unfold process_signal_file.
  induction file as [|s file IH]; intros st; simpl.
  - split; [done|]. split; [lia|]. split; [done|]. unfold same_books. done.
  - destruct (IH (process_signal st s)) as (H1 & H2 & H3 & H4).
    destruct (process_signal_queue st s) as [K1 K3].
    assert (K2 : (length (order_queue (process_signal st s))
                  <= S (length (order_queue st)))%nat).
    { unfold process_signal. destruct (timestamp_of s); [|lia].
      case_bool_decide; [lia|].
      destruct (order_of_signal s); simpl; [rewrite length_app; simpl|]; lia. }
    split; [by etrans|]. split; [lia|]. split; [congruence|].
    destruct (process_signal_books st s) as (B1 & B2 & B3 & B4).
    destruct H4 as (C1 & C2 & C3 & C4). unfold same_books.
    rewrite C1, C2, C3, C4. done.
Qed.

Lemma process_signal_file_reread (st : executor) (old new : list file_signal) :
  process_signal_file (process_signal_file st old) (old ++ new)
  = process_signal_file st (old ++ new).
Proof.
  rewrite (process_signal_file_app (process_signal_file st old)).
  rewrite (process_signal_file_seen old (process_signal_file st old)).
  - symmetry. apply process_signal_file_app.
  - rewrite process_signal_file_marks. intros t Ht. apply elem_of_union. by right.
Qed.

(** X17. Reading a file again changes nothing, and reading it again
    after it has grown by appended entries gives the state that one
    reading of the grown file gives: the entries already read are
    skipped, whether they were valid or not. *)
Theorem signal_file_reread (st : executor) (old new : list file_signal) :
  process_signal_file (process_signal_file st old) old
  = process_signal_file st old
  /\ process_signal_file (process_signal_file st old) (old ++ new)
     = process_signal_file st (old ++ new).
Proof.
  split; [|apply process_signal_file_reread].
  apply process_signal_file_seen.
  rewrite process_signal_file_marks. intros t Ht. apply elem_of_union. by right.
Qed.

Lemma poll_run_grows final st0 files : forall it,
  Forall (grows_to final) files ->
  (exists read, read `prefix_of` final
                /\ exec it = process_signal_file st0 read) ->
  exists read, read `prefix_of` final
               /\ exec (poll_run it files) = process_signal_file st0 read.
Proof.
  induction files as [|file files IH]; intros it Hg Hit; simpl; [done|].
  apply Forall_cons in Hg as [Hf Hg].
  apply IH; [done|].
  destruct Hit as (read & Hread & Hex).
  destruct file as [f|]; simpl; [|by exists read].
  destruct (Qleb _ _); [by exists read|]. simpl. simpl in Hf.
  rewrite Hex.
  destruct (prefix_weak_total _ _ _ Hread Hf) as [[k Hk]|[k Hk]].
  - exists (entries_of (sf_content f)). split; [exact Hf|].
    rewrite Hk. apply process_signal_file_reread.
  - exists read. split; [exact Hread|].
    apply process_signal_file_seen.
    rewrite process_signal_file_marks, Hk. intros t Ht.
    apply elem_of_union. right. unfold file_timestamps in *.
    rewrite omap_app, list_to_set_app. apply elem_of_union. by left.
Qed.

(** X18. The polling loop on a file that only grows by appended entries:
    whatever readings the earlier polls made or skipped (the file not
    newer than the last reading, missing, or not decodable), a poll that
    reads the whole file leaves the executor as one reading of the whole
    file from the start would. *)
Theorem polls_of_growing_file (st : executor) (files : list (option signal_file))
    (last : signal_file) (final : list file_signal) :
  Forall (grows_to final) files ->
  sf_content last = Entries final ->
  last_signal_file_mtime (poll_run (intake_init st) files) < sf_mtime last ->
  exec (poll_run (intake_init st) (files ++ [Some last]))
  = process_signal_file st final.
Proof.
  intros Hg Hc Hm. unfold poll_run. rewrite fold_left_app. simpl.
  fold (poll_run (intake_init st) files).
  apply Qleb_gt in Hm. rewrite Hm. simpl. rewrite Hc. simpl.
  destruct (poll_run_grows final st files (intake_init st) Hg)
    as (read & [k Hk] & Hex).
  - exists []. split; [apply prefix_nil|done].
  - rewrite Hex, Hk. apply process_signal_file_reread.
Qed.

Lemma polls_of_growing_file_witness :
  exec (poll_run (intake_init sample_executor)
          ([Some {| sf_mtime := 10; sf_content := Entries (take 1 three_signals) |};
            Some {| sf_mtime := 10; sf_content := Entries (take 2 three_signals) |};
            Some {| sf_mtime := 12; sf_content := Garbled |};
            None]
           ++ [Some {| sf_mtime := 15; sf_content := Entries three_signals |}]))
  = process_signal_file sample_executor three_signals.
Proof.
  apply polls_of_growing_file.
  - repeat constructor; simpl.
    + by exists (drop 1 three_signals).
    + by exists (drop 2 three_signals).
    + apply prefix_nil.
  - reflexivity.
  - vm_compute. reflexivity.
Defined.

(** ** From the analyzer to the executor *)

Lemma order_of_signal_decision isoformat d :
  order_of_signal (to_file_signal isoformat d) = Some (order_of_decision isoformat d).
Proof. reflexivity. Qed.

Lemma process_signal_decision st isoformat d :
  process_signal st (to_file_signal isoformat d)
  = if bool_decide (isoformat (ts_timestamp d) = "") then st
    else if bool_decide (isoformat (ts_timestamp d) ∈ processed_signal_timestamps st)
         then st
         else with_intake st ({[isoformat (ts_timestamp d)]}
                              ∪ processed_signal_timestamps st)
                          (order_queue st ++ [order_of_decision isoformat d]).
Proof.
  unfold process_signal. rewrite order_of_signal_decision.
  unfold timestamp_of. cbn [to_file_signal fs_timestamp].
  case_bool_decide; [done|]. case_bool_decide; done.
Qed.

Lemma type_name_not_buy d : type_name d <> "BUY".
Proof. by destruct d. Qed.

(** X19. A decision of the analyzer that the executor takes from the signal
    file is sent to the broker as a sale at the bid, for a purchase
    ("Compra") as for a sale ("Venda"): the request is a purchase for
    the type "BUY" only, which the analyzer never writes.  Symbol, stop
    and target are those of the decision. *)
Theorem analyzer_orders_are_sells (isoformat : Q -> string)
    (st : analyzer_state) (now : Q) (latest : option Q)
    (asset profile : string) (cfg : profile_config) (res : analysis_results)
    (d : trading_signal) (st' : analyzer_state) :
  generate_trading_signal st now latest asset profile cfg res = (Some d, st') ->
  exists o, order_of_signal (to_file_signal isoformat d) = Some o
    /\ od_type o = type_name (signal_type res)
    /\ forall volume ask bid,
         let rq := request_of o volume ask bid in
         rq_type rq = ORDER_TYPE_SELL
         /\ rq_price rq = bid
         /\ rq_symbol rq = asset
         /\ rq_sl rq = stop_loss d
         /\ rq_tp rq = take_profit d.
Proof.
  intros E.
  pose proof (generate_cases st now latest asset profile cfg res) as G.
  rewrite E in G. cbv zeta in G.
  destruct G as (_ & _ & _ & Ha & _ & _ & Ht & _).
  exists (order_of_decision isoformat d).
  split; [apply order_of_signal_decision|].
  split; [simpl; by rewrite Ht|].
  intros volume ask bid. unfold request_of, market_order_request. simpl.
  rewrite !bool_decide_eq_false_2 by apply type_name_not_buy.
  by rewrite Ha.
Qed.

Lemma analyzer_orders_are_sells_witness :
  match fst (evaluate analyzer_init selloff_eval) with
  | Some d =>
      ts_type d = Compra
      /\ exists o, order_of_signal (to_file_signal one_instant d) = Some o
           /\ rq_type (request_of o 1 22 21) = ORDER_TYPE_SELL
  | None => False
  end.
Proof.
  destruct (evaluate analyzer_init selloff_eval) as [[d|] st'] eqn:E;
    [|vm_compute in E; discriminate E].
  simpl.
  assert (E' : generate_trading_signal
                 (store_last analyzer_init "winfut"
                             (iloc_back (default [] (series selloff_frame Ultimo)) 1))
                 0 (Some 100) "winfut" "agressivo" agressivo
                 (run_analyses agressivo selloff_frame) = (Some d, st')) by exact E.
  split.
  - vm_compute in E. by injection E as <- _.
  - destruct (analyzer_orders_are_sells one_instant _ _ _ _ _ _ _ _ _ E')
      as (o & Ho & _ & Hrq).
    exists o. split; [exact Ho|]. apply (Hrq 1 22 21).
Defined.

(** X20. A decision sent to an enabled executor is appended to the entries
    of the signal file (a file that cannot be decoded counts as empty,
    so its earlier entries are lost).  The executor that reads the new
    file queues one order for the decision, after the orders of the
    earlier entries, unless the decision's timestamp is empty or is the
    timestamp of an earlier entry or of a signal it has processed: then
    the decision changes nothing. *)
Theorem decision_reaches_queue (isoformat : Q -> string) (ob : outbox)
    (d : trading_signal) (st : executor) :
  executor_enabled ob = true ->
  signal_file_content ob <> Some NotAList ->
  let old := read_entries (signal_file_content ob) in
  let t := isoformat (ts_timestamp d) in
  let '(sent, ob') := send_signal_to_executor isoformat ob (Some d) Written in
  let before := process_signal_file st old in
  let after := process_signal_file st (read_entries (signal_file_content ob')) in
  sent = true
  /\ signal_file_content ob' = Some (Entries (old ++ [to_file_signal isoformat d]))
  /\ (t <> "" -> t ∉ processed_signal_timestamps before ->
      order_queue after = order_queue before ++ [order_of_decision isoformat d]
      /\ t ∈ processed_signal_timestamps after)
  /\ (t = "" \/ t ∈ processed_signal_timestamps before -> after = before).
Proof.
  intros Hen Hc old t. unfold send_signal_to_executor. rewrite Hen. cbn [negb].
  assert (Hex : match signal_file_content ob with
                | None => Some []
                | Some (Entries l) => Some l
                | Some Garbled => Some []
                | Some NotAList => None
                end = Some old).
  { unfold old. destruct (signal_file_content ob) as [[l| |]|]; done. }
  rewrite Hex. cbn [signal_file_content read_entries entries_of].
  split; [done|]. split; [done|].
  rewrite process_signal_file_app.
  set (before := process_signal_file st old).
  change (process_signal_file before [to_file_signal isoformat d])
    with (process_signal before (to_file_signal isoformat d)).
  rewrite process_signal_decision. fold t.
  split.
  - intros Ht Hnew. rewrite bool_decide_eq_false_2 by done.
    rewrite bool_decide_eq_false_2 by done.
    cbn [with_intake order_queue processed_signal_timestamps].
    split; [done|]. apply elem_of_union. left. by apply elem_of_singleton.
  - intros [Ht|Hin].
    + by rewrite bool_decide_eq_true_2.
    + case_bool_decide; [done|]. by rewrite bool_decide_eq_true_2.
Qed.

Lemma decision_reaches_queue_witness :
  order_queue
    (process_signal_file sample_executor
       (read_entries (signal_file_content
          (snd (send_signal_to_executor one_instant empty_outbox
                  (Some sample_decision) Written)))))
  = [order_of_decision one_instant sample_decision].
Proof.
  pose proof (decision_reaches_queue one_instant empty_outbox sample_decision
                sample_executor eq_refl) as H.
  cbv zeta in H.
  destruct (send_signal_to_executor one_instant empty_outbox (Some sample_decision)
              Written) as [sent ob'] eqn:E.
  destruct H as (_ & _ & H & _); [discriminate|].
  destruct H as [H _].
  - discriminate.
  - vm_compute. discriminate.
  - exact H.
Defined.

(** ** Periodic charts *)

Lemma chart_calls_floor interval calls : forall ledger key t,
  (exists last, ledger !! key = Some last /\ t <= last) ->
  Forall (fun c => t <= cc_now c) calls ->
  exists last, chart_calls interval ledger calls !! key = Some last /\ t <= last.
Proof.
  induction calls as [|c calls IH]; intros ledger key t Hl Hc; simpl; [done|].
  apply Forall_cons in Hc as [Hc Hcs].
  apply IH; [|done].
  destruct Hl as (last & Hl & Hle).
  unfold should_generate_chart.
  set (k := signal_key (cc_asset c) (cc_profile c)).
  assert (Hins : exists last', <[k := cc_now c]> ledger !! key = Some last' /\ t <= last').
  { destruct (decide (k = key)) as [->|Hn].
    - exists (cc_now c). split; [apply lookup_insert_eq|done].
    - exists last. split; [by rewrite lookup_insert_ne|done]. }
  destruct (ledger !! k) as [l0|]; [|exact Hins].
  destruct (Qleb interval (cc_now c - l0)); [exact Hins|].
  by exists last.
Qed.

(** X21. After a chart was granted at [now], every request for the same
    asset and profile less than [chart_interval] later is refused and
    leaves the ledger alone, whatever was requested in between (the
    clock not running backwards); the first request at least
    [chart_interval] after the last grant is granted. *)
Theorem chart_spacing (interval : Q) (ledger : gmap string Q) (now : Q)
    (asset profile : string) (calls : list chart_call) (later : Q) :
  fst (should_generate_chart ledger now asset profile interval) = true ->
  Forall (fun c => now <= cc_now c) calls ->
  let ledger' :=
    chart_calls interval
      (snd (should_generate_chart ledger now asset profile interval)) calls in
  (later - now < interval ->
   should_generate_chart ledger' later asset profile interval = (false, ledger'))
  /\ (forall last, ledger' !! signal_key asset profile = Some last ->
      interval <= later - last ->
      should_generate_chart ledger' later asset profile interval
      = (true, <[signal_key asset profile := later]> ledger')).
Proof.
  intros Hgrant Hcalls ledger'.
  assert (H1 : snd (should_generate_chart ledger now asset profile interval)
               !! signal_key asset profile = Some now).
  { revert Hgrant. unfold should_generate_chart.
    destruct (ledger !! signal_key asset profile) as [l0|]; simpl.
    - destruct (Qleb interval (now - l0)); simpl; [|discriminate].
      intros _. apply lookup_insert_eq.
    - intros _. apply lookup_insert_eq. }
  destruct (chart_calls_floor interval calls _ (signal_key asset profile) now
              (ex_intro _ now (conj H1 (Qle_refl now))) Hcalls)
    as (last & Hlast & Hle).
  fold ledger' in Hlast. split.
  - intros Hlt. unfold should_generate_chart. rewrite Hlast.
    assert (E : Qleb interval (later - last) = false) by (apply Qleb_gt; lra).
    by rewrite E.
  - intros last' Hl' Hge. unfold should_generate_chart. rewrite Hl'.
    apply Qleb_le in Hge. by rewrite Hge.
Qed.

Lemma chart_spacing_witness :
  should_generate_chart
    (chart_calls 60 (snd (should_generate_chart ∅ 0 "winfut" "agressivo" 60))
       [{| cc_now := 10; cc_asset := "wdofut"; cc_profile := "agressivo" |};
        {| cc_now := 30; cc_asset := "winfut"; cc_profile := "agressivo" |}])
    59 "winfut" "agressivo" 60
  = (false,
     chart_calls 60 (snd (should_generate_chart ∅ 0 "winfut" "agressivo" 60))
       [{| cc_now := 10; cc_asset := "wdofut"; cc_profile := "agressivo" |};
        {| cc_now := 30; cc_asset := "winfut"; cc_profile := "agressivo" |}]).
Proof.
  apply chart_spacing.
  - reflexivity.
  - repeat constructor; simpl; discriminate.
  - reflexivity.
Defined.

